(** * Worker node of the translation fleet: a shallow embedding

    The development follows the Python sources of [whisper_service]:

    - [services/text_packer.py]: the packed translation format
      ([SimplifiedTextPacker.pack_multiple_translations] and
      [SimplifiedTextPacker.query_text]);
    - [services/translation_service.py]: the provider chain that ends in
      [_translate_with_dict];
    - [services/node_manager.py]: the score published by
      [_update_node_ranking];
    - [services/database_service.py]: [update_task_status].

    Python values are modelled as the code uses them: [bytes] as lists of
    [Byte.byte], [str] as lists of Unicode code points, [dict] as an
    association list in insertion order, exceptions through the [outcome]
    monad. Functions of libraries outside the repository ([hashlib.md5],
    [zlib], [str.upper], the iteration order of a [set]) are section
    variables, constrained only by the laws the proofs use. *)

From Stdlib.Strings Require Import Byte String Ascii.
From Stdlib Require Import ZArith List Lia Bool Permutation.
From Stdlib Require Import Sorting.Sorted.
From Stdlib Require Import QArith.
Import ListNotations.

#[local] Open Scope Z_scope.

(* ================================================================== *)
(** * Python values and exceptions *)
(* ================================================================== *)

Module Py.

(** The exceptions the modelled code can raise. *)
Inductive exn : Set :=
| UnicodeEncodeError
| UnicodeDecodeError
| StructError
| ZlibError
| ValueError
| HTTPError.

(** A computation either returns or raises. *)
Inductive outcome (A : Type) : Type :=
| Ret (a : A)
| Raise (e : exn).

Arguments Ret {A} a.
Arguments Raise {A} e.

Definition bind {A B : Type} (m : outcome A) (k : A -> outcome B) : outcome B :=
  match m with
  | Ret a => k a
  | Raise e => Raise e
  end.

(** [try: m except Exception: h] *)
Definition try_except {A : Type} (m : outcome A) (h : exn -> outcome A) : outcome A :=
  match m with
  | Ret a => Ret a
  | Raise e => h e
  end.

Definition bytes : Set := list byte.

(** A [str] is a sequence of code points. *)
Definition str : Set := list Z.

Definition len {A : Type} (l : list A) : Z := Z.of_nat (length l).

Definition byte_val (b : byte) : Z := Z.of_N (Byte.to_N b).

Definition byte_of (z : Z) : byte :=
  match Byte.of_N (Z.to_N z) with
  | Some b => b
  | None => x00
  end.

(** A [str] literal with ASCII characters only. *)
Definition lit (s : string) : str :=
  List.map (fun a => Z.of_N (N_of_ascii a)) (list_ascii_of_string s).

Fixpoint str_eqb (a b : str) : bool :=
  match a, b with
  | [], [] => true
  | x :: a', y :: b' => (x =? y) && str_eqb a' b'
  | _, _ => false
  end.

Fixpoint bytes_eqb (a b : bytes) : bool :=
  match a, b with
  | [], [] => true
  | x :: a', y :: b' => Byte.eqb x y && bytes_eqb a' b'
  | _, _ => false
  end.

(** Comparison of [str] values is lexicographic on code points. *)
Fixpoint str_leb (a b : str) : bool :=
  match a, b with
  | [], _ => true
  | _ :: _, [] => false
  | x :: a', y :: b' =>
      if x <? y then true
      else if y <? x then false
      else str_leb a' b'
  end.

Fixpoint insort (x : str) (l : list str) : list str :=
  match l with
  | [] => [x]
  | y :: r => if str_leb x y then x :: l else y :: insort x r
  end.

(** [sorted(xs)] on strings. *)
Definition sorted (l : list str) : list str := fold_right insort [] l.

(** [b[i:j]] for non-negative [i] and [j]. *)
Definition slice {A : Type} (l : list A) (i j : Z) : list A :=
  firstn (Z.to_nat (j - i)) (skipn (Z.to_nat i) l).

(** [b.ljust(n, b'\x00')] *)
Definition ljust (n : nat) (b : bytes) : bytes :=
  b ++ repeat x00 (n - length b).

(** ** [str.encode('utf-8')] and [bytes.decode('utf-8')] *)

Definition utf8_encode_char (c : Z) : outcome bytes :=
  if c <? 0 then Raise UnicodeEncodeError
  else if c <? 128 then Ret [byte_of c]
  else if c <? 2048 then
    Ret [byte_of (192 + c / 64); byte_of (128 + c mod 64)]
  else if c <? 65536 then
    if (55296 <=? c) && (c <=? 57343) then Raise UnicodeEncodeError
    else Ret [byte_of (224 + c / 4096);
              byte_of (128 + (c / 64) mod 64);
              byte_of (128 + c mod 64)]
  else if c <? 1114112 then
    Ret [byte_of (240 + c / 262144);
         byte_of (128 + (c / 4096) mod 64);
         byte_of (128 + (c / 64) mod 64);
         byte_of (128 + c mod 64)]
  else Raise UnicodeEncodeError.

Fixpoint utf8_encode (s : str) : outcome bytes :=
  match s with
  | [] => Ret []
  | c :: r =>
      bind (utf8_encode_char c) (fun b =>
      bind (utf8_encode r) (fun bs => Ret (b ++ bs)))
  end.

Definition is_cont (b : byte) : bool :=
  (128 <=? byte_val b) && (byte_val b <? 192).

Definition cont (b : byte) : Z := byte_val b - 128.

(** The strict decoder: overlong forms, surrogates and code points beyond
    U+10FFFF are rejected. *)
Fixpoint utf8_decode (b : bytes) : outcome str :=
  match b with
  | [] => Ret []
  | b0 :: r0 =>
      let v0 := byte_val b0 in
      if v0 <? 128 then
        bind (utf8_decode r0) (fun s => Ret (v0 :: s))
      else if (194 <=? v0) && (v0 <? 224) then
        match r0 with
        | b1 :: r1 =>
            if is_cont b1 then
              bind (utf8_decode r1) (fun s =>
                Ret (((v0 - 192) * 64 + cont b1) :: s))
            else Raise UnicodeDecodeError
        | _ => Raise UnicodeDecodeError
        end
      else if (224 <=? v0) && (v0 <? 240) then
        match r0 with
        | b1 :: b2 :: r2 =>
            let c := (v0 - 224) * 4096 + cont b1 * 64 + cont b2 in
            if is_cont b1 && is_cont b2 && (2048 <=? c)
               && negb ((55296 <=? c) && (c <=? 57343)) then
              bind (utf8_decode r2) (fun s => Ret (c :: s))
            else Raise UnicodeDecodeError
        | _ => Raise UnicodeDecodeError
        end
      else if (240 <=? v0) && (v0 <? 245) then
        match r0 with
        | b1 :: b2 :: b3 :: r3 =>
            let c := (v0 - 240) * 262144 + cont b1 * 4096
                     + cont b2 * 64 + cont b3 in
            if is_cont b1 && is_cont b2 && is_cont b3
               && (65536 <=? c) && (c <? 1114112) then
              bind (utf8_decode r3) (fun s => Ret (c :: s))
            else Raise UnicodeDecodeError
        | _ => Raise UnicodeDecodeError
        end
      else Raise UnicodeDecodeError
  end.

(** ** [struct] with the little-endian, unaligned prefix [<] *)

Fixpoint le_bytes (n : nat) (v : Z) : bytes :=
  match n with
  | O => []
  | S k => byte_of (v mod 256) :: le_bytes k (v / 256)
  end.

Fixpoint le_value (b : bytes) : Z :=
  match b with
  | [] => 0
  | x :: r => byte_val x + 256 * le_value r
  end.

(** [struct.pack] of one unsigned field of [n] bytes: out-of-range values
    raise [struct.error]. *)
Definition pack_uint (n : nat) (v : Z) : outcome bytes :=
  if (0 <=? v) && (v <? 256 ^ Z.of_nat n) then Ret (le_bytes n v)
  else Raise StructError.

(** [struct.unpack] of the unsigned field held in [b[i:j]]. *)
Definition unpack_uint (b : bytes) (i j : Z) : Z := le_value (slice b i j).

(** Big-endian value, as [int(hex, 16)] reads a hexadecimal digest. *)
Definition be_value (b : bytes) : Z := le_value (rev b).

(** [for i in range(n)] whose body either goes on ([None]) or leaves the
    loop with a value. *)
Fixpoint range_first {A : Type} (n : nat) (i : Z) (body : Z -> option A) : option A :=
  match n with
  | O => None
  | S k =>
      match body i with
      | Some a => Some a
      | None => range_first k (i + 1) body
      end
  end.

(** The first element of a list on which [g] gives a value. *)
Fixpoint first_some {A B : Type} (g : A -> option B) (l : list A) : option B :=
  match l with
  | [] => None
  | x :: r =>
      match g x with
      | Some b => Some b
      | None => first_some g r
      end
  end.

(** A [set] of strings, kept here in insertion order without duplicates;
    the order in which Python iterates over it is a separate matter (see
    [set_iter] below). *)
Definition set_add (s : list str) (x : str) : list str :=
  if existsb (str_eqb x) s then s else s ++ [x].

Definition set_update (s : list str) (xs : list str) : list str :=
  fold_left set_add xs s.

End Py.

Import Py.

Notation "x <- m ;; k" := (bind m (fun x => k))
  (at level 61, m at next level, right associativity).

(* ================================================================== *)
(** * The packed translation format ([services/text_packer.py]) *)
(* ================================================================== *)

Module TextPacker.

(** Constants set by [SimplifiedTextPacker.__init__]. *)
Definition version : Z := 4.
Definition HEADER_SIZE : Z := 16.
Definition TEXT_INDEX_ITEM_SIZE : Z := 20.

(** A [Dict[str, str]]: keys in insertion order. *)
Definition dict : Set := list (str * str).

(** One element of [tasks_data]; the optional entries are the ones read
    with [dict.get]. *)
Record TaskData : Set := mkTask {
  task_id : str;
  original_text : option str;
  original_translations : option dict;
  stt_text : option str;
  stt_translations : option dict
}.

(** The dictionaries appended to [lang_data[lang_code]]. *)
Record TextInfo : Set := mkInfo {
  ti_task_id_bytes : bytes;
  ti_offset : Z;
  ti_length : Z;
  ti_source_type : Z
}.

(** The state threaded through the loop over [tasks_data]. *)
Record PackState : Set := mkState {
  lang_data : list (str * list TextInfo);
  text_data_parts : list bytes;
  current_offset : Z
}.

(** The five regions of a blob, before they are concatenated. *)
Record Regions : Set := mkRegions {
  header : bytes;
  lang_table : bytes;
  lang_index_data : bytes;
  text_index_data : bytes;
  text_data : bytes
}.

(** Truth value of an optional string and of an optional dictionary. *)
Definition truthy_str (o : option str) : bool :=
  match o with
  | Some (_ :: _) => true
  | _ => false
  end.

Definition truthy_dict (o : option dict) : bool :=
  match o with
  | Some (_ :: _) => true
  | _ => false
  end.

Definition keys (o : option dict) : list str :=
  match o with
  | Some d => List.map fst d
  | None => []
  end.

Definition items (o : option dict) : dict :=
  match o with
  | Some d => d
  | None => []
  end.

(** [task_id.encode('utf-8')[:8].ljust(8, b'\x00')], written once at line
    80 (pack) and once at line 211 (query). *)
Definition pack_task_id_bytes (task_id : str) : outcome bytes :=
  b <- utf8_encode task_id ;; Ret (ljust 8 (firstn 8 b)).

Definition query_task_id_bytes (task_id : str) : outcome bytes :=
  b <- utf8_encode task_id ;; Ret (ljust 8 (firstn 8 b)).

(** [lang_data[lang_code].append(info)], creating the list on first use. *)
Fixpoint lang_data_append (d : list (str * list TextInfo)) (lang_code : str)
    (info : TextInfo) : list (str * list TextInfo) :=
  match d with
  | [] => [(lang_code, [info])]
  | (k, l) :: r =>
      if str_eqb lang_code k then (k, l ++ [info]) :: r
      else (k, l) :: lang_data_append r lang_code info
  end.

Fixpoint lang_data_get (d : list (str * list TextInfo)) (lang_code : str)
    : list TextInfo :=
  match d with
  | [] => []
  | (k, l) :: r => if str_eqb lang_code k then l else lang_data_get r lang_code
  end.

(** [struct.pack('<IIII', a, b, c, d)] *)
Definition pack_IIII (a b c d : Z) : outcome bytes :=
  x <- pack_uint 4 a ;; y <- pack_uint 4 b ;;
  z <- pack_uint 4 c ;; w <- pack_uint 4 d ;;
  Ret (x ++ y ++ z ++ w).

(** [struct.pack('<III', a, b, c)] *)
Definition pack_III (a b c : Z) : outcome bytes :=
  x <- pack_uint 4 a ;; y <- pack_uint 4 b ;; z <- pack_uint 4 c ;;
  Ret (x ++ y ++ z).

(** [struct.pack('<8sIIHH', ...)] of one text-index item. *)
Definition pack_text_info (t : TextInfo) : outcome bytes :=
  o <- pack_uint 4 (ti_offset t) ;;
  l <- pack_uint 4 (ti_length t) ;;
  s <- pack_uint 2 (ti_source_type t) ;;
  z <- pack_uint 2 0 ;;
  Ret (ljust 8 (firstn 8 (ti_task_id_bytes t)) ++ o ++ l ++ s ++ z).

(** Lines 44-50: the union of the keys of all translation maps. *)
Definition collect_languages (tasks_data : list TaskData) : list str :=
  fold_left
    (fun all_languages task_data =>
       let s1 :=
         if truthy_dict (original_translations task_data)
         then set_update all_languages (keys (original_translations task_data))
         else all_languages in
       if truthy_dict (stt_translations task_data)
       then set_update s1 (keys (stt_translations task_data))
       else s1)
    tasks_data [].

(** Lines 58-64: the language table. ([lang_offsets] is written and never
    read.) *)
Fixpoint build_lang_table (langs : list str) (lang_table : bytes)
    : outcome bytes :=
  match langs with
  | [] => Ret lang_table
  | lang_code :: r =>
      lang_bytes <- utf8_encode lang_code ;;
      n <- pack_uint 2 (len lang_bytes) ;;
      build_lang_table r (lang_table ++ n ++ ljust 6 lang_bytes)
  end.

(** Lines 133-140: the text-index items of one language. *)
Fixpoint pack_text_index (texts : list TextInfo) (text_index_data : bytes)
    (text_index_offset : Z) : outcome (bytes * Z) :=
  match texts with
  | [] => Ret (text_index_data, text_index_offset)
  | text_info :: r =>
      e <- pack_text_info text_info ;;
      pack_text_index r (text_index_data ++ e)
        (text_index_offset + TEXT_INDEX_ITEM_SIZE)
  end.

Section Packer.

(** [hashlib.md5(b).digest()] *)
Variable md5 : bytes -> bytes.

(** [zlib.compress(b, level=9)] and [zlib.decompress(b)] *)
Variable zlib_compress : bytes -> bytes.
Variable zlib_decompress : bytes -> outcome bytes.

(** [str.upper] *)
Variable upper : str -> str.

(** The order in which Python iterates over the set with these elements. *)
Variable set_iter : list str -> list str.

(** [int(hashlib.md5(text.encode('utf-8')).hexdigest()[:8], 16)]: the first
    eight hexadecimal digits are the first four bytes of the digest. *)
Definition deterministic_hash (text : str) : outcome Z :=
  b <- utf8_encode text ;;
  Ret (be_value (firstn 4 (md5 b))).

(** Lines 84-99 and 103-118: one translation of one task. *)
Definition pack_text (task_id_bytes : bytes) (source_type : Z)
    (st : PackState) (item : str * str) : outcome PackState :=
  let (lang_code, text) := item in
  text_bytes <- utf8_encode text ;;
  let compressed_text := zlib_compress text_bytes in
  Ret {| lang_data :=
           lang_data_append (lang_data st) lang_code
             {| ti_task_id_bytes := task_id_bytes;
                ti_offset := current_offset st;
                ti_length := len compressed_text;
                ti_source_type := source_type |};
         text_data_parts := text_data_parts st ++ [compressed_text];
         current_offset := current_offset st + len compressed_text |}.

Fixpoint pack_texts (task_id_bytes : bytes) (source_type : Z)
    (st : PackState) (translations : dict) : outcome PackState :=
  match translations with
  | [] => Ret st
  | item :: r =>
      st' <- pack_text task_id_bytes source_type st item ;;
      pack_texts task_id_bytes source_type st' r
  end.

(** Lines 72-118: one task. *)
Definition pack_task (st : PackState) (task_data : TaskData)
    : outcome PackState :=
  task_id_bytes <- pack_task_id_bytes (task_id task_data) ;;
  st1 <- (if truthy_str (original_text task_data)
             && truthy_dict (original_translations task_data)
          then pack_texts task_id_bytes 0 st
                 (items (original_translations task_data))
          else Ret st) ;;
  if truthy_str (stt_text task_data)
     && truthy_dict (stt_translations task_data)
  then pack_texts task_id_bytes 1 st1 (items (stt_translations task_data))
  else Ret st1.

Fixpoint pack_tasks (st : PackState) (tasks_data : list TaskData)
    : outcome PackState :=
  match tasks_data with
  | [] => Ret st
  | task_data :: r => st' <- pack_task st task_data ;; pack_tasks st' r
  end.

(** Lines 125-140: the language index and the text index. *)
Fixpoint build_index (langs : list str) (d : list (str * list TextInfo))
    (lang_index_data text_index_data : bytes) (text_index_offset : Z)
    : outcome (bytes * bytes) :=
  match langs with
  | [] => Ret (lang_index_data, text_index_data)
  | lang_code :: r =>
      let texts := lang_data_get d lang_code in
      lang_hash <- deterministic_hash lang_code ;;
      e <- pack_III lang_hash text_index_offset (len texts) ;;
      p <- pack_text_index texts text_index_data text_index_offset ;;
      build_index r d (lang_index_data ++ e) (fst p) (snd p)
  end.

(** The body of [pack_multiple_translations], up to the regions of the
    blob. *)
Definition pack_regions (tasks_data : list TaskData) : outcome Regions :=
  let all_languages := collect_languages tasks_data in
  match all_languages with
  | [] =>
      h <- pack_IIII version 0 HEADER_SIZE HEADER_SIZE ;;
      Ret {| header := h; lang_table := []; lang_index_data := [];
             text_index_data := []; text_data := [] |}
  | _ :: _ =>
      lt <- build_lang_table (sorted (set_iter all_languages)) [] ;;
      st <- pack_tasks {| lang_data := []; text_data_parts := [];
                          current_offset := 0 |} tasks_data ;;
      ix <- build_index (sorted (List.map fst (lang_data st))) (lang_data st)
              [] [] 0 ;;
      let lang_table_offset := HEADER_SIZE in
      let lang_index_offset := lang_table_offset + len lt in
      let text_index_offset := lang_index_offset + len (fst ix) in
      let text_data_offset := text_index_offset + len (snd ix) in
      h <- pack_IIII version (len all_languages) lang_index_offset
             text_data_offset ;;
      Ret {| header := h; lang_table := lt; lang_index_data := fst ix;
             text_index_data := snd ix;
             text_data := concat (text_data_parts st) |}
  end.

Definition assemble (r : Regions) : bytes :=
  header r ++ lang_table r ++ lang_index_data r ++ text_index_data r
  ++ text_data r.

(** [pack_multiple_translations]: the handler at lines 161-163 logs and
    raises the exception again. *)
Definition pack_multiple_translations (tasks_data : list TaskData)
    : outcome bytes :=
  try_except (r <- pack_regions tasks_data ;; Ret (assemble r))
    (fun e => Raise e).

(** [pack_translations]: one task, as a list of one. *)
Definition pack_translations (task_id : str) (original_text : option str)
    (original_translations : option dict) (stt_text : option str)
    (stt_translations : option dict) : outcome bytes :=
  pack_multiple_translations
    [mkTask task_id original_text original_translations stt_text
       stt_translations].

(** ** The query *)

(** Lines 197-205: the scan of the language index; on a match the loop
    is left with [(text_index_start, text_count)]. *)
Definition find_language (packed_data : bytes)
    (lang_count lang_index_offset lang_hash : Z) : option (Z * Z) :=
  range_first (Z.to_nat lang_count) 0 (fun i =>
    let pos := lang_index_offset + i * 12 in
    if pos + 12 <=? len packed_data then
      let item := slice packed_data pos (pos + 12) in
      let stored_hash := unpack_uint item 0 4 in
      let text_offset := unpack_uint item 4 8 in
      let count := unpack_uint item 8 12 in
      if stored_hash =? lang_hash
      then Some (lang_index_offset + lang_count * 12 + text_offset, count)
      else None
    else None).

(** Lines 224-238: the scan of the text index; a match whose data lies
    inside the blob leaves the function, with the text or with the
    exception of [zlib.decompress] or [decode]. *)
Definition find_text (packed_data : bytes)
    (text_index_start text_count text_data_offset : Z)
    (task_id_bytes : bytes) (source_type_code : Z) : option (outcome str) :=
  range_first (Z.to_nat text_count) 0 (fun i =>
    let pos := text_index_start + i * TEXT_INDEX_ITEM_SIZE in
    if pos + TEXT_INDEX_ITEM_SIZE <=? len packed_data then
      let item := slice packed_data pos (pos + TEXT_INDEX_ITEM_SIZE) in
      let stored_task_id := slice item 0 8 in
      let data_offset := unpack_uint item 8 12 in
      let data_length := unpack_uint item 12 16 in
      let stored_source_type := unpack_uint item 16 18 in
      if bytes_eqb stored_task_id task_id_bytes
         && (stored_source_type =? source_type_code) then
        let text_start := text_data_offset + data_offset in
        let text_end := text_start + data_length in
        if text_end <=? len packed_data then
          let compressed_data := slice packed_data text_start text_end in
          Some (decompressed_data <- zlib_decompress compressed_data ;;
                utf8_decode decompressed_data)
        else None
      else None
    else None).

(** Lines 188-189: the fields of the header. *)
Definition header_lang_count (packed_data : bytes) : Z :=
  unpack_uint (slice packed_data 0 HEADER_SIZE) 4 8.

Definition header_lang_index_offset (packed_data : bytes) : Z :=
  unpack_uint (slice packed_data 0 HEADER_SIZE) 8 12.

Definition header_text_data_offset (packed_data : bytes) : Z :=
  unpack_uint (slice packed_data 0 HEADER_SIZE) 12 16.

(** Lines 214-221: the code of a source type, [None] for an invalid one. *)
Definition source_type_code (source_type : str) : option Z :=
  let source_type_upper := upper source_type in
  if str_eqb source_type_upper (lit "TEXT") then Some 0
  else if str_eqb source_type_upper (lit "AUDIO") then Some 1
  else None.

(** Lines 184-240: what stands inside the [try]. *)
Definition query_text_body (packed_data : bytes)
    (language task_id source_type : str) : outcome (option str) :=
  if len packed_data <? HEADER_SIZE then Ret None
  else
    let lang_count := header_lang_count packed_data in
    let lang_index_offset := header_lang_index_offset packed_data in
    let text_data_offset := header_text_data_offset packed_data in
    lang_hash <- deterministic_hash language ;;
    match find_language packed_data lang_count lang_index_offset lang_hash with
    | None => Ret None
    | Some (text_index_start, text_count) =>
        task_id_bytes <- query_task_id_bytes task_id ;;
        match source_type_code source_type with
        | None => Ret None
        | Some code =>
            match find_text packed_data text_index_start text_count
                    text_data_offset task_id_bytes code with
            | Some r => s <- r ;; Ret (Some s)
            | None => Ret None
            end
        end
    end.

(** [query_text]: the handler at lines 242-244 logs and returns [None]. *)
Definition query_text (packed_data : bytes)
    (language task_id source_type : str) : outcome (option str) :=
  try_except (query_text_body packed_data language task_id source_type)
    (fun _ => Ret None).

End Packer.

(** ** A stand-in for the library functions, used to run the model *)

(** A digest that spreads the bytes of its argument over four positions. *)
Definition sample_md5 (b : bytes) : bytes :=
  le_bytes 4 (fold_left (fun h x => (h * 31 + byte_val x) mod 4294967296) b 7).

(** A stored block: one tag byte and the data itself. *)
Definition sample_compress (b : bytes) : bytes := x78 :: b.

Definition sample_decompress (b : bytes) : outcome bytes :=
  match b with
  | x78 :: r => Ret r
  | _ => Raise ZlibError
  end.

(** Upper case on the ASCII letters. *)
Definition sample_upper (s : str) : str :=
  List.map (fun c => if (97 <=? c) && (c <=? 122) then c - 32 else c) s.

Definition sample_iter (l : list str) : list str := rev l.

Definition sample_pack := pack_multiple_translations sample_md5 sample_compress sample_iter.
Definition sample_query := query_text sample_md5 sample_decompress sample_upper.

(** ** What the format is expected to hold *)

(** The sixteen bytes of a blob without languages: version 4, no language,
    both offsets at 16. *)
Definition empty_blob : bytes :=
  [x04; x00; x00; x00; x00; x00; x00; x00;
   x10; x00; x00; x00; x10; x00; x00; x00].

(** A task that carries no translation at all. *)
Definition no_translations (t : TaskData) : Prop :=
  truthy_dict (original_translations t) = false
  /\ truthy_dict (stt_translations t) = false.

(** The translations of the input, as (language, task id, source type,
    text): all those that stand in a translation map, and those that the
    loop at lines 72-118 packs. *)
Definition tag (task_id : str) (source_type : Z) (d : dict)
    : list (str * str * Z * str) :=
  List.map (fun it => (fst it, task_id, source_type, snd it)) d.

Definition input_triples (tasks_data : list TaskData)
    : list (str * str * Z * str) :=
  flat_map (fun t =>
    tag (task_id t) 0 (items (original_translations t))
    ++ tag (task_id t) 1 (items (stt_translations t))) tasks_data.

Definition packed_of_task (t : TaskData) : list (str * str * Z * str) :=
  (if truthy_str (original_text t) && truthy_dict (original_translations t)
   then tag (task_id t) 0 (items (original_translations t)) else [])
  ++ (if truthy_str (stt_text t) && truthy_dict (stt_translations t)
      then tag (task_id t) 1 (items (stt_translations t)) else []).

Definition packed_triples (tasks_data : list TaskData)
    : list (str * str * Z * str) :=
  flat_map packed_of_task tasks_data.

(** The name of a source type in a query. *)
Definition source_type_name (code : Z) : str :=
  if code =? 0 then lit "TEXT" else lit "AUDIO".

(** ** The bodies of the two scans of the query *)

(** The test of lines 200-205 on one language-index item, and the test of
    lines 227-238 on one text-index item. *)
Definition language_item (lang_index_offset lang_count lang_hash : Z)
    (item : bytes) : option (Z * Z) :=
  let stored_hash := unpack_uint item 0 4 in
  let text_offset := unpack_uint item 4 8 in
  let count := unpack_uint item 8 12 in
  if stored_hash =? lang_hash
  then Some (lang_index_offset + lang_count * 12 + text_offset, count)
  else None.

Definition text_item (zlib_decompress : bytes -> outcome bytes)
    (packed_data : bytes) (text_data_offset : Z) (task_id_bytes : bytes)
    (source_type_code : Z) (item : bytes) : option (outcome str) :=
  let stored_task_id := slice item 0 8 in
  let data_offset := unpack_uint item 8 12 in
  let data_length := unpack_uint item 12 16 in
  let stored_source_type := unpack_uint item 16 18 in
  if bytes_eqb stored_task_id task_id_bytes
     && (stored_source_type =? source_type_code) then
    let text_start := text_data_offset + data_offset in
    let text_end := text_start + data_length in
    if text_end <=? len packed_data then
      let compressed_data := slice packed_data text_start text_end in
      Some (decompressed_data <- zlib_decompress compressed_data ;;
            utf8_decode decompressed_data)
    else None
  else None.

(** ** The layout that the two index loops write *)

Section Layout.

Variable md5 : bytes -> bytes.
Variable zlib_compress : bytes -> bytes.

(** The value of the hash of a language and the bytes of a text-index
    item, where they exist. *)
Definition hash_val (lang_code : str) : Z :=
  match deterministic_hash md5 lang_code with
  | Ret h => h
  | Raise _ => 0
  end.

Definition item_val (e : TextInfo) : bytes :=
  match pack_text_info e with
  | Ret b => b
  | Raise _ => []
  end.

(** The language-index items of [langs], the first one with the relative
    offset [off]. *)
Fixpoint lang_chunks (d : list (str * list TextInfo)) (langs : list str)
    (off : Z) : list bytes :=
  match langs with
  | [] => []
  | k :: r =>
      (le_bytes 4 (hash_val k) ++ le_bytes 4 off
       ++ le_bytes 4 (len (lang_data_get d k)))
      :: lang_chunks d r (off + TEXT_INDEX_ITEM_SIZE * len (lang_data_get d k))
  end.

Definition text_chunks (d : list (str * list TextInfo)) (k : str)
    : list bytes :=
  List.map item_val (lang_data_get d k).

(** Every field written for [langs] fits its width. *)
Fixpoint chunks_ok (d : list (str * list TextInfo)) (langs : list str)
    (off : Z) : Prop :=
  match langs with
  | [] => True
  | k :: r =>
      deterministic_hash md5 k = Ret (hash_val k)
      /\ 0 <= hash_val k < 256 ^ 4
      /\ 0 <= off < 256 ^ 4
      /\ 0 <= len (lang_data_get d k) < 256 ^ 4
      /\ (forall e, In e (lang_data_get d k) ->
            pack_text_info e = Ret (item_val e))
      /\ chunks_ok d r (off + TEXT_INDEX_ITEM_SIZE * len (lang_data_get d k))
  end.

(** The relative offset of the text-index items of [lang]. *)
Fixpoint offset_of (d : list (str * list TextInfo)) (lang : str)
    (langs : list str) (off : Z) : Z :=
  match langs with
  | [] => off
  | k :: r =>
      if str_eqb lang k then off
      else offset_of d lang r
             (off + TEXT_INDEX_ITEM_SIZE * len (lang_data_get d k))
  end.

(** A text-index entry [e] stands for the translation [text] of task
    [task_id]: its key is the padded task id and its data, inside the text
    data [td], is the compressed text. *)
Definition entry_holds (td : bytes) (e : TextInfo) (task_id text : str)
    : Prop :=
  exists tb,
    pack_task_id_bytes task_id = Ret (ti_task_id_bytes e)
    /\ utf8_encode text = Ret tb
    /\ ti_length e = len (zlib_compress tb)
    /\ 0 <= ti_offset e
    /\ ti_offset e + ti_length e <= len td
    /\ slice td (ti_offset e) (ti_offset e + ti_length e) = zlib_compress tb.

(** The invariant of the loop over the tasks, after the translations [trs]
    have been packed. *)
Record pack_inv (trs : list (str * str * Z * str)) (st : PackState)
    : Prop := mkInv {
  inv_offset : current_offset st = len (concat (text_data_parts st));
  inv_sound :
    forall l e, In e (lang_data_get (lang_data st) l) ->
      exists tid text,
        In (l, tid, ti_source_type e, text) trs
        /\ entry_holds (concat (text_data_parts st)) e tid text;
  inv_complete :
    forall l tid c text, In (l, tid, c, text) trs ->
      exists e,
        In e (lang_data_get (lang_data st) l)
        /\ ti_source_type e = c
        /\ entry_holds (concat (text_data_parts st)) e tid text;
  inv_keys :
    forall l, In l (List.map fst (lang_data st))
              <-> lang_data_get (lang_data st) l <> [];
  inv_nodup : NoDup (List.map fst (lang_data st))
}.

End Layout.

End TextPacker.

(* ================================================================== *)
(** * The provider chain ([services/translation_service.py]) *)
(* ================================================================== *)

Module TranslationService.

(** The attributes of [config] read by [_translate_single]; [None] stands
    for an attribute that [hasattr] does not find. *)
Record Config : Set := mkConfig {
  TRANSLATION_API_KEY : str;
  GOOGLE_TRANSLATE_API_KEY : option str;
  DEEPL_API_KEY : option str
}.

(** The remote services: each request returns a translation or raises. *)
Record Services : Type := mkServices {
  openai_request : str -> str -> str -> outcome str;
  google_request : str -> str -> str -> outcome str;
  deepl_request : str -> str -> str -> outcome str;
  libre_request : str -> str -> str -> outcome str
}.

Definition truthy (s : str) : bool :=
  match s with
  | [] => false
  | _ :: _ => true
  end.

Definition configured (k : option str) : bool :=
  match k with
  | Some s => truthy s
  | None => false
  end.

Fixpoint mapping_get (m : list (str * str)) (k default : str) : str :=
  match m with
  | [] => default
  | (k', v) :: r => if str_eqb k k' then v else mapping_get r k default
  end.

Definition _convert_to_libre_code (lang_code : str) : str :=
  mapping_get
    [(lit "zh-cn", lit "zh"); (lit "zh-tw", lit "zh"); (lit "ja", lit "ja");
     (lit "ko", lit "ko"); (lit "en", lit "en"); (lit "fr", lit "fr");
     (lit "de", lit "de"); (lit "es", lit "es"); (lit "ru", lit "ru");
     (lit "it", lit "it"); (lit "pt", lit "pt"); (lit "ar", lit "ar")]
    lang_code (lit "en").

(** Line 353: the string returned by the local fallback. *)
Definition _translate_with_dict (text source_lang target_lang : str)
    : outcome str :=
  Ret (lit "[todo use another translator][Translated from " ++ source_lang
       ++ lit " to " ++ target_lang ++ lit "]: " ++ text).

(** Lines 296-328: the public endpoint, and the fallback in its handler. *)
Definition _translate_with_libre (sv : Services)
    (text source_lang target_lang : str) : outcome str :=
  try_except
    (libre_request sv text (_convert_to_libre_code source_lang)
       (_convert_to_libre_code target_lang))
    (fun _ => _translate_with_dict text source_lang target_lang).

(** Lines 103-129. *)
Definition _translate_single (cfg : Config) (sv : Services)
    (text source_lang target_lang : str) : outcome str :=
  try_except
    (if truthy (TRANSLATION_API_KEY cfg) then
       openai_request sv text source_lang target_lang
     else
       let after_deepl :=
         _translate_with_libre sv text source_lang target_lang in
       let after_google :=
         if configured (DEEPL_API_KEY cfg) then
           match deepl_request sv text source_lang target_lang with
           | Ret t => Ret t
           | Raise _ => after_deepl
           end
         else after_deepl in
       if configured (GOOGLE_TRANSLATE_API_KEY cfg) then
         match google_request sv text source_lang target_lang with
         | Ret t => Ret t
         | Raise _ => after_google
         end
       else after_google)
    (fun e => Raise e).

(** The string the specification gives for the literal fallback. *)
Definition spec_fallback (text source_lang target_lang : str) : str :=
  lit "[Translated from " ++ source_lang ++ lit " to " ++ target_lang
  ++ lit "]: " ++ text.

End TranslationService.

(* ================================================================== *)
(** * The node score ([services/node_manager.py]) *)
(* ================================================================== *)

Module NodeManager.

(** The entries of [node_info] read by [_update_node_ranking]; [None] is a
    missing key. *)
Record NodeInfo (F : Type) : Type := mkNodeInfo {
  memory_percent : option F;
  cpu_usage : option F;
  active_task_count : option Z
}.

Arguments mkNodeInfo {F} _ _ _.
Arguments memory_percent {F} _.
Arguments cpu_usage {F} _.
Arguments active_task_count {F} _.

Definition get {A : Type} (o : option A) (default : A) : A :=
  match o with
  | Some a => a
  | None => default
  end.

Section Score.

(** Python's [float], with the operations the score uses. *)
Variable F : Type.
Variable fle : F -> F -> Prop.
Variable fltb : F -> F -> bool.
Variables fadd fmul fdiv : F -> F -> F.
Variable of_int : Z -> F.

(** The literals [0.0], [0.4], [0.3], [100.0], [10.0] and [1.0]. *)
Variables f0 f0_4 f0_3 f100 f10 f1 : F.

(** [min(a, b)]: the first argument unless the second is smaller. *)
Definition fmin (a b : F) : F := if fltb b a then b else a.

(** Lines 139-155: the score written to [node_rankings]. *)
Definition node_score (node_info : NodeInfo F) : F :=
  let memory_percent := get (memory_percent node_info) f100 in
  let cpu_usage := get (cpu_usage node_info) f100 in
  let active_task_count := get (active_task_count node_info) 10 in
  let memory_weight := f0_4 in
  let cpu_weight := f0_3 in
  let task_weight := f0_3 in
  let memory_score := fdiv memory_percent f100 in
  let cpu_score := fdiv cpu_usage f100 in
  let task_score := fmin (fdiv (of_int active_task_count) f10) f1 in
  fadd (fadd (fmul memory_weight memory_score) (fmul cpu_weight cpu_score))
       (fmul task_weight task_score).

End Score.

(** The score over the rationals. *)
Definition Qltb (a b : Q) : bool :=
  match Qcompare a b with
  | Lt => true
  | _ => false
  end.

Definition node_score_Q : NodeInfo Q -> Q :=
  node_score Q Qltb Qplus Qmult Qdiv inject_Z (4 # 10) (3 # 10) (100 # 1) (10 # 1) (1 # 1).

End NodeManager.

(* ================================================================== *)
(** * The task table ([services/database_service.py]) *)
(* ================================================================== *)

Module DatabaseService.

(** [models.database.TaskStatus] *)
Inductive TaskStatus : Set :=
| PENDING
| PROCESSING
| COMPLETED
| FAILED
| CANCELLED.

(** [TaskStatus(status)]: a string that names no member raises
    [ValueError]. *)
Definition TaskStatus_of (status : str) : outcome TaskStatus :=
  if str_eqb status (lit "PENDING") then Ret PENDING
  else if str_eqb status (lit "PROCESSING") then Ret PROCESSING
  else if str_eqb status (lit "COMPLETED") then Ret COMPLETED
  else if str_eqb status (lit "FAILED") then Ret FAILED
  else if str_eqb status (lit "CANCELLED") then Ret CANCELLED
  else Raise ValueError.

(** A row of [translation_tasks]; nullable columns are options. *)
Record TranslationTask : Set := mkRow {
  id : str;
  status : TaskStatus;
  audio_file_path : option str;
  text_content : option str;
  source_language : str;
  target_languages : str;
  assigned_node_id : option str;
  created_at : Z;
  updated_at : Z;
  result_file_path : option str;
  error_message : option str;
  retry_count : Z;
  accuracy : option Q
}.

(** The columns an UPDATE of this module can set, and their values. *)
Inductive column : Set :=
| col_status
| col_updated_at
| col_accuracy
| col_text_content
| col_result_file_path
| col_error_message.

Inductive value : Set :=
| VStatus (s : TaskStatus)
| VTime (t : Z)
| VNum (a : option Q)
| VStr (s : option str).

Definition column_eqb (a b : column) : bool :=
  match a, b with
  | col_status, col_status
  | col_updated_at, col_updated_at
  | col_accuracy, col_accuracy
  | col_text_content, col_text_content
  | col_result_file_path, col_result_file_path
  | col_error_message, col_error_message => true
  | _, _ => false
  end.

(** [d[k] = v] on a dictionary in insertion order. *)
Fixpoint dict_set (d : list (column * value)) (k : column) (v : value)
    : list (column * value) :=
  match d with
  | [] => [(k, v)]
  | (k', v') :: r =>
      if column_eqb k k' then (k', v) :: r else (k', v') :: dict_set r k v
  end.

Fixpoint dict_get (d : list (column * value)) (k : column) : option value :=
  match d with
  | [] => None
  | (k', v') :: r => if column_eqb k k' then Some v' else dict_get r k
  end.

Definition truthy (o : option str) : bool :=
  match o with
  | Some (_ :: _) => true
  | _ => false
  end.

(** Lines 29-40: the dictionary handed to [.values(...)]. *)
Definition update_data (st : TaskStatus) (now : Z) (result_path : option str)
    (error_message : option str) (accuracy : option Q)
    (transcribed_text : option str) : list (column * value) :=
  let d0 := [(col_status, VStatus st); (col_updated_at, VTime now);
             (col_accuracy, VNum accuracy);
             (col_text_content, VStr transcribed_text)] in
  let d1 := if truthy result_path
            then dict_set d0 col_result_file_path (VStr result_path)
            else d0 in
  if truthy error_message
  then dict_set d1 col_error_message (VStr error_message)
  else d1.

(** One assignment of the SET clause. *)
Definition set_column (row : TranslationTask) (cv : column * value)
    : TranslationTask :=
  match cv with
  | (col_status, VStatus s) =>
      mkRow (id row) s (audio_file_path row) (text_content row)
        (source_language row) (target_languages row) (assigned_node_id row)
        (created_at row) (updated_at row) (result_file_path row)
        (error_message row) (retry_count row) (accuracy row)
  | (col_updated_at, VTime t) =>
      mkRow (id row) (status row) (audio_file_path row) (text_content row)
        (source_language row) (target_languages row) (assigned_node_id row)
        (created_at row) t (result_file_path row)
        (error_message row) (retry_count row) (accuracy row)
  | (col_accuracy, VNum a) =>
      mkRow (id row) (status row) (audio_file_path row) (text_content row)
        (source_language row) (target_languages row) (assigned_node_id row)
        (created_at row) (updated_at row) (result_file_path row)
        (error_message row) (retry_count row) a
  | (col_text_content, VStr s) =>
      mkRow (id row) (status row) (audio_file_path row) s
        (source_language row) (target_languages row) (assigned_node_id row)
        (created_at row) (updated_at row) (result_file_path row)
        (error_message row) (retry_count row) (accuracy row)
  | (col_result_file_path, VStr s) =>
      mkRow (id row) (status row) (audio_file_path row) (text_content row)
        (source_language row) (target_languages row) (assigned_node_id row)
        (created_at row) (updated_at row) s
        (error_message row) (retry_count row) (accuracy row)
  | (col_error_message, VStr s) =>
      mkRow (id row) (status row) (audio_file_path row) (text_content row)
        (source_language row) (target_languages row) (assigned_node_id row)
        (created_at row) (updated_at row) (result_file_path row)
        s (retry_count row) (accuracy row)
  | _ => row
  end.

(** [UPDATE translation_tasks SET ... WHERE id = task_id]: the table after
    the statement and the number of rows it matched. *)
Fixpoint execute_update (table : list TranslationTask) (task_id : str)
    (d : list (column * value)) : list TranslationTask * Z :=
  match table with
  | [] => ([], 0)
  | row :: r =>
      let (r', n) := execute_update r task_id d in
      if str_eqb (id row) task_id
      then (fold_left set_column d row :: r', n + 1)
      else (row :: r', n)
  end.

(** Lines 22-61: [update_task_status], on a table and at a time [now]. The
    result is the table after the commit and the returned flag. *)
Definition update_task_status (table : list TranslationTask) (now : Z)
    (task_id status : str) (result_path error_message : option str)
    (accuracy : option Q) (transcribed_text : option str)
    : outcome (list TranslationTask * bool) :=
  try_except
    (st <- TaskStatus_of status ;;
     let d := update_data st now result_path error_message accuracy
                transcribed_text in
     let (table', rowcount) := execute_update table task_id d in
     Ret (table', 0 <? rowcount))
    (fun e => Raise e).

(** The row that an update leaves behind according to the contract:
    [status], [updated_at], [accuracy] and [text_content] take the
    arguments; [result_file_path] and [error_message] take theirs only
    when it is given and not empty; nothing else moves. *)
Definition written_row (row : TranslationTask) (st : TaskStatus) (now : Z)
    (result_path error_msg : option str) (acc : option Q)
    (transcribed_text : option str) : TranslationTask :=
  mkRow (id row) st (audio_file_path row) transcribed_text
    (source_language row) (target_languages row) (assigned_node_id row)
    (created_at row) now
    (if truthy result_path then result_path else result_file_path row)
    (if truthy error_msg then error_msg else error_message row)
    (retry_count row) acc.

End DatabaseService.

(* ================================================================== *)
(** * What a blob holds, in terms of the input *)
(* ================================================================== *)

Module PackedFormat.
Import TextPacker.

(** The parts of a translation (language, task id, source type, text). *)
Definition tr_lang (tr : str * str * Z * str) : str := fst (fst (fst tr)).
Definition tr_task (tr : str * str * Z * str) : str := snd (fst (fst tr)).
Definition tr_code (tr : str * str * Z * str) : Z := snd (fst tr).
Definition tr_text (tr : str * str * Z * str) : str := snd tr.

(** The key of a translation is the eight bytes [key]. *)
Definition key_is (key : bytes) (tr : str * str * Z * str) : bool :=
  match pack_task_id_bytes (tr_task tr) with
  | Ret k => bytes_eqb k key
  | Raise _ => false
  end.

(** The tests of a query on a translation: the language, then the two
    tests of line 230. *)
Definition matches (lang : str) (key : bytes) (code : Z)
    (tr : str * str * Z * str) : bool :=
  str_eqb (tr_lang tr) lang && (key_is key tr && (tr_code tr =? code)).

(** The first translation of [trs] that a query for [language], [task_id]
    and [source_type] matches. *)
Definition lookup_packed (upper : str -> str)
    (trs : list (str * str * Z * str)) (language task_id source_type : str)
    : option str :=
  match query_task_id_bytes task_id, source_type_code upper source_type with
  | Ret key, Some code =>
      option_map tr_text (find (matches language key code) trs)
  | _, _ => None
  end.

(** The bytes of a string that can be encoded. *)
Definition enc_val (s : str) : bytes :=
  match utf8_encode s with
  | Ret b => b
  | Raise _ => []
  end.

(** One entry of the language table (line 63). *)
Definition lang_entry (lang_code : str) : bytes :=
  le_bytes 2 (len (enc_val lang_code)) ++ ljust 6 (enc_val lang_code).

(** The languages of a list of translations, each once. *)
Definition languages_of (trs : list (str * str * Z * str)) : list str :=
  set_update [] (List.map tr_lang trs).

Section Order.

Variable zlib_compress : bytes -> bytes.

(** The compressed texts, in the order of the translations. *)
Definition compressed_texts (trs : list (str * str * Z * str)) : list bytes :=
  List.map (fun tr => zlib_compress (enc_val (tr_text tr))) trs.

Definition entry_of (td : bytes) (e : TextInfo) (tr : str * str * Z * str)
    : Prop :=
  ti_source_type e = tr_code tr
  /\ entry_holds zlib_compress td e (tr_task tr) (tr_text tr).

(** The loop over the tasks keeps the entries of every language in the
    order of the translations, and the data parts in the same order. *)
Record pack_ord (trs : list (str * str * Z * str)) (st : PackState)
    : Prop := mkOrd {
  ord_offset : current_offset st = len (concat (text_data_parts st));
  ord_entries :
    forall l,
      Forall2 (entry_of (concat (text_data_parts st)))
        (lang_data_get (lang_data st) l)
        (filter (fun tr => str_eqb (tr_lang tr) l) trs);
  ord_parts : text_data_parts st = compressed_texts trs
}.

End Order.

(** A code point that [str.encode('utf-8')] accepts: a Unicode scalar
    value. *)
Definition is_scalar (c : Z) : bool :=
  (0 <=? c) && (c <? 1114112) && negb ((55296 <=? c) && (c <=? 57343)).

Definition encodable (s : str) : bool := forallb is_scalar s.

(** The size of the blob that the translations of [tasks_data] need. *)
Definition blob_size (zlib_compress : bytes -> bytes)
    (tasks_data : list TaskData) : Z :=
  HEADER_SIZE
  + len (concat (List.map lang_entry (sorted (collect_languages tasks_data))))
  + 12 * len (languages_of (packed_triples tasks_data))
  + TEXT_INDEX_ITEM_SIZE * len (packed_triples tasks_data)
  + len (concat (compressed_texts zlib_compress (packed_triples tasks_data))).

End PackedFormat.

(* ================================================================== *)
(** * More of the task table ([services/database_service.py]) *)
(* ================================================================== *)

Module DatabaseOps.
Import DatabaseService.

(** [status.value]: the string of a member of [TaskStatus]. *)
Definition TaskStatus_value (s : TaskStatus) : str :=
  match s with
  | PENDING => lit "PENDING"
  | PROCESSING => lit "PROCESSING"
  | COMPLETED => lit "COMPLETED"
  | FAILED => lit "FAILED"
  | CANCELLED => lit "CANCELLED"
  end.

(** [UPDATE translation_tasks SET ... WHERE id = task_id], the SET clause
    being evaluated on the row as it was: the table after the statement and
    the number of rows it matched. *)
Fixpoint update_where (table : list TranslationTask) (task_id : str)
    (set : TranslationTask -> TranslationTask) : list TranslationTask * Z :=
  match table with
  | [] => ([], 0)
  | row :: r =>
      let (r', n) := update_where r task_id set in
      if str_eqb (id row) task_id
      then (set row :: r', n + 1)
      else (row :: r', n)
  end.

(** Lines 99-102: [.values(assigned_node_id=node_id, updated_at=now)]. *)
Definition assigned_values (node_id : str) (now : Z) (row : TranslationTask)
    : TranslationTask :=
  mkRow (id row) (status row) (audio_file_path row) (text_content row)
    (source_language row) (target_languages row) (Some node_id)
    (created_at row) now (result_file_path row) (error_message row)
    (retry_count row) (accuracy row).

(** Lines 92-117: [update_task_assigned_node]. *)
Definition update_task_assigned_node (table : list TranslationTask) (now : Z)
    (task_id node_id : str) : outcome (list TranslationTask * bool) :=
  try_except
    (let (table', rowcount) :=
       update_where table task_id (assigned_values node_id now) in
     Ret (table', 0 <? rowcount))
    (fun e => Raise e).

(** Lines 126-129:
    [.values(retry_count=TranslationTask.retry_count + 1, updated_at=now)]. *)
Definition retry_values (now : Z) (row : TranslationTask) : TranslationTask :=
  mkRow (id row) (status row) (audio_file_path row) (text_content row)
    (source_language row) (target_languages row) (assigned_node_id row)
    (created_at row) now (result_file_path row) (error_message row)
    (retry_count row + 1) (accuracy row).

(** Lines 119-139: [increment_retry_count]. *)
Definition increment_retry_count (table : list TranslationTask) (now : Z)
    (task_id : str) : outcome (list TranslationTask * bool) :=
  try_except
    (let (table', rowcount) := update_where table task_id (retry_values now) in
     Ret (table', 0 <? rowcount))
    (fun e => Raise e).

(** The dictionary returned by [get_task_details] (lines 72-85); it has no
    entry for [accuracy]. *)
Record TaskDetails : Set := mkDetails {
  d_id : str;
  d_status : str;
  d_audio_file_path : option str;
  d_text_content : option str;
  d_source_language : str;
  d_target_languages : str;
  d_assigned_node_id : option str;
  d_created_at : Z;
  d_updated_at : Z;
  d_result_file_path : option str;
  d_error_message : option str;
  d_retry_count : Z
}.

Definition details (task : TranslationTask) : TaskDetails :=
  mkDetails (id task) (TaskStatus_value (status task)) (audio_file_path task)
    (text_content task) (source_language task) (target_languages task)
    (assigned_node_id task) (created_at task) (updated_at task)
    (result_file_path task) (error_message task) (retry_count task).

(** [result.scalar_one_or_none()]: the row, none, or the exception
    [MultipleResultsFound]. *)
Inductive scalar_result : Set :=
| NoRow
| OneRow (task : TranslationTask)
| MultipleResultsFound.

Definition scalar_one_or_none (rows : list TranslationTask) : scalar_result :=
  match rows with
  | [] => NoRow
  | [task] => OneRow task
  | _ :: _ :: _ => MultipleResultsFound
  end.

(** [select(TranslationTask).where(TranslationTask.id == task_id)] *)
Definition select_where (table : list TranslationTask) (task_id : str)
    : list TranslationTask :=
  filter (fun row => str_eqb (id row) task_id) table.

(** Lines 63-90: [get_task_details]; the handler at lines 88-90 turns an
    exception into [None]. *)
Definition get_task_details (table : list TranslationTask) (task_id : str)
    : option TaskDetails :=
  match scalar_one_or_none (select_where table task_id) with
  | OneRow task => Some (details task)
  | NoRow => None
  | MultipleResultsFound => None
  end.

(** How the three updates show in [get_task_details]. *)
Definition details_after_status (d : TaskDetails) (status : str) (now : Z)
    (rp em tt : option str) : TaskDetails :=
  mkDetails (d_id d) status (d_audio_file_path d) tt (d_source_language d)
    (d_target_languages d) (d_assigned_node_id d) (d_created_at d) now
    (if truthy rp then rp else d_result_file_path d)
    (if truthy em then em else d_error_message d) (d_retry_count d).

Definition details_after_assign (d : TaskDetails) (node_id : str) (now : Z)
    : TaskDetails :=
  mkDetails (d_id d) (d_status d) (d_audio_file_path d) (d_text_content d)
    (d_source_language d) (d_target_languages d) (Some node_id)
    (d_created_at d) now (d_result_file_path d) (d_error_message d)
    (d_retry_count d).

Definition details_after_retry (d : TaskDetails) (now : Z) : TaskDetails :=
  mkDetails (d_id d) (d_status d) (d_audio_file_path d) (d_text_content d)
    (d_source_language d) (d_target_languages d) (d_assigned_node_id d)
    (d_created_at d) now (d_result_file_path d) (d_error_message d)
    (d_retry_count d + 1).

End DatabaseOps.

(* ================================================================== *)
(** * Tasks on a node ([services/node_manager.py]) *)
(* ================================================================== *)

Module NodeTasks.

(** What the methods below read and write: two settings of [config], two
    entries of [node_info], and the set [cancelled_tasks]. *)
Record Node : Set := mkNode {
  NODE_ID : str;
  MAX_CONCURRENT_TASKS : Z;
  status : str;
  active_task_count : Z;
  cancelled_tasks : list str
}.

(** The node, the task table, and the Redis list [task_queue:NODE_ID]; the
    head of the list is its right end, where [BRPOP] takes. *)
Record World : Set := mkWorld {
  node : Node;
  table : list DatabaseService.TranslationTask;
  task_queue : list str
}.

Definition with_count (n : Node) (c : Z) : Node :=
  mkNode (NODE_ID n) (MAX_CONCURRENT_TASKS n) (status n) c (cancelled_tasks n).

Definition with_cancelled (n : Node) (s : list str) : Node :=
  mkNode (NODE_ID n) (MAX_CONCURRENT_TASKS n) (status n) (active_task_count n) s.

(** [x in [a, b, ...]] on strings. *)
Definition str_in (x : str) (l : list str) : bool := existsb (str_eqb x) l.

(** [redis_client.brpop(queue_key, timeout=1)]: the element at the right
    end, [None] when the list stays empty. *)
Definition brpop (q : list str) : option str * list str :=
  match q with
  | [] => (None, [])
  | x :: r => (Some x, r)
  end.

(** Lines 233-243: [assign_task_to_node]. *)
Definition assign_task_to_node (w : World) (now : Z) (task_id : str)
    : World * bool :=
  match DatabaseOps.update_task_assigned_node (table w) now task_id
          (NODE_ID (node w)) with
  | Ret (table', success) =>
      (mkWorld (if success
                then with_count (node w) (active_task_count (node w) + 1)
                else node w)
         table' (task_queue w), success)
  | Raise _ => (w, false)
  end.

Section Tasks.

(** A task as [json.loads] returns it, and [task.get('taskId')]: a string,
    or [None] for a task without the entry. *)
Variable Task : Type.
Variable json_loads : str -> outcome Task.
Variable taskId : Task -> option str.

(** Lines 197-231: [get_task]. *)
Definition get_task (w : World) (now : Z) : World * option Task :=
  if str_in (status (node w)) [lit "SHUTTING_DOWN"; lit "OFFLINE"]
  then (w, None)
  else if MAX_CONCURRENT_TASKS (node w) <=? active_task_count (node w)
  then (w, None)
  else
    match brpop (task_queue w) with
    | (Some task_json, q) =>
        let w1 := mkWorld (node w) (table w) q in
        match json_loads task_json with
        | Ret task =>
            match taskId task with
            | Some ((_ :: _) as task_id) =>
                let (w2, success) := assign_task_to_node w1 now task_id in
                if success then (w2, Some task) else (w2, None)
            | _ => (w1, None)
            end
        | Raise _ => (w1, None)
        end
    | (None, q) => (mkWorld (node w) (table w) q, None)
    end.

End Tasks.

(** Lines 245-266: [update_task_status]. *)
Definition update_task_status (w : World) (now : Z) (task_id status : str)
    (result_path error_message : option str) (accuracy : option Q)
    (transcribed_text : option str) : outcome World :=
  try_except
    (r <- DatabaseService.update_task_status (table w) now task_id status
            result_path error_message accuracy transcribed_text ;;
     let (table', success) := r in
     if success then
       if str_in status [lit "COMPLETED"; lit "FAILED"; lit "CANCELLED"] then
         if 0 <? active_task_count (node w)
         then Ret (mkWorld (with_count (node w) (active_task_count (node w) - 1))
                     table' (task_queue w))
         else Ret (mkWorld (node w) table' (task_queue w))
       else Ret (mkWorld (node w) table' (task_queue w))
     else Ret (mkWorld (node w) table' (task_queue w)))
    (fun e => Raise e).

(** Lines 340-354: [handle_task_cancellation]; its handler logs. *)
Definition handle_task_cancellation (w : World) (now : Z) (task_id : str)
    : World :=
  let w1 := mkWorld (with_cancelled (node w)
                       (set_add (cancelled_tasks (node w)) task_id))
              (table w) (task_queue w) in
  match update_task_status w1 now task_id (lit "CANCELLED") None None None None
  with
  | Ret w2 => w2
  | Raise _ => w1
  end.

(** The node takes tasks: it is neither shutting down nor offline. *)
Definition accepting (n : Node) : bool :=
  negb (str_in (status n) [lit "SHUTTING_DOWN"; lit "OFFLINE"]).

(** A row of the table has this id. *)
Definition known (tbl : list DatabaseService.TranslationTask) (task_id : str)
    : bool :=
  existsb (fun row => str_eqb (DatabaseService.id row) task_id) tbl.

(** The bounds of the counter of running tasks. *)
Definition count_in_bounds (w : World) : Prop :=
  0 <= active_task_count (node w) <= MAX_CONCURRENT_TASKS (node w).

(** The node apart from its counter. *)
Definition same_settings (n n' : Node) : Prop :=
  NODE_ID n' = NODE_ID n
  /\ MAX_CONCURRENT_TASKS n' = MAX_CONCURRENT_TASKS n
  /\ status n' = status n
  /\ cancelled_tasks n' = cancelled_tasks n.

(** A node with room for three tasks, one of them running, and two
    queued tasks; a task is represented by its id. *)
Definition sample_world : World :=
  mkWorld (mkNode (lit "whisper-node-1") 3 (lit "ONLINE") 1 [])
    [DatabaseService.mkRow (lit "T1") DatabaseService.PENDING None
       (Some (lit "Hello world")) (lit "en") (lit "ja") None 0 0 None None 0
       None;
     DatabaseService.mkRow (lit "T2") DatabaseService.PROCESSING None
       (Some (lit "Good morning")) (lit "en") (lit "fr")
       (Some (lit "whisper-node-1")) 0 0 None None 0 None]
    [lit "T1"; lit "T9"].

Definition sample_loads (task_json : str) : outcome str := Ret task_json.

Definition sample_taskId (task : str) : option str := Some task.

End NodeTasks.

(* ================================================================== *)
(** * More of the translation service
      ([services/translation_service.py]) *)
(* ================================================================== *)

Module TranslationText.
Import TranslationService.

(** [self.language_mapping], set by [__init__] (lines 19-32). *)
Definition language_mapping : list (str * str) :=
  [(lit "en", lit "English"); (lit "zh-cn", lit "Simplified Chinese");
   (lit "zh-tw", lit "Traditional Chinese"); (lit "ja", lit "Japanese");
   (lit "ko", lit "Korean"); (lit "fr", lit "French");
   (lit "de", lit "German"); (lit "es", lit "Spanish");
   (lit "ru", lit "Russian"); (lit "it", lit "Italian");
   (lit "pt", lit "Portuguese"); (lit "ar", lit "Arabic")].

(** The tables of lines 207-230, 235-258, 332-345 and 444-483. *)
Definition google_codes : list (str * str) :=
  [(lit "zh-cn", lit "zh-cn"); (lit "zh-tw", lit "zh-tw");
   (lit "ja", lit "ja"); (lit "ko", lit "ko"); (lit "en", lit "en");
   (lit "fr", lit "fr"); (lit "de", lit "de"); (lit "es", lit "es");
   (lit "ru", lit "ru"); (lit "it", lit "it"); (lit "pt", lit "pt");
   (lit "ar", lit "ar"); (lit "hi", lit "hi"); (lit "th", lit "th");
   (lit "vi", lit "vi"); (lit "tr", lit "tr"); (lit "pl", lit "pl");
   (lit "nl", lit "nl"); (lit "sv", lit "sv"); (lit "da", lit "da");
   (lit "no", lit "no"); (lit "fi", lit "fi")].

Definition bing_codes : list (str * str) :=
  [(lit "zh-cn", lit "zh-Hans"); (lit "zh-tw", lit "zh-Hant");
   (lit "ja", lit "ja"); (lit "ko", lit "ko"); (lit "en", lit "en");
   (lit "fr", lit "fr"); (lit "de", lit "de"); (lit "es", lit "es");
   (lit "ru", lit "ru"); (lit "it", lit "it"); (lit "pt", lit "pt");
   (lit "ar", lit "ar"); (lit "hi", lit "hi"); (lit "th", lit "th");
   (lit "vi", lit "vi"); (lit "tr", lit "tr"); (lit "pl", lit "pl");
   (lit "nl", lit "nl"); (lit "sv", lit "sv"); (lit "da", lit "da");
   (lit "nb", lit "nb"); (lit "fi", lit "fi")].

Definition libre_codes : list (str * str) :=
  [(lit "zh-cn", lit "zh"); (lit "zh-tw", lit "zh"); (lit "ja", lit "ja");
   (lit "ko", lit "ko"); (lit "en", lit "en"); (lit "fr", lit "fr");
   (lit "de", lit "de"); (lit "es", lit "es"); (lit "ru", lit "ru");
   (lit "it", lit "it"); (lit "pt", lit "pt"); (lit "ar", lit "ar")].

Definition deepl_codes : list (str * str) :=
  [(lit "zh-cn", lit "ZH-HANS"); (lit "zh-tw", lit "ZH-HANT");
   (lit "ja", lit "JA"); (lit "ko", lit "KO"); (lit "en", lit "EN");
   (lit "en-gb", lit "EN"); (lit "en-us", lit "EN"); (lit "fr", lit "FR");
   (lit "de", lit "DE"); (lit "es", lit "ES"); (lit "ru", lit "RU");
   (lit "it", lit "IT"); (lit "pt", lit "PT"); (lit "pt-br", lit "PT");
   (lit "pt-pt", lit "PT"); (lit "ar", lit "AR"); (lit "th", lit "TH");
   (lit "vi", lit "VI"); (lit "tr", lit "TR"); (lit "pl", lit "PL");
   (lit "nl", lit "NL"); (lit "sv", lit "SV"); (lit "da", lit "DA");
   (lit "no", lit "NB"); (lit "fi", lit "FI"); (lit "bg", lit "BG");
   (lit "cs", lit "CS"); (lit "el", lit "EL"); (lit "et", lit "ET");
   (lit "he", lit "HE"); (lit "hu", lit "HU"); (lit "id", lit "ID");
   (lit "lt", lit "LT"); (lit "lv", lit "LV"); (lit "ro", lit "RO");
   (lit "sk", lit "SK"); (lit "sl", lit "SL"); (lit "uk", lit "UK")].

(** [mapping.get(lang_code, default)] on each of them. *)
Definition _convert_to_google_code (lang_code : str) : str :=
  mapping_get google_codes lang_code (lit "en").

Definition _convert_to_bing_code (lang_code : str) : str :=
  mapping_get bing_codes lang_code (lit "en").

Definition _convert_to_deepl_code (lang_code : str) : str :=
  mapping_get deepl_codes lang_code (lit "EN").

(** A key of a table. *)
Definition has_key (m : list (str * str)) (k : str) : bool :=
  existsb (fun kv => str_eqb k (fst kv)) m.

(** ** [detect_language] *)

Definition in_range (lo hi c : Z) : bool := (lo <=? c) && (c <=? hi).

(** [re.search(r'[lo-hi]', text)] as a truth value. *)
Definition search_range (lo hi : Z) (text : str) : bool :=
  existsb (in_range lo hi) text.

(** The two sets of lines 365-368, as the code points of their literals. *)
Definition simplified_chars : list Z :=
  [30340; 20102; 22312; 26159; 25105; 26377; 20010; 36825; 20320; 20204;
   26469; 21040; 26102; 22823; 22320; 20026; 19978; 23601; 19968; 21435;
   36947; 20986; 32780; 35201; 20250; 24180; 29983; 21487; 20197; 36824;
   20154; 24471; 20043; 21518; 33258; 24049; 22238; 20107; 22909; 21482;
   37027; 20123; 30693; 36947; 23601; 35201; 36825; 26679].

Definition traditional_chars : list Z :=
  [30340; 20102; 22312; 26159; 25105; 26377; 20491; 36889; 20320; 20497;
   20358; 21040; 26178; 22823; 22320; 28858; 19978; 23601; 19968; 21435;
   36947; 20986; 32780; 35201; 26371; 24180; 29983; 21487; 20197; 36996;
   20154; 24471; 20043; 24460; 33258; 24049; 22238; 20107; 22909; 21482;
   37027; 20123; 30693; 36947; 23601; 35201; 36889; 27171].

(** [char in chars] *)
Definition char_in (chars : list Z) (char : Z) : bool :=
  existsb (Z.eqb char) chars.

(** [sum(1 for char in text if char in chars)] *)
Definition count_chars (chars : list Z) (text : str) : Z :=
  len (filter (char_in chars) text).

(** Lines 355-396. *)
Definition detect_language (text : str) : str :=
  if search_range 19968 40959 text then
    let simplified_count := count_chars simplified_chars text in
    let traditional_count := count_chars traditional_chars text in
    if traditional_count <=? simplified_count
    then lit "zh-cn" else lit "zh-tw"
  else if search_range 12352 12447 text || search_range 12448 12543 text
  then lit "ja"
  else if search_range 44032 55215 text then lit "ko"
  else if search_range 1536 1791 text then lit "ar"
  else if search_range 1024 1279 text then lit "ru"
  else lit "en".

(** The characters that tell the two scripts apart: those of one set that
    are not in the other. *)
Definition simplified_only : list Z :=
  [20010; 36825; 20204; 26469; 26102; 20026; 20250; 36824; 21518; 26679].

Definition traditional_only : list Z :=
  [20491; 36889; 20497; 20358; 26178; 28858; 26371; 36996; 24460; 27171].

(** ** [translate_text] *)

(** [d[k] = v] on a dictionary of strings, in insertion order. *)
Fixpoint sdict_set (d : list (str * str)) (k v : str) : list (str * str) :=
  match d with
  | [] => [(k, v)]
  | (k', v') :: r =>
      if str_eqb k k' then (k', v) :: r else (k', v') :: sdict_set r k v
  end.

Fixpoint sdict_get (d : list (str * str)) (k : str) : option str :=
  match d with
  | [] => None
  | (k', v') :: r => if str_eqb k k' then Some v' else sdict_get r k
  end.

(** The test of lines 51, 73 and 98:
    [cancelled_tasks_set and task_id and task_id in cancelled_tasks_set]. *)
Definition is_cancelled (cancelled_tasks_set : option (list str))
    (task_id : option str) : bool :=
  match cancelled_tasks_set, task_id with
  | Some (x :: s), Some (c :: t) => existsb (str_eqb (c :: t)) (x :: s)
  | _, _ => false
  end.

(** What [asyncio.gather(..., return_exceptions=True)] holds for one
    coroutine: its value, the [Exception] it raised, or
    [asyncio.CancelledError]. *)
Inductive gathered : Set :=
| Value (s : str)
| Error (e : exn)
| Cancelled.

(** [translate_text] returns the dictionary or raises
    [asyncio.CancelledError]. *)
Inductive translated : Set :=
| Translations (d : list (str * str))
| CancelledError.

Section Translate.

Variable cfg : Config.
Variable sv : Services.

(** [str(e)] for an exception. *)
Variable str_of_exn : exn -> str.

(** Lines 91-101. *)
Definition _translate_single_with_cancellation (text source_lang
    target_lang : str) (task_id : option str)
    (cancelled_tasks_set : option (list str)) : gathered :=
  if is_cancelled cancelled_tasks_set task_id then Cancelled
  else match _translate_single cfg sv text source_lang target_lang with
       | Ret s => Value s
       | Raise e => Error e
       end.

(** Lines 77-85: the loop over the results. A result that is an
    [asyncio.CancelledError] is raised again by line 81 ([None] here); this
    is the reading of the source, for an interpreter in which
    [CancelledError] is an [Exception]. The case needs a coroutine that
    found its task cancelled after the test of line 51 had passed, so it
    does not arise while the set of cancelled tasks stays as it is. *)
Fixpoint collect_results (tasks : list (str * gathered))
    (translations : list (str * str)) : option (list (str * str)) :=
  match tasks with
  | [] => Some translations
  | (target_lang, result) :: r =>
      match result with
      | Cancelled => None
      | Error e =>
          collect_results r
            (sdict_set translations target_lang
               (lit "[Translation Error: " ++ str_of_exn e ++ lit "]"))
      | Value s => collect_results r (sdict_set translations target_lang s)
      end
  end.

(** Lines 43-89, with a set of cancelled tasks that does not change during
    the call. *)
Definition translate_text (text source_lang : str)
    (target_languages : list str) (task_id : option str)
    (cancelled_tasks_set : option (list str)) : translated :=
  if is_cancelled cancelled_tasks_set task_id then CancelledError
  else
    let tasks :=
      List.map
        (fun target_lang =>
           (target_lang,
            _translate_single_with_cancellation text source_lang target_lang
              task_id cancelled_tasks_set))
        (filter (fun target_lang => negb (str_eqb target_lang source_lang))
           target_languages) in
    if is_cancelled cancelled_tasks_set task_id then CancelledError
    else
      match collect_results tasks [] with
      | Some translations =>
          Translations (sdict_set translations source_lang text)
      | None => CancelledError
      end.

(** The entry of a target language in the result: the translation, or the
    message of lines 82-83. *)
Definition target_entry (text source_lang target_lang : str) : str :=
  match _translate_single cfg sv text source_lang target_lang with
  | Ret s => s
  | Raise e => lit "[Translation Error: " ++ str_of_exn e ++ lit "]"
  end.

End Translate.

End TranslationText.

(* ================================================================== *)
(** * Properties of the provider chain *)
(* ================================================================== *)

Module TranslationFacts.
Import TranslationService.

(** A configuration without any key, and services that are all down. *)
Definition no_keys : Config := mkConfig [] (Some []) (Some []).

Definition all_down : Services :=
  mkServices (fun _ _ _ => Raise HTTPError) (fun _ _ _ => Raise HTTPError)
    (fun _ _ _ => Raise HTTPError) (fun _ _ _ => Raise HTTPError).

Lemma translate_with_libre_failure (sv : Services) (text src tgt : str) (e : exn) :
  libre_request sv text (_convert_to_libre_code src) (_convert_to_libre_code tgt)
    = Raise e ->
  _translate_with_libre sv text src tgt = _translate_with_dict text src tgt.
Proof.
  intros H. unfold _translate_with_libre. rewrite H. reflexivity.
Qed.

(** C3, as the code has it: with no provider key configured and a failing
    public endpoint, the translation returned for a target language is the
    literal of [_translate_with_dict], which starts with the marker
    "[todo use another translator]" before "[Translated from {src} to
    {tgt}]: {text}". *)
Theorem fallback_literal (cfg : Config) (sv : Services) (text src tgt : str) (e : exn) :
  truthy (TRANSLATION_API_KEY cfg) = false ->
  configured (GOOGLE_TRANSLATE_API_KEY cfg) = false ->
  configured (DEEPL_API_KEY cfg) = false ->
  libre_request sv text (_convert_to_libre_code src) (_convert_to_libre_code tgt)
    = Raise e ->
  _translate_single cfg sv text src tgt
    = Ret (lit "[todo use another translator]"
           ++ spec_fallback text src tgt).
Proof.
  intros Hk Hg Hd Hl. unfold _translate_single.
  rewrite Hk, Hg, Hd.
  rewrite (translate_with_libre_failure _ _ _ _ _ Hl).
  reflexivity.
Qed.

Lemma fallback_literal_witness :
  _translate_single no_keys all_down (lit "Hello world") (lit "en") (lit "ja")
    = Ret (lit "[todo use another translator][Translated from en to ja]: Hello world").
Proof.
  exact (fallback_literal no_keys all_down (lit "Hello world") (lit "en")
           (lit "ja") HTTPError eq_refl eq_refl eq_refl eq_refl).
Defined.

(** C3, as the specification words it, fails: the string returned at the
    end of the chain is not "[Translated from en to ja]: Hello world". *)
Lemma fallback_literal_differs :
  _translate_single no_keys all_down (lit "Hello world") (lit "en") (lit "ja")
    <> Ret (spec_fallback (lit "Hello world") (lit "en") (lit "ja")).
Proof.
  vm_compute. intros H. discriminate H.
Qed.

End TranslationFacts.

(* ================================================================== *)
(** * Properties of the node score *)
(* ================================================================== *)

Module NodeManagerFacts.
Import NodeManager.

Section ScoreLaws.

Variable F : Type.
Variable fle : F -> F -> Prop.
Variable fltb : F -> F -> bool.
Variables fadd fmul fdiv : F -> F -> F.
Variable of_int : Z -> F.
Variables f0 f0_4 f0_3 f100 f10 f1 : F.

(** The order is total, and [fltb] decides its strict part. *)
Hypothesis fle_refl : forall a, fle a a.
Hypothesis fle_trans : forall a b c, fle a b -> fle b c -> fle a c.
Hypothesis fltb_true : forall a b, fltb a b = true -> fle a b /\ ~ fle b a.
Hypothesis fltb_false : forall a b, fltb a b = false -> fle b a.

(** Rounded or exact, each operation preserves the order. *)
Hypothesis fadd_mono :
  forall a b c d, fle a b -> fle c d -> fle (fadd a c) (fadd b d).
Hypothesis fmul_mono :
  forall w a b, fle f0 w -> fle a b -> fle (fmul w a) (fmul w b).
Hypothesis fdiv_mono :
  forall a b d, fle f0 d -> ~ fle d f0 -> fle a b -> fle (fdiv a d) (fdiv b d).
Hypothesis of_int_mono :
  forall a b, a <= b -> fle (of_int a) (of_int b).

(** The literals. *)
Hypothesis f0_4_pos : fle f0 f0_4.
Hypothesis f0_3_pos : fle f0 f0_3.
Hypothesis f100_pos : fle f0 f100 /\ ~ fle f100 f0.
Hypothesis f10_pos : fle f0 f10 /\ ~ fle f10 f0.

#[local] Abbreviation fmin' := (fmin F fltb).

Lemma fmin_mono_l (a b c : F) : fle a b -> fle (fmin' a c) (fmin' b c).
Proof.
  intros Hab. unfold fmin.
  destruct (fltb c a) eqn:Ea; destruct (fltb c b) eqn:Eb.
  - apply fle_refl.
  - apply fltb_true in Ea. destruct Ea as [Hca _].
    exact (fle_trans _ _ _ Hca Hab).
  - apply fltb_false in Ea. exact Ea.
  - exact Hab.
Qed.

Lemma task_score_mono (a a' : Z) :
  a <= a' ->
  fle (fmin' (fdiv (of_int a) f10) f1) (fmin' (fdiv (of_int a') f10) f1).
Proof.
  intros H. apply fmin_mono_l.
  destruct f10_pos as [Hp Hn].
  apply fdiv_mono; [exact Hp | exact Hn | apply of_int_mono; exact H].
Qed.


End ScoreLaws.

(** The rationals satisfy the laws. *)
Lemma Qltb_true (a b : Q) : Qltb a b = true -> (a <= b)%Q /\ ~ (b <= a)%Q.
Proof.
  unfold Qltb. destruct (Qcompare a b) eqn:E; try discriminate.
  intros _. apply Qlt_alt in E. split.
  - apply Qlt_le_weak. exact E.
  - apply Qlt_not_le. exact E.
Qed.

Lemma Qltb_false (a b : Q) : Qltb a b = false -> (b <= a)%Q.
Proof.
  unfold Qltb. destruct (Qcompare a b) eqn:E; try discriminate; intros _.
  - apply Qeq_alt in E. rewrite E. apply Qle_refl.
  - apply Qgt_alt in E. apply Qlt_le_weak. exact E.
Qed.

Lemma Qdiv_mono (a b d : Q) :
  (0 <= d)%Q -> ~ (d <= 0)%Q -> (a <= b)%Q -> (a / d <= b / d)%Q.
Proof.
  intros _ Hd Hab. apply Qnot_le_lt in Hd.
  unfold Qdiv. apply Qmult_le_compat_r; [exact Hab |].
  apply Qlt_le_weak. apply Qinv_lt_0_compat. exact Hd.
Qed.

Lemma Qmult_mono (w a b : Q) :
  (0 <= w)%Q -> (a <= b)%Q -> (w * a <= w * b)%Q.
Proof.
  intros Hw Hab. rewrite (Qmult_comm w a), (Qmult_comm w b).
  apply Qmult_le_compat_r; assumption.
Qed.

Lemma inject_Z_mono (a b : Z) : a <= b -> (inject_Z a <= inject_Z b)%Q.
Proof. intros H. rewrite <- Zle_Qle. exact H. Qed.

Lemma Q_pos (q : Q) : (0 < q)%Q -> (0 <= q)%Q /\ ~ (q <= 0)%Q.
Proof.
  intros H. split; [apply Qlt_le_weak; exact H | apply Qlt_not_le; exact H].
Qed.


End NodeManagerFacts.

(* ================================================================== *)
(** * Properties of the task table *)
(* ================================================================== *)

Module DatabaseFacts.
Import DatabaseService.

Lemma set_columns_written (row : TranslationTask) (st : TaskStatus) (now : Z)
    (rp em : option str) (acc : option Q) (tt : option str) :
  fold_left set_column (update_data st now rp em acc tt) row
  = written_row row st now rp em acc tt.
Proof.
  unfold update_data, written_row.
  destruct (truthy rp); destruct (truthy em); reflexivity.
Qed.

Lemma execute_update_map (table : list TranslationTask) (task_id : str)
    (st : TaskStatus) (now : Z) (rp em : option str) (acc : option Q)
    (tt : option str) :
  let d := update_data st now rp em acc tt in
  fst (execute_update table task_id d)
  = List.map (fun row => if str_eqb (id row) task_id
                         then written_row row st now rp em acc tt else row)
      table
  /\ 0 <= snd (execute_update table task_id d)
  /\ (0 <? snd (execute_update table task_id d))
     = existsb (fun row => str_eqb (id row) task_id) table.
Proof.
  intros d. induction table as [| row r IH]; simpl.
  - repeat split. lia.
  - destruct IH as (IH1 & IH2 & IH3).
    destruct (execute_update r task_id d) as [r' n] eqn:E. simpl in *.
    destruct (str_eqb (id row) task_id); simpl.
    + subst d. rewrite set_columns_written. rewrite IH1.
      repeat split; lia.
    + rewrite IH1. repeat split; assumption.
Qed.

Lemma dict_get_update_data (st : TaskStatus) (now : Z) (rp em : option str)
    (acc : option Q) (tt : option str) :
  let d := update_data st now rp em acc tt in
  dict_get d col_accuracy = Some (VNum acc)
  /\ dict_get d col_text_content = Some (VStr tt)
  /\ dict_get d col_result_file_path
     = (if truthy rp then Some (VStr rp) else None)
  /\ dict_get d col_error_message
     = (if truthy em then Some (VStr em) else None).
Proof.
  unfold update_data.
  destruct (truthy rp); destruct (truthy em); repeat split; reflexivity.
Qed.

(** C9: a call of [update_task_status] (with a status of the enumeration)
    puts [accuracy] and [text_content] into the SET clause with the values
    of its arguments, [None] included; [result_file_path] and
    [error_message] are in the clause only when their argument is given;
    the matching rows end up with exactly these writes. *)
Theorem update_task_status_writes (table : list TranslationTask) (now : Z)
    (task_id status : str) (st : TaskStatus) (rp em : option str)
    (acc : option Q) (tt : option str) :
  TaskStatus_of status = Ret st ->
  let d := update_data st now rp em acc tt in
  dict_get d col_accuracy = Some (VNum acc)
  /\ dict_get d col_text_content = Some (VStr tt)
  /\ (forall v, dict_get d col_result_file_path = Some v ->
        rp <> None /\ v = VStr rp)
  /\ (forall v, dict_get d col_error_message = Some v ->
        em <> None /\ v = VStr em)
  /\ dict_get d col_result_file_path
     = (if truthy rp then Some (VStr rp) else None)
  /\ dict_get d col_error_message
     = (if truthy em then Some (VStr em) else None)
  /\ update_task_status table now task_id status rp em acc tt
     = Ret (List.map
              (fun row => if str_eqb (id row) task_id
                          then written_row row st now rp em acc tt else row)
              table,
            existsb (fun row => str_eqb (id row) task_id) table).
Proof.
  intros Hst d.
  destruct (dict_get_update_data st now rp em acc tt) as (Ha & Ht & Hr & He).
  fold d in Ha, Ht, Hr, He.
  split; [exact Ha |]. split; [exact Ht |].
  split.
  { intros v Hv. rewrite Hr in Hv. destruct rp as [[| c r] |]; simpl in Hv;
      try discriminate. inversion Hv. split; [discriminate | reflexivity]. }
  split.
  { intros v Hv. rewrite He in Hv. destruct em as [[| c r] |]; simpl in Hv;
      try discriminate. inversion Hv. split; [discriminate | reflexivity]. }
  split; [exact Hr |]. split; [exact He |].
  unfold update_task_status. rewrite Hst.
  destruct (execute_update_map table task_id st now rp em acc tt)
    as (H1 & _ & H3).
  unfold bind, try_except. fold d. fold d in H1, H3.
  destruct (execute_update table task_id d) as [t' n].
  cbn [fst snd] in H1, H3. rewrite H1, H3. reflexivity.
Qed.

(** A table of two rows, and the PROCESSING write of [handle_task], which
    passes neither accuracy nor text. *)
Definition sample_row (i : str) : TranslationTask :=
  mkRow i PENDING None (Some (lit "Hello world")) (lit "en") (lit "ja")
    None 0 0 None None 0 (Some (1 # 2)).

Lemma update_task_status_writes_witness :
  update_task_status [sample_row (lit "T1"); sample_row (lit "T2")] 7
    (lit "T1") (lit "PROCESSING") None None None None
  = Ret ([mkRow (lit "T1") PROCESSING None None (lit "en") (lit "ja")
            None 0 7 None None 0 None;
          sample_row (lit "T2")], true).
Proof.
  exact (proj2 (proj2 (proj2 (proj2 (proj2 (proj2
    (update_task_status_writes [sample_row (lit "T1"); sample_row (lit "T2")]
       7 (lit "T1") (lit "PROCESSING") PROCESSING None None None None
       eq_refl))))))).
Defined.

End DatabaseFacts.

(* ================================================================== *)
(** * Properties of the Python layer *)
(* ================================================================== *)

Module PyFacts.

Lemma bind_ret_inv {A B : Type} (m : outcome A) (k : A -> outcome B) (b : B) :
  bind m k = Ret b -> exists a, m = Ret a /\ k a = Ret b.
Proof.
  destruct m as [a | e]; simpl; intros H; [exists a; auto | discriminate].
Qed.

Lemma Ret_inj {A : Type} (a b : A) : Ret a = Ret b -> a = b.
Proof. intros H. inversion H. reflexivity. Qed.

Lemma str_eqb_eq (a b : str) : str_eqb a b = true <-> a = b.
Proof.
  revert b. induction a as [| x a IH]; destruct b as [| y b]; simpl;
    try (split; [discriminate | discriminate]); try tauto.
  rewrite andb_true_iff, Z.eqb_eq, IH. split.
  - intros [-> ->]. reflexivity.
  - intros H. inversion H. auto.
Qed.

Lemma str_eqb_refl (a : str) : str_eqb a a = true.
Proof. apply str_eqb_eq. reflexivity. Qed.

Lemma str_eqb_neq (a b : str) : str_eqb a b = false <-> a <> b.
Proof.
  rewrite <- str_eqb_eq. destruct (str_eqb a b); split; congruence.
Qed.

Lemma bytes_eqb_eq (a b : bytes) : bytes_eqb a b = true <-> a = b.
Proof.
  revert b. induction a as [| x a IH]; destruct b as [| y b]; simpl;
    try (split; [discriminate | discriminate]); try tauto.
  rewrite andb_true_iff, IH. split.
  - intros [H ->]. apply Byte.byte_dec_bl in H. rewrite H. reflexivity.
  - intros H. inversion H. split; [apply Byte.byte_dec_lb |]; reflexivity.
Qed.

(** ** The order on strings *)

Lemma str_leb_total (a b : str) : str_leb a b = true \/ str_leb b a = true.
Proof.
  revert b. induction a as [| x a IH]; destruct b as [| y b]; simpl; auto.
  destruct (x <? y) eqn:E1; destruct (y <? x) eqn:E2; auto.
Qed.

Lemma str_leb_antisym (a b : str) :
  str_leb a b = true -> str_leb b a = true -> a = b.
Proof.
  revert b. induction a as [| x a IH]; destruct b as [| y b]; simpl;
    try discriminate; auto.
  destruct (x <? y) eqn:E1; destruct (y <? x) eqn:E2; try discriminate.
  - apply Z.ltb_lt in E1. apply Z.ltb_lt in E2. lia.
  - apply Z.ltb_ge in E1. apply Z.ltb_ge in E2.
    intros H1 H2. f_equal; [lia | apply IH; assumption].
Qed.

Lemma str_leb_trans (a b c : str) :
  str_leb a b = true -> str_leb b c = true -> str_leb a c = true.
Proof.
  revert b c. induction a as [| x a IH]; destruct b as [| y b];
    destruct c as [| z c]; simpl; try discriminate; auto.
  destruct (x <? y) eqn:E1; destruct (y <? x) eqn:E2;
    destruct (y <? z) eqn:E3; destruct (z <? y) eqn:E4;
    destruct (x <? z) eqn:E5; destruct (z <? x) eqn:E6;
    try discriminate; auto;
    repeat match goal with
      | H : (_ <? _) = true |- _ => apply Z.ltb_lt in H
      | H : (_ <? _) = false |- _ => apply Z.ltb_ge in H
      end; try lia.
  apply IH.
Qed.

Lemma insort_comm (x y : str) (l : list str) :
  insort x (insort y l) = insort y (insort x l).
Proof.
  induction l as [| z r IH]; simpl.
  - destruct (str_leb x y) eqn:Exy; destruct (str_leb y x) eqn:Eyx; auto.
    + rewrite (str_leb_antisym _ _ Exy Eyx). reflexivity.
    + destruct (str_leb_total x y); congruence.
  - destruct (str_leb y z) eqn:Eyz; destruct (str_leb x z) eqn:Exz; simpl.
    + destruct (str_leb x y) eqn:Exy; destruct (str_leb y x) eqn:Eyx;
        rewrite ?Eyz, ?Exz; auto.
      * rewrite (str_leb_antisym _ _ Exy Eyx). reflexivity.
      * destruct (str_leb_total x y); congruence.
    + destruct (str_leb x y) eqn:Exy.
      * rewrite (str_leb_trans _ _ _ Exy Eyz) in Exz. discriminate.
      * rewrite Exz, Eyz. reflexivity.
    + destruct (str_leb y x) eqn:Eyx.
      * rewrite (str_leb_trans _ _ _ Eyx Exz) in Eyz. discriminate.
      * rewrite Exz, Eyz. reflexivity.
    + rewrite Exz, Eyz, IH. reflexivity.
Qed.

Lemma sorted_perm (l l' : list str) :
  Permutation l l' -> sorted l = sorted l'.
Proof.
  unfold sorted.
  induction 1 as [| x l l' _ IH | x y l | l l' l'' _ IH1 _ IH2]; simpl.
  - reflexivity.
  - rewrite IH. reflexivity.
  - apply insort_comm.
  - congruence.
Qed.

(** ** Lengths, bytes and unsigned fields *)

Lemma len_app {A : Type} (a b : list A) : len (a ++ b) = len a + len b.
Proof. unfold len. rewrite length_app. lia. Qed.

Lemma len_nonneg {A : Type} (l : list A) : 0 <= len l.
Proof. unfold len. lia. Qed.

Lemma len_nil {A : Type} : len (@nil A) = 0.
Proof. reflexivity. Qed.

Lemma len_cons {A : Type} (x : A) (l : list A) : len (x :: l) = 1 + len l.
Proof. unfold len. simpl length. lia. Qed.

Lemma byte_val_range (b : byte) : 0 <= byte_val b < 256.
Proof.
  unfold byte_val. pose proof (Byte.to_N_bounded b). lia.
Qed.

Lemma byte_val_of (z : Z) : 0 <= z < 256 -> byte_val (byte_of z) = z.
Proof.
  intros H. unfold byte_val, byte_of.
  destruct (Byte.of_N (Z.to_N z)) as [b |] eqn:E.
  - apply Byte.to_of_N in E. rewrite E. lia.
  - apply Byte.of_N_None_iff in E. lia.
Qed.

Lemma byte_of_val (b : byte) : byte_of (byte_val b) = b.
Proof.
  unfold byte_val, byte_of. rewrite N2Z.id, Byte.of_to_N. reflexivity.
Qed.

Lemma le_bytes_length (n : nat) (v : Z) : length (le_bytes n v) = n.
Proof.
  revert v. induction n as [| k IH]; intros v; simpl; [| rewrite IH];
    reflexivity.
Qed.

Lemma len_le_bytes (n : nat) (v : Z) : len (le_bytes n v) = Z.of_nat n.
Proof. unfold len. rewrite le_bytes_length. reflexivity. Qed.

Lemma le_value_le_bytes (n : nat) (v : Z) :
  0 <= v < 256 ^ Z.of_nat n -> le_value (le_bytes n v) = v.
Proof.
  revert v. induction n as [| k IH]; intros v H.
  - simpl in *. lia.
  - rewrite Nat2Z.inj_succ, Z.pow_succ_r in H by lia.
    cbn [le_bytes le_value]. rewrite byte_val_of.
    + rewrite IH.
      * pose proof (Z.div_mod v 256). lia.
      * split; [apply Z.div_pos; lia |].
        apply Z.div_lt_upper_bound; lia.
    + apply Z.mod_pos_bound. lia.
Qed.

Lemma pack_uint_inv (n : nat) (v : Z) (b : bytes) :
  pack_uint n v = Ret b -> b = le_bytes n v /\ 0 <= v < 256 ^ Z.of_nat n.
Proof.
  unfold pack_uint.
  destruct ((0 <=? v) && (v <? 256 ^ Z.of_nat n)) eqn:E; [| discriminate].
  intros H. inversion H. apply andb_true_iff in E. destruct E as [E1 E2].
  apply Z.leb_le in E1. apply Z.ltb_lt in E2. auto.
Qed.

Lemma pack_uint_ok (n : nat) (v : Z) :
  0 <= v < 256 ^ Z.of_nat n -> pack_uint n v = Ret (le_bytes n v).
Proof.
  intros [H1 H2]. unfold pack_uint.
  apply Z.leb_le in H1. apply Z.ltb_lt in H2. rewrite H1, H2. reflexivity.
Qed.

(** ** Slices *)

Lemma slice_at {A : Type} (pre x post : list A) :
  slice (pre ++ x ++ post) (len pre) (len pre + len x) = x.
Proof.
  unfold slice, len. rewrite Nat2Z.id.
  replace (Z.to_nat (Z.of_nat (length pre) + Z.of_nat (length x)
                     - Z.of_nat (length pre))) with (length x) by lia.
  rewrite skipn_app, skipn_all, Nat.sub_diag. simpl.
  rewrite firstn_app, firstn_all, Nat.sub_diag. simpl.
  apply app_nil_r.
Qed.

Lemma slice_in {A : Type} (blob pre x post : list A) (i j : Z) :
  blob = pre ++ x ++ post -> i = len pre -> j = i + len x ->
  slice blob i j = x.
Proof. intros -> -> ->. apply slice_at. Qed.

Lemma slice_head {A : Type} (x post : list A) (j : Z) :
  j = len x -> slice (x ++ post) 0 j = x.
Proof.
  intros ->. apply (slice_in _ [] x post); reflexivity.
Qed.

Lemma len_concat_uniform {A : Type} (c : Z) (chunks : list (list A)) :
  (forall x, In x chunks -> len x = c) ->
  len (concat chunks) = len chunks * c.
Proof.
  induction chunks as [| x r IH]; intros H; cbn [concat].
  - reflexivity.
  - rewrite len_app, len_cons, IH, (H x).
    + lia.
    + left. reflexivity.
    + intros y Hy. apply H. right. exact Hy.
Qed.

(** ** A loop over items of one size *)

Lemma range_first_chunks_from {A : Type} (g : bytes -> option A) (c : Z)
    (blob pre post : bytes) (body : Z -> option A) (rest done : list bytes) :
  0 <= c ->
  (forall x, In x (done ++ rest) -> len x = c) ->
  blob = pre ++ concat (done ++ rest) ++ post ->
  (forall i, 0 <= i ->
     body i = if len pre + i * c + c <=? len blob
              then g (slice blob (len pre + i * c) (len pre + i * c + c))
              else None) ->
  range_first (length rest) (len done) body = first_some g rest.
Proof.
  intros Hc. revert done.
  induction rest as [| x rest' IH]; intros done Hlen Hblob Hbody.
  - reflexivity.
  - cbn [length range_first first_some].
    assert (Hx : len x = c) by (apply Hlen, in_or_app; right; left; reflexivity).
    assert (Hd : len (concat done) = len done * c).
    { apply len_concat_uniform. intros y Hy. apply Hlen, in_or_app. auto. }
    assert (Hsplit : blob = (pre ++ concat done) ++ x ++ (concat rest' ++ post)).
    { rewrite Hblob, concat_app. cbn [concat].
      rewrite <- !app_assoc. reflexivity. }
    rewrite Hbody by apply len_nonneg.
    assert (Hfit : len pre + len done * c + c <= len blob).
    { rewrite Hsplit, !len_app, Hd, Hx.
      pose proof (len_nonneg (concat rest')). pose proof (len_nonneg post).
      lia. }
    apply Z.leb_le in Hfit. rewrite Hfit.
    rewrite (slice_in blob (pre ++ concat done) x (concat rest' ++ post));
      [| exact Hsplit | rewrite len_app, Hd; reflexivity | lia].
    destruct (g x) as [a |]; [reflexivity |].
    replace (len done + 1) with (len (done ++ [x]))
      by (rewrite len_app, len_cons, len_nil; lia).
    apply IH.
    + rewrite <- app_assoc. exact Hlen.
    + rewrite <- app_assoc. exact Hblob.
    + exact Hbody.
Qed.

Lemma range_first_chunks {A : Type} (g : bytes -> option A) (c : Z)
    (blob pre post : bytes) (body : Z -> option A) (chunks : list bytes) :
  0 <= c ->
  (forall x, In x chunks -> len x = c) ->
  blob = pre ++ concat chunks ++ post ->
  (forall i, 0 <= i ->
     body i = if len pre + i * c + c <=? len blob
              then g (slice blob (len pre + i * c) (len pre + i * c + c))
              else None) ->
  range_first (length chunks) 0 body = first_some g chunks.
Proof.
  intros Hc Hlen Hblob Hbody.
  exact (range_first_chunks_from g c blob pre post body chunks [] Hc Hlen
           Hblob Hbody).
Qed.

(** ** UTF-8: decoding what was encoded *)

Ltac euclid := Z.div_mod_to_equations; lia.

Ltac decide_tests :=
  repeat match goal with
    | |- context [?a <? ?b] =>
        destruct (Z.ltb_spec a b); try (exfalso; euclid)
    | |- context [?a <=? ?b] =>
        destruct (Z.leb_spec a b); try (exfalso; euclid)
    end;
  cbn [andb negb].

Lemma utf8_decode_char (c : Z) (bs rest : bytes) :
  utf8_encode_char c = Ret bs ->
  utf8_decode (bs ++ rest) = bind (utf8_decode rest) (fun s => Ret (c :: s)).
Proof.
  unfold utf8_encode_char.
  destruct (Z.ltb_spec c 0); [discriminate |].
  destruct (Z.ltb_spec c 128); [| destruct (Z.ltb_spec c 2048);
    [| destruct (Z.ltb_spec c 65536); [| destruct (Z.ltb_spec c 1114112);
      [| discriminate]]]].
  - intros E. apply Ret_inj in E. subst bs. cbn [app utf8_decode].
    rewrite byte_val_of by lia. decide_tests. reflexivity.
  - intros E. apply Ret_inj in E. subst bs. cbn [app utf8_decode]. unfold is_cont, cont.
    rewrite !byte_val_of by euclid. decide_tests.
    match goal with
    | |- bind _ (fun s => Ret (?e :: s)) = _ => replace e with c by euclid
    end.
    reflexivity.
  - destruct ((55296 <=? c) && (c <=? 57343)) eqn:Es; [discriminate |].
    intros E. apply Ret_inj in E. subst bs. cbn [app utf8_decode]. unfold is_cont, cont.
    rewrite !byte_val_of by euclid.
    match goal with
    | |- context [(?e - 224) * 4096 + ?f * 64 + ?g] =>
        replace ((e - 224) * 4096 + f * 64 + g) with c by euclid
    end.
    rewrite Es. decide_tests. reflexivity.
  - intros E. apply Ret_inj in E. subst bs. cbn [app utf8_decode]. unfold is_cont, cont.
    rewrite !byte_val_of by euclid.
    match goal with
    | |- context [(?e - 240) * 262144 + ?f * 4096 + ?g * 64 + ?h] =>
        replace ((e - 240) * 262144 + f * 4096 + g * 64 + h) with c
          by euclid
    end.
    decide_tests. reflexivity.
Qed.

Lemma utf8_roundtrip (s : str) (b : bytes) :
  utf8_encode s = Ret b -> utf8_decode b = Ret s.
Proof.
  revert b. induction s as [| c r IH]; intros b H.
  - inversion H. reflexivity.
  - cbn [utf8_encode] in H.
    apply bind_ret_inv in H. destruct H as (bc & Hc & H).
    apply bind_ret_inv in H. destruct H as (br & Hr & H).
    inversion H. rewrite (utf8_decode_char c bc br Hc), (IH br Hr).
    reflexivity.
Qed.

End PyFacts.

(* ================================================================== *)
(** * Properties of the packed format: the simple ones *)
(* ================================================================== *)

Module TextPackerFacts.
Import TextPacker PyFacts.

(** A blob whose only text entry holds one byte that is no compressed
    stream: header, one language-index item for "en", one text-index item
    for task "T1" with source type TEXT, and the byte [00]. *)
Definition corrupt_blob : bytes :=
  le_bytes 4 4 ++ le_bytes 4 1 ++ le_bytes 4 16 ++ le_bytes 4 48
  ++ le_bytes 4 (match deterministic_hash sample_md5 (lit "en") with
                 | Ret h => h
                 | Raise _ => 0
                 end)
  ++ le_bytes 4 0 ++ le_bytes 4 1
  ++ [x54; x31; x00; x00; x00; x00; x00; x00]
  ++ le_bytes 4 0 ++ le_bytes 4 1 ++ le_bytes 2 0 ++ le_bytes 2 0
  ++ [x00].

(** Two tasks for the examples. *)
Definition task_T1 : TaskData :=
  mkTask (lit "T1") (Some (lit "Hello world"))
    (Some [(lit "zh-cn", [20320; 22909]); (lit "ja", lit "konnichiwa");
           (lit "en", lit "Hello world")])
    None None.

Definition task_untranslated : TaskData :=
  mkTask (lit "empty") (Some (lit "Hello world")) (Some []) None None.

Section Simple.

Variable md5 : bytes -> bytes.
Variable zlib_compress : bytes -> bytes.
Variable zlib_decompress : bytes -> outcome bytes.
Variable upper : str -> str.

Lemma collect_languages_none (tasks_data : list TaskData) :
  (forall t, In t tasks_data -> no_translations t) ->
  collect_languages tasks_data = [].
Proof.
  intros H. unfold collect_languages.
  match goal with
  | |- fold_left ?f _ _ = _ =>
      assert (K : forall acc, fold_left f tasks_data acc = acc)
  end; [| apply K].
  induction tasks_data as [| t r IH]; intros acc; simpl.
  - reflexivity.
  - destruct (H t (or_introl eq_refl)) as [Ho Hs]. rewrite Ho, Hs.
    apply IH. intros t' Ht'. apply H. right. exact Ht'.
Qed.

(** C5: packing an empty list of tasks, or tasks that carry no translation,
    gives the sixteen bytes of the little-endian header with version 4, no
    language and both offsets at 16. *)
Theorem pack_without_translations (set_iter : list str -> list str) :
  pack_multiple_translations md5 zlib_compress set_iter [] = Ret empty_blob
  /\ (forall tasks_data,
        (forall t, In t tasks_data -> no_translations t) ->
        pack_multiple_translations md5 zlib_compress set_iter tasks_data
        = Ret empty_blob)
  /\ len empty_blob = 16
  /\ unpack_uint empty_blob 0 4 = 4
  /\ header_lang_count empty_blob = 0
  /\ header_lang_index_offset empty_blob = 16
  /\ header_text_data_offset empty_blob = 16.
Proof.
  assert (H : forall tasks_data,
             (forall t, In t tasks_data -> no_translations t) ->
             pack_multiple_translations md5 zlib_compress set_iter tasks_data
             = Ret empty_blob).
  { intros tasks_data Hn. unfold pack_multiple_translations, pack_regions.
    rewrite (collect_languages_none _ Hn). reflexivity. }
  split; [apply H; intros t [] |].
  split; [exact H |].
  repeat split.
Qed.

(** C10: whatever the bytes and the three strings, [query_text] returns a
    string or [None]; no exception leaves it. *)
Theorem query_text_total (packed_data : bytes) (language task_id source_type : str) :
  exists r : option str,
    query_text md5 zlib_decompress upper packed_data language task_id
      source_type = Ret r.
Proof.
  unfold query_text, try_except.
  destruct (query_text_body md5 zlib_decompress upper packed_data language
              task_id source_type) as [r | e].
  - exists r. reflexivity.
  - exists None. reflexivity.
Qed.

(** C2, as the code has it: when the matching text entry fails to
    decompress or to decode, the exception is caught at line 242 and
    [query_text] returns [None], the result of a failed lookup. *)
Theorem decode_failure_returns_None (packed_data : bytes)
    (language task_id source_type : str) (lang_hash start count : Z)
    (tid : bytes) (code : Z) (e : exn) :
  HEADER_SIZE <= len packed_data ->
  deterministic_hash md5 language = Ret lang_hash ->
  find_language packed_data (header_lang_count packed_data)
    (header_lang_index_offset packed_data) lang_hash = Some (start, count) ->
  query_task_id_bytes task_id = Ret tid ->
  source_type_code upper source_type = Some code ->
  find_text zlib_decompress packed_data start count
    (header_text_data_offset packed_data) tid code = Some (Raise e) ->
  query_text_body md5 zlib_decompress upper packed_data language task_id
    source_type = Raise e
  /\ query_text md5 zlib_decompress upper packed_data language task_id
       source_type = Ret None.
Proof.
  intros Hlen Hh Hl Ht Hc Hf.
  assert (Hb : query_text_body md5 zlib_decompress upper packed_data language
                 task_id source_type = Raise e).
  { unfold query_text_body.
    destruct (len packed_data <? HEADER_SIZE) eqn:E;
      [apply Z.ltb_lt in E; lia |].
    rewrite Hh. simpl. rewrite Hl, Ht. simpl. rewrite Hc, Hf. reflexivity. }
  split; [exact Hb |].
  unfold query_text. rewrite Hb. reflexivity.
Qed.

(** C7: two runs on the same list of tasks give the same bytes, however
    each run happens to iterate over the set of languages. *)
Theorem pack_deterministic (iter1 iter2 : list str -> list str)
    (tasks_data : list TaskData) :
  (forall l, Permutation (iter1 l) l) ->
  (forall l, Permutation (iter2 l) l) ->
  pack_multiple_translations md5 zlib_compress iter1 tasks_data
  = pack_multiple_translations md5 zlib_compress iter2 tasks_data.
Proof.
  intros H1 H2. unfold pack_multiple_translations, pack_regions.
  destruct (collect_languages tasks_data) as [| l0 ls]; [reflexivity |].
  rewrite (sorted_perm (iter1 (l0 :: ls)) (iter2 (l0 :: ls))).
  - reflexivity.
  - eapply Permutation_trans; [apply H1 | apply Permutation_sym, H2].
Qed.

End Simple.

Lemma pack_without_translations_witness :
  sample_pack [task_untranslated; mkTask (lit "T9") None None None None]
  = Ret empty_blob.
Proof.
  apply (proj1 (proj2 (pack_without_translations sample_md5 sample_compress
                         sample_iter))).
  intros t [<- | [<- | []]]; split; reflexivity.
Defined.

Lemma decode_failure_returns_None_witness :
  sample_query corrupt_blob (lit "en") (lit "T1") (lit "TEXT") = Ret None.
Proof.
  refine (proj2 (decode_failure_returns_None sample_md5 sample_decompress
                   sample_upper corrupt_blob (lit "en") (lit "T1")
                   (lit "TEXT")
                   (match deterministic_hash sample_md5 (lit "en") with
                    | Ret h => h
                    | Raise _ => 0
                    end)
                   28 1 [x54; x31; x00; x00; x00; x00; x00; x00] 0 ZlibError
                   _ _ _ _ _ _));
    vm_compute; first [reflexivity | discriminate].
Defined.

(** C2, as the specification words it, fails: the entry of [corrupt_blob]
    matches, [zlib.decompress] raises on its data, and the caller gets
    [None] instead of the error. *)
Lemma decode_failure_not_propagated :
  find_text sample_decompress corrupt_blob 28 1 48
    [x54; x31; x00; x00; x00; x00; x00; x00] 0 = Some (Raise ZlibError)
  /\ query_text_body sample_md5 sample_decompress sample_upper corrupt_blob
       (lit "en") (lit "T1") (lit "TEXT") = Raise ZlibError
  /\ sample_query corrupt_blob (lit "en") (lit "T1") (lit "TEXT") = Ret None.
Proof.
  repeat split; vm_compute; reflexivity.
Qed.

Lemma pack_deterministic_witness :
  pack_multiple_translations sample_md5 sample_compress (fun l => l)
    [task_T1; task_untranslated]
  = pack_multiple_translations sample_md5 sample_compress (@rev str)
      [task_T1; task_untranslated].
Proof.
  apply pack_deterministic.
  - intros l. apply Permutation_refl.
  - intros l. apply Permutation_sym, Permutation_rev.
Defined.

End TextPackerFacts.

(* ================================================================== *)
(** * Properties of the packed format: the layout *)
(* ================================================================== *)

Module LayoutFacts.
Import TextPacker PyFacts.

(** ** Sets and sorting *)

Lemma existsb_str_eqb (x : str) (s : list str) :
  existsb (str_eqb x) s = true <-> In x s.
Proof.
  rewrite existsb_exists. split.
  - intros (y & Hy & E). apply str_eqb_eq in E. subst. exact Hy.
  - intros H. exists x. split; [exact H | apply str_eqb_refl].
Qed.

Lemma set_add_in (s : list str) (y x : str) :
  In x (set_add s y) <-> In x s \/ x = y.
Proof.
  unfold set_add. destruct (existsb (str_eqb y) s) eqn:E.
  - apply existsb_str_eqb in E. split; [auto | intros [H | ->]; assumption].
  - rewrite in_app_iff. simpl. intuition congruence.
Qed.

Lemma set_add_nodup (s : list str) (y : str) :
  NoDup s -> NoDup (set_add s y).
Proof.
  intros H. unfold set_add. destruct (existsb (str_eqb y) s) eqn:E.
  - exact H.
  - apply NoDup_app; [exact H | repeat constructor; intros [] |].
    intros x Hx [<- | []].
    apply existsb_str_eqb in Hx. congruence.
Qed.

Lemma set_update_in (xs s : list str) (x : str) :
  In x (set_update s xs) <-> In x s \/ In x xs.
Proof.
  unfold set_update. revert s.
  induction xs as [| y r IH]; intros s; simpl.
  - tauto.
  - rewrite IH, set_add_in. intuition congruence.
Qed.

Lemma set_update_nodup (xs s : list str) :
  NoDup s -> NoDup (set_update s xs).
Proof.
  unfold set_update. revert s.
  induction xs as [| y r IH]; intros s H; simpl.
  - exact H.
  - apply IH, set_add_nodup, H.
Qed.

Lemma insort_perm (x : str) (l : list str) : Permutation (insort x l) (x :: l).
Proof.
  induction l as [| y r IH]; simpl.
  - apply Permutation_refl.
  - destruct (str_leb x y).
    + apply Permutation_refl.
    + eapply Permutation_trans; [apply perm_skip, IH | apply perm_swap].
Qed.

Lemma sorted_permutation (l : list str) : Permutation (sorted l) l.
Proof.
  unfold sorted. induction l as [| x r IH]; simpl.
  - apply Permutation_refl.
  - eapply Permutation_trans; [apply insort_perm | apply perm_skip, IH].
Qed.

(** ** The languages that are collected and those that get an entry *)

Lemma keys_items (o : option dict) : keys o = List.map fst (items o).
Proof. destruct o; reflexivity. Qed.

Lemma truthy_dict_false (o : option dict) :
  truthy_dict o = false -> items o = [].
Proof. destruct o as [[| x r] |]; simpl; congruence. Qed.

Lemma in_tag (l tid : str) (c : Z) (x : str) (tid' : str) (c' : Z) (d : dict) :
  In (l, tid, c, x) (tag tid' c' d) <-> tid = tid' /\ c = c' /\ In (l, x) d.
Proof.
  unfold tag. rewrite in_map_iff. split.
  - intros ([l' x'] & E & H). simpl in E. inversion E; subst. auto.
  - intros (-> & -> & H). exists (l, x). auto.
Qed.

Lemma in_keys_tag (l : str) (tid : str) (c : Z) (o : option dict) :
  In l (keys o) <-> exists x, In (l, tid, c, x) (tag tid c (items o)).
Proof.
  rewrite keys_items, in_map_iff. split.
  - intros ([l' x] & E & H). simpl in E. subst. exists x.
    apply in_tag. auto.
  - intros (x & H). apply in_tag in H. exists (l, x). tauto.
Qed.

Lemma collect_step_in (t : TaskData) (acc : list str) (l : str) :
  In l (let s1 := if truthy_dict (original_translations t)
                  then set_update acc (keys (original_translations t))
                  else acc in
        if truthy_dict (stt_translations t)
        then set_update s1 (keys (stt_translations t)) else s1)
  <-> In l acc \/ In l (keys (original_translations t))
      \/ In l (keys (stt_translations t)).
Proof.
  cbv zeta.
  assert (Ko : truthy_dict (original_translations t) = false ->
               keys (original_translations t) = []).
  { intros E. rewrite keys_items, (truthy_dict_false _ E). reflexivity. }
  assert (Ks : truthy_dict (stt_translations t) = false ->
               keys (stt_translations t) = []).
  { intros E. rewrite keys_items, (truthy_dict_false _ E). reflexivity. }
  destruct (truthy_dict (original_translations t));
    destruct (truthy_dict (stt_translations t));
    rewrite ?set_update_in, ?Ko, ?Ks by reflexivity; simpl; tauto.
Qed.

Lemma collect_step_nodup (t : TaskData) (acc : list str) :
  NoDup acc ->
  NoDup (let s1 := if truthy_dict (original_translations t)
                   then set_update acc (keys (original_translations t))
                   else acc in
         if truthy_dict (stt_translations t)
         then set_update s1 (keys (stt_translations t)) else s1).
Proof.
  intros H. cbv zeta.
  destruct (truthy_dict (original_translations t));
    destruct (truthy_dict (stt_translations t));
    repeat apply set_update_nodup; exact H.
Qed.

Lemma collect_languages_spec (tasks_data : list TaskData) :
  NoDup (collect_languages tasks_data)
  /\ forall l, In l (collect_languages tasks_data)
               <-> exists tid c x, In (l, tid, c, x) (input_triples tasks_data).
Proof.
  unfold collect_languages, input_triples.
  match goal with
  | |- NoDup (fold_left ?f _ _) /\ _ =>
      assert (K : forall ts acc, NoDup acc ->
                NoDup (fold_left f ts acc)
                /\ forall l, In l (fold_left f ts acc)
                     <-> In l acc
                         \/ exists tid c x,
                              In (l, tid, c, x)
                                (flat_map (fun t =>
                                   tag (task_id t) 0 (items (original_translations t))
                                   ++ tag (task_id t) 1 (items (stt_translations t)))
                                   ts))
  end.
  { induction ts as [| t r IH]; intros acc Hacc; simpl.
    - split; [exact Hacc |]. intros l. split; [auto |].
      intros [H | (tid & c & x & [])]. exact H.
    - destruct (IH _ (collect_step_nodup t acc Hacc)) as [Hn Hi].
      split; [exact Hn |]. intros l. rewrite Hi, collect_step_in.
      split.
      + intros [[H | [H | H]] | (tid & c & x & H)].
        * auto.
        * right. apply (in_keys_tag l (task_id t) 0) in H.
          destruct H as (x & H). exists (task_id t), 0, x.
          rewrite !in_app_iff. auto.
        * right. apply (in_keys_tag l (task_id t) 1) in H.
          destruct H as (x & H). exists (task_id t), 1, x.
          rewrite !in_app_iff. auto.
        * right. exists tid, c, x. rewrite !in_app_iff. auto.
      + intros [H | (tid & c & x & H)]; [auto |].
        rewrite !in_app_iff in H. destruct H as [[H | H] | H].
        * left. right. left. pose proof H as H'. apply in_tag in H'.
          destruct H' as (-> & -> & _).
          apply (in_keys_tag l (task_id t) 0). exists x. exact H.
        * left. right. right. pose proof H as H'. apply in_tag in H'.
          destruct H' as (-> & -> & _).
          apply (in_keys_tag l (task_id t) 1). exists x. exact H.
        * right. exists tid, c, x. exact H. }
  destruct (K tasks_data [] (NoDup_nil _)) as [Hn Hi].
  split; [exact Hn |]. intros l. rewrite Hi. split; [| auto].
  intros [[] | H]. exact H.
Qed.

Lemma packed_in_input (tasks_data : list TaskData) (tr : str * str * Z * str) :
  In tr (packed_triples tasks_data) -> In tr (input_triples tasks_data).
Proof.
  unfold packed_triples, input_triples. rewrite !in_flat_map.
  intros (t & Ht & H). exists t. split; [exact Ht |].
  unfold packed_of_task in H. rewrite in_app_iff in *.
  destruct H as [H | H]; [left | right];
    match type of H with
    | In _ (if ?b then _ else _) => destruct b; [exact H | destruct H]
    end.
Qed.

(** ** The dictionary [lang_data] *)

Lemma lang_data_get_append (d : list (str * list TextInfo)) (k : str)
    (v : TextInfo) (l : str) :
  lang_data_get (lang_data_append d k v) l
  = if str_eqb l k then lang_data_get d l ++ [v] else lang_data_get d l.
Proof.
  induction d as [| [k' t] r IH]; simpl.
  - destruct (str_eqb l k); reflexivity.
  - destruct (str_eqb k k') eqn:Ekk; simpl.
    + apply str_eqb_eq in Ekk. subst k'.
      destruct (str_eqb l k); reflexivity.
    + rewrite IH. destruct (str_eqb l k') eqn:Elk'; [| reflexivity].
      apply str_eqb_eq in Elk'. subst k'.
      destruct (str_eqb l k) eqn:Elk; [| reflexivity].
      apply str_eqb_eq in Elk. subst k. rewrite str_eqb_refl in Ekk.
      discriminate.
Qed.

Lemma lang_data_keys_append (d : list (str * list TextInfo)) (k : str)
    (v : TextInfo) (l : str) :
  In l (List.map fst (lang_data_append d k v))
  <-> l = k \/ In l (List.map fst d).
Proof.
  induction d as [| [k' t] r IH]; simpl.
  - intuition congruence.
  - destruct (str_eqb k k') eqn:Ekk; simpl.
    + apply str_eqb_eq in Ekk. subst k'. intuition congruence.
    + rewrite IH. tauto.
Qed.

Lemma lang_data_nodup_append (d : list (str * list TextInfo)) (k : str)
    (v : TextInfo) :
  NoDup (List.map fst d) -> NoDup (List.map fst (lang_data_append d k v)).
Proof.
  induction d as [| [k' t] r IH]; simpl; intros H.
  - repeat constructor. intros [].
  - inversion H as [| ? ? Hn Hr]; subst.
    destruct (str_eqb k k') eqn:Ekk; simpl.
    + constructor; assumption.
    + constructor; [| apply IH, Hr].
      rewrite lang_data_keys_append. intros [-> | K]; [| contradiction].
      rewrite str_eqb_refl in Ekk. discriminate.
Qed.

(** ** The loop over the tasks keeps the invariant *)

Lemma slice_app_l {A : Type} (a b : list A) (i j : Z) :
  0 <= i -> j <= len a -> slice (a ++ b) i j = slice a i j.
Proof.
  intros Hi Hj. unfold slice, len in *.
  rewrite skipn_app, firstn_app, length_skipn.
  replace (Z.to_nat (j - i) - (length a - Z.to_nat i))%nat with 0%nat by lia.
  rewrite firstn_O, app_nil_r. reflexivity.
Qed.

Lemma slice_shift {A : Type} (pre td : list A) (p o n : Z) :
  p = len pre -> 0 <= o ->
  slice (pre ++ td) (p + o) (p + o + n) = slice td o (o + n).
Proof.
  intros -> Ho. unfold slice, len.
  rewrite skipn_app.
  rewrite skipn_all2 by lia. simpl.
  f_equal; [lia |]. f_equal. lia.
Qed.

Lemma concat_snoc (parts : list bytes) (x : bytes) :
  concat (parts ++ [x]) = concat parts ++ x.
Proof. rewrite concat_app. simpl. rewrite app_nil_r. reflexivity. Qed.

Lemma pack_task_id_bytes_length (tid : str) (kb : bytes) :
  pack_task_id_bytes tid = Ret kb -> length kb = 8%nat.
Proof.
  unfold pack_task_id_bytes. intros H.
  apply bind_ret_inv in H. destruct H as (b & _ & H). apply Ret_inj in H.
  subst kb. unfold ljust. rewrite length_app, repeat_length, length_firstn.
  lia.
Qed.

Section Loop.

Variable zlib_compress : bytes -> bytes.

Lemma entry_holds_grow (td x : bytes) (e : TextInfo) (tid text : str) :
  entry_holds zlib_compress td e tid text ->
  entry_holds zlib_compress (td ++ x) e tid text.
Proof.
  intros (tb & Hk & Ht & Hl & Ho & Hb & Hs). exists tb.
  repeat split; try assumption.
  - rewrite len_app. pose proof (len_nonneg x). lia.
  - rewrite slice_app_l by lia. exact Hs.
Qed.

Lemma pack_inv_init : pack_inv zlib_compress [] (mkState [] [] 0).
Proof.
  constructor; simpl.
  - reflexivity.
  - intros l e [].
  - intros l tid c text [].
  - intros l. split; [intros [] | intros H; apply H; reflexivity].
  - constructor.
Qed.

Lemma pack_text_inv (kb : bytes) (code : Z) (st st' : PackState)
    (trs : list (str * str * Z * str)) (tid l text : str) :
  pack_inv zlib_compress trs st ->
  pack_task_id_bytes tid = Ret kb ->
  pack_text zlib_compress kb code st (l, text) = Ret st' ->
  pack_inv zlib_compress (trs ++ [(l, tid, code, text)]) st'.
Proof.
  intros [Ioff Isound Icomp Ikeys Inodup] Hk H.
  unfold pack_text in H. apply bind_ret_inv in H.
  destruct H as (tb & Htb & H). apply Ret_inj in H. subst st'.
  set (e0 := {| ti_task_id_bytes := kb; ti_offset := current_offset st;
                ti_length := len (zlib_compress tb);
                ti_source_type := code |}).
  assert (He0 : entry_holds zlib_compress
                  (concat (text_data_parts st) ++ zlib_compress tb) e0 tid text).
  { exists tb. unfold e0; simpl. rewrite Ioff.
    repeat split; try assumption; try reflexivity.
    - apply len_nonneg.
    - rewrite len_app. lia.
    - apply (slice_in _ (concat (text_data_parts st)) (zlib_compress tb) []);
        [rewrite app_nil_r; reflexivity | reflexivity | reflexivity]. }
  constructor; cbn [lang_data text_data_parts current_offset];
    rewrite ?concat_snoc.
  - rewrite len_app, Ioff. reflexivity.
  - intros l' e. rewrite lang_data_get_append.
    destruct (str_eqb l' l) eqn:El.
    + apply str_eqb_eq in El. subst l'. rewrite in_app_iff.
      intros [He | [<- | []]].
      * destruct (Isound _ _ He) as (tid' & text' & Hin & Hh).
        exists tid', text'. split; [apply in_or_app; auto |].
        apply entry_holds_grow, Hh.
      * exists tid, text. split; [apply in_or_app; right; left; reflexivity |].
        exact He0.
    + intros He. destruct (Isound _ _ He) as (tid' & text' & Hin & Hh).
      exists tid', text'. split; [apply in_or_app; auto |].
      apply entry_holds_grow, Hh.
  - intros l' tid' c' text' Hin. rewrite lang_data_get_append.
    apply in_app_or in Hin. destruct Hin as [Hin | [E | []]].
    + destruct (Icomp _ _ _ _ Hin) as (e & He & Hc & Hh).
      exists e. split; [| split; [exact Hc | apply entry_holds_grow, Hh]].
      destruct (str_eqb l' l); [apply in_or_app |]; auto.
    + inversion E; subst. rewrite str_eqb_refl.
      exists e0. split; [apply in_or_app; right; left; reflexivity |].
      split; [reflexivity | exact He0].
  - intros l'. rewrite lang_data_keys_append, lang_data_get_append, Ikeys.
    destruct (str_eqb l' l) eqn:El.
    + apply str_eqb_eq in El. split; [| auto].
      intros _ K. apply app_eq_nil in K. destruct K as [_ K]. discriminate.
    + apply str_eqb_neq in El. tauto.
  - apply lang_data_nodup_append, Inodup.
Qed.

Lemma pack_texts_inv (kb : bytes) (code : Z) (tid : str) (d : dict)
    (st st' : PackState) (trs : list (str * str * Z * str)) :
  pack_inv zlib_compress trs st ->
  pack_task_id_bytes tid = Ret kb ->
  pack_texts zlib_compress kb code st d = Ret st' ->
  pack_inv zlib_compress (trs ++ tag tid code d) st'.
Proof.
  revert st trs. induction d as [| [l text] r IH]; intros st trs Hinv Hk H.
  - simpl in *. apply Ret_inj in H. subst. rewrite app_nil_r. exact Hinv.
  - cbn [pack_texts] in H. apply bind_ret_inv in H.
    destruct H as (st1 & H1 & H).
    pose proof (pack_text_inv _ _ _ _ _ _ _ _ Hinv Hk H1) as Hinv1.
    specialize (IH _ _ Hinv1 Hk H).
    unfold tag in *. cbn [List.map fst snd]. rewrite <- app_assoc in IH.
    exact IH.
Qed.

Lemma pack_task_inv (t : TaskData) (st st' : PackState)
    (trs : list (str * str * Z * str)) :
  pack_inv zlib_compress trs st ->
  pack_task zlib_compress st t = Ret st' ->
  pack_inv zlib_compress (trs ++ packed_of_task t) st'.
Proof.
  intros Hinv H. unfold pack_task in H.
  apply bind_ret_inv in H. destruct H as (kb & Hk & H).
  apply bind_ret_inv in H. destruct H as (st1 & H1 & H2).
  unfold packed_of_task. rewrite app_assoc.
  assert (Hinv1 : pack_inv zlib_compress
            (trs ++ (if truthy_str (original_text t)
                        && truthy_dict (original_translations t)
                     then tag (task_id t) 0 (items (original_translations t))
                     else [])) st1).
  { destruct (truthy_str (original_text t)
              && truthy_dict (original_translations t)).
    - exact (pack_texts_inv _ _ _ _ _ _ _ Hinv Hk H1).
    - apply Ret_inj in H1. subst. rewrite app_nil_r. exact Hinv. }
  destruct (truthy_str (stt_text t) && truthy_dict (stt_translations t)).
  - exact (pack_texts_inv _ _ _ _ _ _ _ Hinv1 Hk H2).
  - apply Ret_inj in H2. subst. rewrite app_nil_r. exact Hinv1.
Qed.

Lemma pack_tasks_inv (tasks_data : list TaskData) (st st' : PackState)
    (trs : list (str * str * Z * str)) :
  pack_inv zlib_compress trs st ->
  pack_tasks zlib_compress st tasks_data = Ret st' ->
  pack_inv zlib_compress (trs ++ packed_triples tasks_data) st'.
Proof.
  revert st trs. induction tasks_data as [| t r IH]; intros st trs Hinv H.
  - simpl in *. apply Ret_inj in H. subst. rewrite app_nil_r. exact Hinv.
  - cbn [pack_tasks] in H. apply bind_ret_inv in H.
    destruct H as (st1 & H1 & H).
    pose proof (pack_task_inv _ _ _ _ Hinv H1) as Hinv1.
    specialize (IH _ _ Hinv1 H).
    unfold packed_triples in *. cbn [flat_map]. rewrite <- app_assoc in IH.
    exact IH.
Qed.

End Loop.

(** ** What the index loops write *)

Lemma unpack_field (blob pre post : bytes) (n : nat) (v i j : Z) :
  blob = pre ++ le_bytes n v ++ post ->
  i = len pre -> j = i + Z.of_nat n ->
  0 <= v < 256 ^ Z.of_nat n ->
  unpack_uint blob i j = v.
Proof.
  intros Hb Hi Hj Hv. unfold unpack_uint.
  rewrite (slice_in blob pre (le_bytes n v) post i j Hb Hi).
  - apply le_value_le_bytes, Hv.
  - rewrite len_le_bytes. exact Hj.
Qed.

Lemma pack_III_inv (a b c : Z) (x : bytes) :
  pack_III a b c = Ret x ->
  x = le_bytes 4 a ++ le_bytes 4 b ++ le_bytes 4 c
  /\ 0 <= a < 256 ^ 4 /\ 0 <= b < 256 ^ 4 /\ 0 <= c < 256 ^ 4.
Proof.
  unfold pack_III. intros H.
  apply bind_ret_inv in H. destruct H as (xa & Ha & H).
  apply bind_ret_inv in H. destruct H as (xb & Hb & H).
  apply bind_ret_inv in H. destruct H as (xc & Hc & H).
  apply Ret_inj in H.
  apply pack_uint_inv in Ha, Hb, Hc.
  destruct Ha as [-> Ha], Hb as [-> Hb], Hc as [-> Hc]. subst x.
  change (Z.of_nat 4) with 4 in *. auto.
Qed.

Lemma pack_IIII_inv (a b c d : Z) (x : bytes) :
  pack_IIII a b c d = Ret x ->
  x = le_bytes 4 a ++ le_bytes 4 b ++ le_bytes 4 c ++ le_bytes 4 d
  /\ 0 <= a < 256 ^ 4 /\ 0 <= b < 256 ^ 4 /\ 0 <= c < 256 ^ 4
  /\ 0 <= d < 256 ^ 4.
Proof.
  unfold pack_IIII. intros H.
  apply bind_ret_inv in H. destruct H as (xa & Ha & H).
  apply bind_ret_inv in H. destruct H as (xb & Hb & H).
  apply bind_ret_inv in H. destruct H as (xc & Hc & H).
  apply bind_ret_inv in H. destruct H as (xd & Hd & H).
  apply Ret_inj in H.
  apply pack_uint_inv in Ha, Hb, Hc, Hd.
  destruct Ha as [-> Ha], Hb as [-> Hb], Hc as [-> Hc], Hd as [-> Hd].
  subst x. change (Z.of_nat 4) with 4 in *. auto.
Qed.

Lemma pack_text_info_inv (e : TextInfo) (it : bytes) :
  pack_text_info e = Ret it ->
  it = ljust 8 (firstn 8 (ti_task_id_bytes e)) ++ le_bytes 4 (ti_offset e)
       ++ le_bytes 4 (ti_length e) ++ le_bytes 2 (ti_source_type e)
       ++ le_bytes 2 0
  /\ 0 <= ti_offset e < 256 ^ 4 /\ 0 <= ti_length e < 256 ^ 4
  /\ 0 <= ti_source_type e < 256 ^ 2.
Proof.
  unfold pack_text_info. intros H.
  apply bind_ret_inv in H. destruct H as (xo & Ho & H).
  apply bind_ret_inv in H. destruct H as (xl & Hl & H).
  apply bind_ret_inv in H. destruct H as (xs & Hs & H).
  apply bind_ret_inv in H. destruct H as (xz & Hz & H).
  apply Ret_inj in H.
  apply pack_uint_inv in Ho, Hl, Hs, Hz.
  destruct Ho as [-> Ho], Hl as [-> Hl], Hs as [-> Hs], Hz as [-> Hz].
  subst it. change (Z.of_nat 4) with 4 in *. change (Z.of_nat 2) with 2 in *.
  auto.
Qed.

Lemma ljust_firstn_length (b : bytes) : length (ljust 8 (firstn 8 b)) = 8%nat.
Proof.
  unfold ljust. rewrite length_app, repeat_length, length_firstn. lia.
Qed.

Lemma ljust_firstn_id (b : bytes) :
  length b = 8%nat -> ljust 8 (firstn 8 b) = b.
Proof.
  intros H. unfold ljust. rewrite firstn_all2 by lia. rewrite H.
  simpl. apply app_nil_r.
Qed.

Lemma pack_text_info_len (e : TextInfo) (it : bytes) :
  pack_text_info e = Ret it -> len it = TEXT_INDEX_ITEM_SIZE.
Proof.
  intros H. apply pack_text_info_inv in H. destruct H as (-> & _).
  unfold len. rewrite !length_app, ljust_firstn_length, !le_bytes_length.
  reflexivity.
Qed.

Lemma item_val_eq (e : TextInfo) (it : bytes) :
  pack_text_info e = Ret it -> item_val e = it.
Proof. unfold item_val. intros ->. reflexivity. Qed.

Lemma pack_text_index_spec (texts : list TextInfo) (tid0 : bytes) (off0 : Z)
    (tid1 : bytes) (off1 : Z) :
  pack_text_index texts tid0 off0 = Ret (tid1, off1) ->
  (forall e, In e texts -> pack_text_info e = Ret (item_val e))
  /\ tid1 = tid0 ++ concat (List.map item_val texts)
  /\ off1 = off0 + TEXT_INDEX_ITEM_SIZE * len texts.
Proof.
  revert tid0 off0. induction texts as [| e r IH]; intros tid0 off0 H.
  - simpl in H. apply Ret_inj in H. inversion H. subst.
    split; [intros e [] |]. split; [rewrite app_nil_r; reflexivity |].
    unfold len. simpl. lia.
  - cbn [pack_text_index] in H. apply bind_ret_inv in H.
    destruct H as (it & Hit & H). apply IH in H.
    destruct H as (Hall & -> & ->).
    split; [| split].
    + intros e' [<- | He']; [| apply Hall, He'].
      rewrite (item_val_eq _ _ Hit). exact Hit.
    + cbn [List.map concat]. rewrite (item_val_eq _ _ Hit), <- app_assoc.
      reflexivity.
    + rewrite len_cons. lia.
Qed.

Section Index.

Variable md5 : bytes -> bytes.

Lemma hash_val_eq (k : str) (h : Z) :
  deterministic_hash md5 k = Ret h -> hash_val md5 k = h.
Proof. unfold hash_val. intros ->. reflexivity. Qed.

Lemma build_index_spec (langs : list str) (d : list (str * list TextInfo))
    (lid0 tid0 : bytes) (off0 : Z) (lid tid : bytes) :
  build_index md5 langs d lid0 tid0 off0 = Ret (lid, tid) ->
  chunks_ok md5 d langs off0
  /\ lid = lid0 ++ concat (lang_chunks md5 d langs off0)
  /\ tid = tid0 ++ concat (flat_map (text_chunks d) langs).
Proof.
  revert lid0 tid0 off0. induction langs as [| k r IH]; intros lid0 tid0 off0 H.
  - simpl in H. apply Ret_inj in H. inversion H. subst.
    simpl. rewrite !app_nil_r. auto.
  - cbn [build_index] in H.
    apply bind_ret_inv in H. destruct H as (h & Hh & H).
    apply bind_ret_inv in H. destruct H as (x & Hx & H).
    apply bind_ret_inv in H. destruct H as ([tid1 off1] & Hp & H).
    cbn [fst snd] in H. apply IH in H. destruct H as (Hok & -> & ->).
    apply pack_text_index_spec in Hp. destruct Hp as (Hall & -> & ->).
    apply pack_III_inv in Hx. destruct Hx as (-> & Rh & Ro & Rl).
    rewrite <- (hash_val_eq _ _ Hh) in *.
    split; [| split].
    + cbn [chunks_ok]. rewrite (hash_val_eq _ _ Hh) at 1.
      repeat split; try assumption; try lia.
    + cbn [lang_chunks concat]. rewrite <- !app_assoc. reflexivity.
    + cbn [flat_map]. unfold text_chunks at 2.
      rewrite concat_app, <- !app_assoc. reflexivity.
Qed.

Lemma chunks_ok_in (d : list (str * list TextInfo)) (langs : list str)
    (off : Z) (k : str) :
  chunks_ok md5 d langs off -> In k langs ->
  deterministic_hash md5 k = Ret (hash_val md5 k)
  /\ forall e, In e (lang_data_get d k) ->
       pack_text_info e = Ret (item_val e).
Proof.
  revert off. induction langs as [| k' r IH]; intros off Hok [].
  - subst k'. destruct Hok as (H1 & _ & _ & _ & H2 & _). auto.
  - destruct Hok as (_ & _ & _ & _ & _ & Hok). exact (IH _ Hok H).
Qed.

Lemma lang_chunks_len (d : list (str * list TextInfo)) (langs : list str)
    (off : Z) (x : bytes) :
  In x (lang_chunks md5 d langs off) -> len x = 12.
Proof.
  revert off. induction langs as [| k r IH]; intros off [].
  - subst x. rewrite !len_app, !len_le_bytes. reflexivity.
  - exact (IH _ H).
Qed.

Lemma lang_chunks_length (d : list (str * list TextInfo)) (langs : list str)
    (off : Z) :
  length (lang_chunks md5 d langs off) = length langs.
Proof.
  revert off. induction langs as [| k r IH]; intros off; simpl;
    [| rewrite IH]; reflexivity.
Qed.

Lemma text_chunks_len (d : list (str * list TextInfo)) (k : str) (x : bytes) :
  (forall e, In e (lang_data_get d k) -> pack_text_info e = Ret (item_val e)) ->
  In x (text_chunks d k) -> len x = TEXT_INDEX_ITEM_SIZE.
Proof.
  intros Hall Hx. unfold text_chunks in Hx. apply in_map_iff in Hx.
  destruct Hx as (e & <- & He). apply (pack_text_info_len e), Hall, He.
Qed.

Lemma text_index_split (d : list (str * list TextInfo)) (lang : str)
    (langs : list str) (off : Z) :
  chunks_ok md5 d langs off -> In lang langs ->
  exists pre post,
    concat (flat_map (text_chunks d) langs)
    = pre ++ concat (text_chunks d lang) ++ post
    /\ off + len pre = offset_of d lang langs off.
Proof.
  revert off. induction langs as [| k r IH]; intros off Hok Hin; [destruct Hin |].
  cbn [flat_map offset_of]. rewrite concat_app.
  destruct (str_eqb lang k) eqn:E.
  - apply str_eqb_eq in E. subst k.
    exists [], (concat (flat_map (text_chunks d) r)).
    split; [reflexivity | unfold len; simpl; lia].
  - destruct Hin as [-> | Hin]; [rewrite str_eqb_refl in E; discriminate |].
    destruct Hok as (_ & _ & _ & _ & Hall & Hok).
    destruct (IH _ Hok Hin) as (pre & post & Hc & Ho).
    exists (concat (text_chunks d k) ++ pre), post.
    split; [rewrite Hc, <- app_assoc; reflexivity |].
    rewrite len_app, (len_concat_uniform TEXT_INDEX_ITEM_SIZE).
    + unfold text_chunks at 1. unfold len at 1. rewrite length_map.
      fold (len (lang_data_get d k)). lia.
    + intros x Hx. apply (text_chunks_len d k x Hall Hx).
Qed.

End Index.

(** ** What the two scans of the query find *)

Lemma find_language_chunks (blob pre post : bytes) (chunks : list bytes)
    (lang_count lang_hash : Z) :
  blob = pre ++ concat chunks ++ post ->
  (forall x, In x chunks -> len x = 12) ->
  lang_count = len chunks ->
  find_language blob lang_count (len pre) lang_hash
  = first_some (language_item (len pre) lang_count lang_hash) chunks.
Proof.
  intros Hb Hl Hn. unfold find_language.
  replace (Z.to_nat lang_count) with (length chunks) by (unfold len in Hn; lia).
  apply (range_first_chunks _ 12 blob pre post); try assumption; [lia |].
  intros i _. reflexivity.
Qed.

Lemma find_text_chunks (zlib_decompress : bytes -> outcome bytes)
    (blob pre post : bytes) (chunks : list bytes)
    (text_count text_data_offset : Z) (tidq : bytes) (code : Z) :
  blob = pre ++ concat chunks ++ post ->
  (forall x, In x chunks -> len x = TEXT_INDEX_ITEM_SIZE) ->
  text_count = len chunks ->
  find_text zlib_decompress blob (len pre) text_count text_data_offset
    tidq code
  = first_some (text_item zlib_decompress blob text_data_offset tidq code)
      chunks.
Proof.
  intros Hb Hl Hn. unfold find_text.
  replace (Z.to_nat text_count) with (length chunks) by (unfold len in Hn; lia).
  apply (range_first_chunks _ TEXT_INDEX_ITEM_SIZE blob pre post);
    try assumption; [unfold TEXT_INDEX_ITEM_SIZE; lia |].
  intros i _. reflexivity.
Qed.

Section Scan.

Variable md5 : bytes -> bytes.
Variable zlib_compress : bytes -> bytes.
Variable zlib_decompress : bytes -> outcome bytes.

Hypothesis zlib_roundtrip :
  forall b, zlib_decompress (zlib_compress b) = Ret b.

Lemma language_item_chunk (lio n h hk off cnt : Z) :
  0 <= hk < 256 ^ 4 -> 0 <= off < 256 ^ 4 -> 0 <= cnt < 256 ^ 4 ->
  language_item lio n h (le_bytes 4 hk ++ le_bytes 4 off ++ le_bytes 4 cnt)
  = if hk =? h then Some (lio + n * 12 + off, cnt) else None.
Proof.
  intros Rh Ro Rc. unfold language_item.
  rewrite (unpack_field _ [] (le_bytes 4 off ++ le_bytes 4 cnt) 4 hk 0 4);
    try reflexivity; try assumption.
  rewrite (unpack_field _ (le_bytes 4 hk) (le_bytes 4 cnt) 4 off 4 8);
    try reflexivity; try assumption.
  rewrite (unpack_field _ (le_bytes 4 hk ++ le_bytes 4 off) [] 4 cnt 8 12);
    try reflexivity; try assumption.
Qed.

Lemma first_some_lang (d : list (str * list TextInfo)) (lang : str)
    (langs : list str) (off lio n : Z) :
  chunks_ok md5 d langs off -> In lang langs ->
  (forall k, In k langs -> hash_val md5 k = hash_val md5 lang -> k = lang) ->
  first_some (language_item lio n (hash_val md5 lang))
    (lang_chunks md5 d langs off)
  = Some (lio + n * 12 + offset_of d lang langs off,
          len (lang_data_get d lang)).
Proof.
  revert off. induction langs as [| k r IH]; intros off Hok Hin Hinj;
    [destruct Hin |].
  destruct Hok as (_ & Rh & Ro & Rc & _ & Hok).
  cbn [lang_chunks first_some offset_of].
  rewrite language_item_chunk by assumption.
  destruct (str_eqb lang k) eqn:E.
  - apply str_eqb_eq in E. subst k. rewrite Z.eqb_refl. reflexivity.
  - destruct (hash_val md5 k =? hash_val md5 lang) eqn:Eh.
    + apply Z.eqb_eq in Eh. apply Hinj in Eh; [| left; reflexivity].
      subst k. rewrite str_eqb_refl in E. discriminate.
    + destruct Hin as [-> | Hin]; [rewrite str_eqb_refl in E; discriminate |].
      apply IH; [exact Hok | exact Hin |].
      intros k' Hk'. apply Hinj. right. exact Hk'.
Qed.

Lemma text_item_entry (blob pre td : bytes) (tdo : Z) (tidq : bytes)
    (code : Z) (e : TextInfo) (tid text : str) :
  blob = pre ++ td -> tdo = len pre ->
  pack_text_info e = Ret (item_val e) ->
  entry_holds zlib_compress td e tid text ->
  text_item zlib_decompress blob tdo tidq code (item_val e)
  = if bytes_eqb (ti_task_id_bytes e) tidq && (ti_source_type e =? code)
    then Some (Ret text) else None.
Proof.
  intros Hb Ht Hp (tb & Hk & He & Hl & Ho & Hfit & Hs).
  apply pack_text_info_inv in Hp. destruct Hp as (Hit & Ro & Rl & Rs).
  rewrite (ljust_firstn_id _ (pack_task_id_bytes_length _ _ Hk)) in Hit.
  assert (H8 : len (ti_task_id_bytes e) = 8).
  { unfold len. rewrite (pack_task_id_bytes_length _ _ Hk). reflexivity. }
  unfold text_item.
  rewrite (slice_in (item_val e) [] (ti_task_id_bytes e)
             (le_bytes 4 (ti_offset e) ++ le_bytes 4 (ti_length e)
              ++ le_bytes 2 (ti_source_type e) ++ le_bytes 2 0) 0 8);
    [| exact Hit | reflexivity | rewrite H8; reflexivity].
  rewrite (unpack_field (item_val e) (ti_task_id_bytes e)
             (le_bytes 4 (ti_length e) ++ le_bytes 2 (ti_source_type e)
              ++ le_bytes 2 0) 4 (ti_offset e) 8 12);
    [| exact Hit | rewrite H8; reflexivity | reflexivity | exact Ro].
  rewrite (unpack_field (item_val e)
             (ti_task_id_bytes e ++ le_bytes 4 (ti_offset e))
             (le_bytes 2 (ti_source_type e) ++ le_bytes 2 0) 4
             (ti_length e) 12 16);
    [| rewrite Hit, <- !app_assoc; reflexivity
     | rewrite len_app, H8, len_le_bytes; reflexivity | reflexivity
     | exact Rl].
  rewrite (unpack_field (item_val e)
             (ti_task_id_bytes e ++ le_bytes 4 (ti_offset e)
              ++ le_bytes 4 (ti_length e))
             (le_bytes 2 0) 2 (ti_source_type e) 16 18);
    [| rewrite Hit, <- !app_assoc; reflexivity
     | rewrite !len_app, H8, !len_le_bytes; reflexivity | reflexivity
     | exact Rs].
  destruct (bytes_eqb (ti_task_id_bytes e) tidq
            && (ti_source_type e =? code)); [| reflexivity].
  cbv zeta.
  assert (Hlen : tdo + ti_offset e + ti_length e <= len blob).
  { rewrite Hb, len_app, Ht. lia. }
  apply Z.leb_le in Hlen. rewrite Hlen.
  rewrite Hb, Ht, slice_shift by (reflexivity || assumption).
  rewrite Hs, zlib_roundtrip. cbn [bind].
  rewrite (utf8_roundtrip _ _ He). reflexivity.
Qed.

Lemma first_some_text (blob pre td : bytes) (tdo : Z) (tidq : bytes)
    (code : Z) (lang text : str) (trs : list (str * str * Z * str))
    (texts : list TextInfo) :
  blob = pre ++ td -> tdo = len pre ->
  (forall e, In e texts -> pack_text_info e = Ret (item_val e)) ->
  (forall e, In e texts ->
     exists tid' text',
       In (lang, tid', ti_source_type e, text') trs
       /\ entry_holds zlib_compress td e tid' text') ->
  (exists e, In e texts /\ ti_task_id_bytes e = tidq
             /\ ti_source_type e = code) ->
  (forall tid' text', In (lang, tid', code, text') trs ->
     pack_task_id_bytes tid' = Ret tidq -> text' = text) ->
  first_some (text_item zlib_decompress blob tdo tidq code)
    (List.map item_val texts) = Some (Ret text).
Proof.
  intros Hb Ht Hall Hsound Hex Huniq.
  induction texts as [| e r IH].
  - destruct Hex as (e & [] & _).
  - cbn [List.map first_some].
    destruct (Hsound e (or_introl eq_refl)) as (tid' & text' & Hin & Hh).
    rewrite (text_item_entry blob pre td tdo tidq code e tid' text' Hb Ht
               (Hall e (or_introl eq_refl)) Hh).
    destruct (bytes_eqb (ti_task_id_bytes e) tidq
              && (ti_source_type e =? code)) eqn:Em.
    + apply andb_true_iff in Em. destruct Em as [Ek Ec].
      apply bytes_eqb_eq in Ek. apply Z.eqb_eq in Ec.
      rewrite Ec in Hin. destruct Hh as (tb & Hk & _). rewrite Ek in Hk.
      rewrite (Huniq tid' text' Hin Hk). reflexivity.
    + apply IH.
      * intros e' He'. apply Hall. right. exact He'.
      * intros e' He'. apply Hsound. right. exact He'.
      * destruct Hex as (e0 & [<- | He0] & Hk0 & Hc0).
        -- rewrite Hk0, Hc0, Z.eqb_refl in Em.
           rewrite (proj2 (bytes_eqb_eq tidq tidq) eq_refl) in Em.
           discriminate.
        -- exists e0. auto.
Qed.

End Scan.

(** ** The header and the shape of a blob *)

Lemma header_fields (v n lio tdo : Z) (rest : bytes) :
  0 <= n < 256 ^ 4 -> 0 <= lio < 256 ^ 4 -> 0 <= tdo < 256 ^ 4 ->
  let blob := (le_bytes 4 v ++ le_bytes 4 n ++ le_bytes 4 lio
               ++ le_bytes 4 tdo) ++ rest in
  HEADER_SIZE <= len blob
  /\ header_lang_count blob = n
  /\ header_lang_index_offset blob = lio
  /\ header_text_data_offset blob = tdo.
Proof.
  intros Rn Rl Rt blob.
  assert (Hs : slice blob 0 HEADER_SIZE
               = le_bytes 4 v ++ le_bytes 4 n ++ le_bytes 4 lio
                 ++ le_bytes 4 tdo).
  { apply slice_head. rewrite !len_app, !len_le_bytes. reflexivity. }
  unfold header_lang_count, header_lang_index_offset, header_text_data_offset.
  rewrite Hs. split; [| split; [| split]].
  - unfold blob. rewrite !len_app, !len_le_bytes.
    pose proof (len_nonneg rest). unfold HEADER_SIZE. lia.
  - apply (unpack_field _ (le_bytes 4 v) (le_bytes 4 lio ++ le_bytes 4 tdo) 4);
      try reflexivity; assumption.
  - apply (unpack_field _ (le_bytes 4 v ++ le_bytes 4 n) (le_bytes 4 tdo) 4);
      try reflexivity; assumption.
  - apply (unpack_field _ (le_bytes 4 v ++ le_bytes 4 n ++ le_bytes 4 lio) [] 4);
      try reflexivity; assumption.
Qed.

Lemma packed_code (tasks_data : list TaskData) (l t : str) (c : Z) (x : str) :
  In (l, t, c, x) (packed_triples tasks_data) -> c = 0 \/ c = 1.
Proof.
  intros H. apply packed_in_input in H. unfold input_triples in H.
  apply in_flat_map in H. destruct H as (task & _ & H).
  apply in_app_or in H. destruct H as [H | H]; apply in_tag in H; tauto.
Qed.

Section Blob.

Variable md5 : bytes -> bytes.
Variable zlib_compress : bytes -> bytes.
Variable set_iter : list str -> list str.

(** A successful run on a list with at least one language, step by step. *)
Lemma pack_unfold (tasks_data : list TaskData) (blob : bytes) :
  pack_multiple_translations md5 zlib_compress set_iter tasks_data = Ret blob ->
  collect_languages tasks_data <> [] ->
  exists lt st lid tid h,
    build_lang_table (sorted (set_iter (collect_languages tasks_data))) []
      = Ret lt
    /\ pack_tasks zlib_compress (mkState [] [] 0) tasks_data = Ret st
    /\ build_index md5 (sorted (List.map fst (lang_data st))) (lang_data st)
         [] [] 0 = Ret (lid, tid)
    /\ pack_IIII version (len (collect_languages tasks_data))
         (HEADER_SIZE + len lt)
         (HEADER_SIZE + len lt + len lid + len tid) = Ret h
    /\ blob = h ++ lt ++ lid ++ tid ++ concat (text_data_parts st).
Proof.
  intros H Hne. unfold pack_multiple_translations, try_except in H.
  destruct (bind (pack_regions md5 zlib_compress set_iter tasks_data)
              (fun r => Ret (assemble r))) as [b |] eqn:E; [| discriminate].
  apply Ret_inj in H. subst b.
  apply bind_ret_inv in E. destruct E as (r & Hr & E). apply Ret_inj in E.
  unfold pack_regions in Hr.
  destruct (collect_languages tasks_data) as [| l0 ls] eqn:EL;
    [contradiction |].
  apply bind_ret_inv in Hr. destruct Hr as (lt & Hlt & Hr).
  apply bind_ret_inv in Hr. destruct Hr as (st & Hst & Hr).
  apply bind_ret_inv in Hr. destruct Hr as ([lid tid] & Hix & Hr).
  cbn [fst snd] in Hr.
  apply bind_ret_inv in Hr. destruct Hr as (h & Hh & Hr).
  apply Ret_inj in Hr. subst r.
  exists lt, st, lid, tid, h. unfold assemble in E. cbn in E.
  repeat split; try assumption. symmetry. exact E.
Qed.

End Blob.

End LayoutFacts.

(* ================================================================== *)
(** * Properties of the packed format: pack, then query *)
(* ================================================================== *)

Module RoundTrip.
Import TextPacker PyFacts LayoutFacts.

Section Laws.

Variable md5 : bytes -> bytes.
Variable zlib_compress : bytes -> bytes.
Variable zlib_decompress : bytes -> outcome bytes.
Variable upper : str -> str.
Variable set_iter : list str -> list str.

(** [zlib.decompress] inverts [zlib.compress], and the two names of a
    source type are already in upper case. *)
Hypothesis zlib_roundtrip :
  forall b, zlib_decompress (zlib_compress b) = Ret b.
Hypothesis upper_TEXT : upper (lit "TEXT") = lit "TEXT".
Hypothesis upper_AUDIO : upper (lit "AUDIO") = lit "AUDIO".

Lemma source_type_code_name (code : Z) :
  code = 0 \/ code = 1 ->
  source_type_code upper (source_type_name code) = Some code.
Proof.
  intros [-> | ->]; unfold source_type_code, source_type_name; simpl Z.eqb;
    cbv iota; rewrite ?upper_TEXT, ?upper_AUDIO; reflexivity.
Qed.

(** The languages with an entry are the collected ones as soon as every
    collected language has a packed text. *)
Lemma keys_are_languages (tasks_data : list TaskData) (st : PackState) :
  pack_inv zlib_compress (packed_triples tasks_data) st ->
  (forall l, In l (collect_languages tasks_data) ->
     exists t c x, In (l, t, c, x) (packed_triples tasks_data)) ->
  (forall l, In l (sorted (List.map fst (lang_data st)))
             <-> In l (collect_languages tasks_data))
  /\ len (sorted (List.map fst (lang_data st)))
     = len (collect_languages tasks_data).
Proof.
  intros [_ Isound Icomp Ikeys Inodup] Hcover.
  destruct (collect_languages_spec tasks_data) as [Hnd Hspec].
  pose proof (sorted_permutation (List.map fst (lang_data st))) as Hperm.
  assert (Hiff : forall l, In l (sorted (List.map fst (lang_data st)))
                           <-> In l (collect_languages tasks_data)).
  { intros l. split.
    - intros H. apply (Permutation_in _ Hperm) in H. apply Ikeys in H.
      destruct (lang_data_get (lang_data st) l) as [| e r] eqn:E;
        [contradiction |].
      destruct (Isound l e) as (t & x & Hin & _); [rewrite E; left; reflexivity |].
      apply Hspec. exists t, (ti_source_type e), x.
      apply packed_in_input, Hin.
    - intros H. destruct (Hcover l H) as (t & c & x & Hin).
      destruct (Icomp _ _ _ _ Hin) as (e & He & _).
      apply (Permutation_in _ (Permutation_sym Hperm)). apply Ikeys.
      intros K. rewrite K in He. destruct He. }
  split; [exact Hiff |].
  unfold len. f_equal. apply Permutation_length.
  apply NoDup_Permutation; [| exact Hnd | exact Hiff].
  apply (Permutation_NoDup (Permutation_sym Hperm)), Inodup.
Qed.

(** C1, as the code has it: a translation that was packed (its source
    text is not empty) is returned by the query for its language, task id
    and source type, provided that every language of the input has at least
    one packed text, that the hash of the language is shared by no other
    language of the input, and that no other text was packed for the same
    language, the same first eight bytes of the task id and the same source
    type. *)
Theorem pack_query_roundtrip (tasks_data : list TaskData) (blob : bytes)
    (lang tid : str) (code : Z) (text : str) :
  pack_multiple_translations md5 zlib_compress set_iter tasks_data = Ret blob ->
  (forall l, In l (collect_languages tasks_data) ->
     exists t c x, In (l, t, c, x) (packed_triples tasks_data)) ->
  (forall l, In l (collect_languages tasks_data) ->
     deterministic_hash md5 l = deterministic_hash md5 lang -> l = lang) ->
  (forall t x, In (lang, t, code, x) (packed_triples tasks_data) ->
     pack_task_id_bytes t = pack_task_id_bytes tid -> x = text) ->
  In (lang, tid, code, text) (packed_triples tasks_data) ->
  query_text md5 zlib_decompress upper blob lang tid (source_type_name code)
  = Ret (Some text).
Proof.
  intros Hpack Hcover Hinj Huniq Hin.
  assert (HinAll : In lang (collect_languages tasks_data)).
  { apply (proj2 (collect_languages_spec tasks_data)).
    exists tid, code, text. apply packed_in_input, Hin. }
  destruct (pack_unfold md5 zlib_compress set_iter tasks_data blob Hpack)
    as (lt & st & lid & tix & h & _ & Hst & Hix & Hh & Hblob).
  { intros K. rewrite K in HinAll. destruct HinAll. }
  pose proof (pack_tasks_inv zlib_compress tasks_data _ st []
                (pack_inv_init zlib_compress) Hst) as Inv.
  cbn [app] in Inv.
  destruct (keys_are_languages tasks_data st Inv Hcover) as [Hkeys Hcount].
  destruct Inv as [_ Isound Icomp _ _].
  set (d := lang_data st) in *.
  set (ks := sorted (List.map fst d)) in *.
  set (td := concat (text_data_parts st)) in *.
  apply build_index_spec in Hix. destruct Hix as (Hok & Hlid & Htix).
  cbn [app] in Hlid, Htix.
  apply pack_IIII_inv in Hh. destruct Hh as (Hh & _ & Rn & Rlio & Rtdo).
  assert (Hks : In lang ks) by (apply Hkeys, HinAll).
  destruct (chunks_ok_in md5 d ks 0 lang Hok Hks) as [Hhash Hitems].
  destruct (Icomp _ _ _ _ Hin) as (e0 & He0 & Hc0 & Hh0).
  assert (Hk0 : pack_task_id_bytes tid = Ret (ti_task_id_bytes e0)).
  { destruct Hh0 as (tb & Hk & _). exact Hk. }
  (* the lengths of the regions *)
  assert (Llid : len lid = len (collect_languages tasks_data) * 12).
  { rewrite Hlid, (len_concat_uniform 12), <- Hcount.
    - unfold len. rewrite lang_chunks_length. reflexivity.
    - intros x Hx. apply (lang_chunks_len md5 d ks 0 x Hx). }
  destruct (text_index_split md5 d lang ks 0 Hok Hks)
    as (tpre & tpost & Hsplit & Hoff).
  (* the header *)
  destruct (header_fields version (len (collect_languages tasks_data))
              (HEADER_SIZE + len lt)
              (HEADER_SIZE + len lt + len lid + len tix)
              (lt ++ lid ++ tix ++ td) Rn Rlio Rtdo)
    as (Hlen & Hcnt & Hlio & Htdo).
  rewrite <- Hh, <- Hblob in Hlen, Hcnt, Hlio, Htdo.
  assert (Lh : len h = HEADER_SIZE).
  { rewrite Hh, !len_app, !len_le_bytes. reflexivity. }
  (* the scan of the language index *)
  assert (Hfl : find_language blob (header_lang_count blob)
                  (header_lang_index_offset blob) (hash_val md5 lang)
                = Some (len (h ++ lt ++ lid ++ tpre),
                        len (lang_data_get d lang))).
  { rewrite Hcnt, Hlio.
    replace (HEADER_SIZE + len lt) with (len (h ++ lt))
      by (rewrite len_app, Lh; reflexivity).
    rewrite (find_language_chunks blob (h ++ lt) (tix ++ td)
               (lang_chunks md5 d ks 0)).
    - rewrite (first_some_lang md5 d lang ks 0 _ _ Hok Hks).
      + f_equal. f_equal. rewrite !len_app, Llid, <- Hoff. lia.
      + intros k Hk Ek.
        apply Hinj; [apply Hkeys, Hk |].
        destruct (chunks_ok_in md5 d ks 0 k Hok Hk) as [Hhk _].
        rewrite Hhk, Hhash, Ek. reflexivity.
    - rewrite Hblob, Hlid, <- !app_assoc. reflexivity.
    - intros x Hx. apply (lang_chunks_len md5 d ks 0 x Hx).
    - rewrite <- Hcount. unfold len. rewrite lang_chunks_length.
      reflexivity. }
  (* the scan of the text index *)
  assert (Hft : find_text zlib_decompress blob (len (h ++ lt ++ lid ++ tpre))
                  (len (lang_data_get d lang))
                  (header_text_data_offset blob) (ti_task_id_bytes e0) code
                = Some (Ret text)).
  { rewrite (find_text_chunks zlib_decompress blob (h ++ lt ++ lid ++ tpre)
               (tpost ++ td) (text_chunks d lang)).
    - unfold text_chunks.
      apply (first_some_text zlib_compress zlib_decompress zlib_roundtrip
               blob (h ++ lt ++ lid ++ tix) td _ _ code lang text
               (packed_triples tasks_data)).
      + rewrite Hblob, <- !app_assoc. reflexivity.
      + rewrite Htdo, !len_app, Lh. lia.
      + exact Hitems.
      + intros e He. apply Isound, He.
      + exists e0. auto.
      + intros t x Hx Hkx. apply (Huniq t x Hx). rewrite Hkx, Hk0.
        reflexivity.
    - rewrite Hblob, Htix, Hsplit, <- !app_assoc. reflexivity.
    - intros x Hx. apply (text_chunks_len d lang x Hitems Hx).
    - unfold text_chunks, len. rewrite length_map. reflexivity. }
  (* the query *)
  unfold query_text, query_text_body.
  destruct (Z.ltb_spec (len blob) HEADER_SIZE) as [K | _]; [lia |].
  rewrite Hhash. cbn [bind]. rewrite Hfl.
  change (query_task_id_bytes tid) with (pack_task_id_bytes tid).
  rewrite Hk0. cbn [bind].
  rewrite (source_type_code_name code (packed_code _ _ _ _ _ Hin)).
  rewrite Hft. reflexivity.
Qed.

End Laws.

(** ** Truncated task ids *)

Section Keys.

Variable md5 : bytes -> bytes.
Variable zlib_compress : bytes -> bytes.
Variable set_iter : list str -> list str.


(** The task of the failing input of C4: translations of the transcript
    are given and the transcript is not. *)
Definition task_without_transcript : TaskData :=
  mkTask (lit "a") (Some (lit "x")) (Some [(lit "en", lit "hello")])
    None (Some [(lit "fr", lit "bonjour")]).

(** C4 at its failing input: the header counts two languages and the
    language index holds one item of twelve bytes. *)
Theorem language_index_shorter_than_count (r : Regions) :
  pack_regions md5 zlib_compress set_iter [task_without_transcript] = Ret r ->
  header_lang_count (assemble r) = 2
  /\ len (lang_index_data r) = 12
  /\ len (lang_index_data r) <> 12 * header_lang_count (assemble r).
Proof.
  intros H. unfold pack_regions in H.
  change (collect_languages [task_without_transcript])
    with [lit "en"; lit "fr"] in H.
  cbv iota in H.
  apply bind_ret_inv in H. destruct H as (lt & _ & H).
  apply bind_ret_inv in H. destruct H as (st & Hst & H).
  apply bind_ret_inv in H. destruct H as ([lid tix] & Hix & H).
  cbn [fst snd] in H.
  apply bind_ret_inv in H. destruct H as (h & Hh & H).
  apply Ret_inj in H. subst r. unfold assemble.
  cbn [header lang_table lang_index_data text_index_data text_data].
  apply pack_IIII_inv in Hh. destruct Hh as (-> & _ & Rn & Rl & Rt).
  destruct (header_fields version (len [lit "en"; lit "fr"])
              (HEADER_SIZE + len lt)
              (HEADER_SIZE + len lt + len lid + len tix)
              (lt ++ lid ++ tix ++ concat (text_data_parts st)) Rn Rl Rt)
    as (_ & Hcnt & _ & _).
  rewrite Hcnt.
  assert (Hd : List.map fst (lang_data st) = [lit "en"]).
  { cbn [pack_tasks] in Hst. apply bind_ret_inv in Hst.
    destruct Hst as (st1 & H1 & Hst). apply Ret_inj in Hst. subst st1.
    unfold pack_task in H1. apply bind_ret_inv in H1.
    destruct H1 as (kb & _ & H1).
    change (truthy_str (original_text task_without_transcript)
            && truthy_dict (original_translations task_without_transcript))
      with true in H1.
    change (truthy_str (stt_text task_without_transcript)
            && truthy_dict (stt_translations task_without_transcript))
      with false in H1.
    cbv iota in H1. apply bind_ret_inv in H1.
    destruct H1 as (st1 & H1 & H2). apply Ret_inj in H2. subst st1.
    change (items (original_translations task_without_transcript))
      with [(lit "en", lit "hello")] in H1.
    cbn [pack_texts] in H1. apply bind_ret_inv in H1.
    destruct H1 as (st1 & H1 & H2). apply Ret_inj in H2. subst st1.
    unfold pack_text in H1. apply bind_ret_inv in H1.
    destruct H1 as (tb & _ & H1). apply Ret_inj in H1. subst st.
    reflexivity. }
  rewrite Hd in Hix. change (sorted [lit "en"]) with [lit "en"] in Hix.
  apply build_index_spec in Hix. destruct Hix as (_ & -> & _).
  cbn [lang_chunks concat app].
  rewrite !len_app, !len_le_bytes. unfold len. simpl. lia.
Qed.

End Keys.

End RoundTrip.

(* ================================================================== *)
(** * The packed format on examples *)
(* ================================================================== *)

Module Examples.
Import TextPacker PyFacts LayoutFacts.

(** ** Deciding the conditions of the round trip *)

Definition lang_of (tr : str * str * Z * str) : str := fst (fst (fst tr)).

(** Every collected language has a packed text. *)
Definition all_covered (tasks_data : list TaskData) : bool :=
  forallb (fun l =>
             existsb (fun tr => str_eqb l (lang_of tr))
               (packed_triples tasks_data))
    (collect_languages tasks_data).

(** Another collected language has the hash of [lang]. *)
Definition hash_clash (md5 : bytes -> bytes) (tasks_data : list TaskData)
    (lang : str) : bool :=
  existsb (fun l => negb (str_eqb l lang)
                    && (hash_val md5 l =? hash_val md5 lang))
    (collect_languages tasks_data).

Definition same_key (t t' : str) : bool :=
  match pack_task_id_bytes t, pack_task_id_bytes t' with
  | Ret a, Ret b => bytes_eqb a b
  | _, _ => true
  end.

(** Another text was packed under the language, the key and the source
    type of this one. *)
Definition key_clash (tasks_data : list TaskData) (lang tid : str) (code : Z)
    (text : str) : bool :=
  existsb (fun tr =>
             match tr with
             | (l, t, c, x) =>
                 str_eqb l lang && (c =? code) && same_key t tid
                 && negb (str_eqb x text)
             end)
    (packed_triples tasks_data).

Lemma all_covered_sound (tasks_data : list TaskData) :
  all_covered tasks_data = true ->
  forall l, In l (collect_languages tasks_data) ->
    exists t c x, In (l, t, c, x) (packed_triples tasks_data).
Proof.
  unfold all_covered. rewrite forallb_forall. intros H l Hl.
  apply H in Hl. apply existsb_exists in Hl.
  destruct Hl as ([[[l' t] c] x] & Hin & E). unfold lang_of in E. simpl in E.
  apply str_eqb_eq in E. subst l'. exists t, c, x. exact Hin.
Qed.

Lemma hash_clash_sound (md5 : bytes -> bytes) (tasks_data : list TaskData)
    (lang : str) :
  hash_clash md5 tasks_data lang = false ->
  forall l, In l (collect_languages tasks_data) ->
    deterministic_hash md5 l = deterministic_hash md5 lang -> l = lang.
Proof.
  unfold hash_clash. intros H l Hl E.
  destruct (str_eqb l lang) eqn:El; [apply str_eqb_eq, El |].
  exfalso. assert (K : existsb (fun l0 => negb (str_eqb l0 lang)
                        && (hash_val md5 l0 =? hash_val md5 lang))
                        (collect_languages tasks_data) = true).
  { apply existsb_exists. exists l. split; [exact Hl |].
    rewrite El. unfold hash_val. rewrite E, Z.eqb_refl. reflexivity. }
  congruence.
Qed.

Lemma key_clash_sound (tasks_data : list TaskData) (lang tid : str) (code : Z)
    (text : str) :
  key_clash tasks_data lang tid code text = false ->
  forall t x, In (lang, t, code, x) (packed_triples tasks_data) ->
    pack_task_id_bytes t = pack_task_id_bytes tid -> x = text.
Proof.
  unfold key_clash. intros H t x Hin E.
  destruct (str_eqb x text) eqn:Ex; [apply str_eqb_eq, Ex |].
  exfalso.
  assert (K : existsb (fun tr =>
                match tr with
                | (l, t0, c, x0) =>
                    str_eqb l lang && (c =? code) && same_key t0 tid
                    && negb (str_eqb x0 text)
                end) (packed_triples tasks_data) = true).
  { apply existsb_exists. exists (lang, t, code, x). split; [exact Hin |].
    rewrite str_eqb_refl, Z.eqb_refl, Ex. unfold same_key. rewrite E.
    destruct (pack_task_id_bytes tid) as [b |]; [| reflexivity].
    rewrite (proj2 (bytes_eqb_eq b b) eq_refl). reflexivity. }
  congruence.
Qed.

(** ** The task of the test at the end of [text_packer.py], and a second
    one *)

Definition task_long : TaskData :=
  mkTask (lit "very_long_task_id_that_exceeds_8_bytes")
    (Some (lit "Test"))
    (Some [(lit "en", lit "Test"); (lit "zh-cn", [27979; 35797])])
    (Some (lit "Test audio"))
    (Some [(lit "en", lit "Test audio")]).

Definition task_T2 : TaskData :=
  mkTask (lit "T2") (Some (lit "Good morning"))
    (Some [(lit "zh-cn", [26089; 19978; 22909]); (lit "fr", lit "Bonjour")])
    None None.

(** Two tasks whose ids share their first eight bytes. *)
Definition task_0001_a : TaskData :=
  mkTask (lit "task-0001-a") (Some (lit "one")) (Some [(lit "en", lit "first")])
    None None.

Definition task_0001_b : TaskData :=
  mkTask (lit "task-0001-b") (Some (lit "two")) (Some [(lit "en", lit "second")])
    None None.

Lemma sample_zlib_roundtrip (b : bytes) :
  sample_decompress (sample_compress b) = Ret b.
Proof. reflexivity. Qed.

Lemma pack_query_roundtrip_witness :
  exists blob,
    sample_pack [task_long; task_T2] = Ret blob
    /\ sample_query blob (lit "zh-cn")
         (lit "very_long_task_id_that_exceeds_8_bytes") (lit "TEXT")
       = Ret (Some [27979; 35797]).
Proof.
  destruct (sample_pack [task_long; task_T2]) as [blob | e] eqn:E;
    [| vm_compute in E; discriminate E].
  exists blob. split; [reflexivity |].
  apply (RoundTrip.pack_query_roundtrip sample_md5 sample_compress
           sample_decompress sample_upper sample_iter sample_zlib_roundtrip
           eq_refl eq_refl [task_long; task_T2] blob (lit "zh-cn")
           (lit "very_long_task_id_that_exceeds_8_bytes") 0 [27979; 35797] E).
  - apply all_covered_sound. vm_compute. reflexivity.
  - apply hash_clash_sound. vm_compute. reflexivity.
  - apply key_clash_sound. vm_compute. reflexivity.
  - vm_compute. tauto.
Defined.

(** C1, as the specification words it, fails: both translations stand in
    the input and were packed, and the query for the second task returns
    the text of the first. *)
Lemma roundtrip_fails_on_shared_prefix :
  In (lit "en", lit "task-0001-b", 0, lit "second")
    (input_triples [task_0001_a; task_0001_b])
  /\ exists blob,
       sample_pack [task_0001_a; task_0001_b] = Ret blob
       /\ sample_query blob (lit "en") (lit "task-0001-b") (lit "TEXT")
          = Ret (Some (lit "first"))
       /\ sample_query blob (lit "en") (lit "task-0001-b") (lit "TEXT")
          <> Ret (Some (lit "second")).
Proof.
  split; [vm_compute; tauto |].
  destruct (sample_pack [task_0001_a; task_0001_b]) as [blob | e] eqn:E;
    [| vm_compute in E; discriminate E].
  exists blob. split; [reflexivity |].
  vm_compute in E. apply Ret_inj in E. subst blob.
  split; [vm_compute; reflexivity |].
  vm_compute. intros K. discriminate K.
Qed.


Lemma language_index_shorter_than_count_witness :
  exists r,
    pack_regions sample_md5 sample_compress sample_iter
      [RoundTrip.task_without_transcript] = Ret r
    /\ header_lang_count (assemble r) = 2
    /\ len (lang_index_data r) = 12.
Proof.
  destruct (pack_regions sample_md5 sample_compress sample_iter
              [RoundTrip.task_without_transcript]) as [r | e] eqn:E;
    [| vm_compute in E; discriminate E].
  exists r. split; [reflexivity |].
  destruct (RoundTrip.language_index_shorter_than_count sample_md5
              sample_compress sample_iter r E) as (H1 & H2 & _).
  split; assumption.
Defined.

(** What the mismatch does to a query: the English text of the failing
    input was packed and is not found. *)
Lemma packed_text_not_found :
  In (lit "en", lit "a", 0, lit "hello")
    (packed_triples [RoundTrip.task_without_transcript])
  /\ exists blob,
       sample_pack [RoundTrip.task_without_transcript] = Ret blob
       /\ sample_query blob (lit "en") (lit "a") (lit "TEXT") = Ret None.
Proof.
  split; [vm_compute; tauto |].
  destruct (sample_pack [RoundTrip.task_without_transcript]) as [blob | e] eqn:E;
    [| vm_compute in E; discriminate E].
  exists blob. split; [reflexivity |].
  vm_compute in E. apply Ret_inj in E. subst blob.
  vm_compute. reflexivity.
Qed.

End Examples.

Module PackedFormatFacts.
Import TextPacker PyFacts LayoutFacts PackedFormat.

Lemma find_filter {A : Type} (p q : A -> bool) (l : list A) :
  find (fun x => p x && q x) l = find q (filter p l).
Proof.
  induction l as [| x r IH]; simpl; [reflexivity |].
  destruct (p x); simpl; [| exact IH].
  destruct (q x); [reflexivity | exact IH].
Qed.

Lemma find_none {A : Type} (p : A -> bool) (l : list A) :
  (forall x, In x l -> p x = false) -> find p l = None.
Proof.
  induction l as [| x r IH]; intros H; simpl; [reflexivity |].
  rewrite (H x (or_introl eq_refl)). apply IH. intros y Hy. apply H.
  right. exact Hy.
Qed.

Lemma str_eqb_sym (a b : str) : str_eqb a b = str_eqb b a.
Proof.
  destruct (str_eqb a b) eqn:E; symmetry.
  - apply str_eqb_eq in E. subst. apply str_eqb_refl.
  - apply str_eqb_neq. apply str_eqb_neq in E. congruence.
Qed.

Section OrderLoop.

Variable zlib_compress : bytes -> bytes.

Lemma entry_of_grow (td x : bytes) (e : TextInfo) (tr : str * str * Z * str) :
  entry_of zlib_compress td e tr -> entry_of zlib_compress (td ++ x) e tr.
Proof.
  intros [Hc Hh]. split; [exact Hc | apply entry_holds_grow, Hh].
Qed.

Lemma Forall2_entry_grow (td x : bytes) (es : list TextInfo)
    (trs : list (str * str * Z * str)) :
  Forall2 (entry_of zlib_compress td) es trs ->
  Forall2 (entry_of zlib_compress (td ++ x)) es trs.
Proof.
  induction 1; constructor; [apply entry_of_grow |]; assumption.
Qed.

Lemma pack_ord_init : pack_ord zlib_compress [] (mkState [] [] 0).
Proof.
  constructor; simpl; [reflexivity | intros l; constructor | reflexivity].
Qed.

Lemma enc_val_eq (s : str) (b : bytes) : utf8_encode s = Ret b -> enc_val s = b.
Proof. unfold enc_val. intros ->. reflexivity. Qed.

Lemma pack_text_ord (kb : bytes) (code : Z) (st st' : PackState)
    (trs : list (str * str * Z * str)) (tid l text : str) :
  pack_ord zlib_compress trs st ->
  pack_task_id_bytes tid = Ret kb ->
  pack_text zlib_compress kb code st (l, text) = Ret st' ->
  pack_ord zlib_compress (trs ++ [(l, tid, code, text)]) st'.
Proof.
  intros [Ioff Ient Iparts] Hk H.
  unfold pack_text in H. apply bind_ret_inv in H.
  destruct H as (tb & Htb & H). apply Ret_inj in H. subst st'.
  set (e0 := {| ti_task_id_bytes := kb; ti_offset := current_offset st;
                ti_length := len (zlib_compress tb);
                ti_source_type := code |}).
  assert (He0 : entry_of zlib_compress
                  (concat (text_data_parts st) ++ zlib_compress tb) e0
                  (l, tid, code, text)).
  { split; [reflexivity |]. exists tb. unfold e0, tr_task, tr_text; simpl.
    rewrite Ioff.
    repeat split; try assumption; try reflexivity.
    - apply len_nonneg.
    - rewrite len_app. lia.
    - apply (slice_in _ (concat (text_data_parts st)) (zlib_compress tb) []);
        [rewrite app_nil_r; reflexivity | reflexivity | reflexivity]. }
  constructor; cbn [lang_data text_data_parts current_offset];
    rewrite ?concat_snoc.
  - rewrite len_app, Ioff. reflexivity.
  - intros l'. rewrite lang_data_get_append, filter_app. cbn [filter].
    unfold tr_lang at 2. cbn [fst].
    rewrite (str_eqb_sym l l').
    destruct (str_eqb l' l).
    + apply Forall2_app; [apply Forall2_entry_grow, Ient |].
      constructor; [exact He0 | constructor].
    + rewrite app_nil_r. apply Forall2_entry_grow, Ient.
  - rewrite Iparts. unfold compressed_texts. rewrite map_app. cbn [List.map].
    unfold tr_text. cbn [snd]. rewrite (enc_val_eq _ _ Htb). reflexivity.
Qed.

Lemma pack_texts_ord (kb : bytes) (code : Z) (tid : str) (d : dict)
    (st st' : PackState) (trs : list (str * str * Z * str)) :
  pack_ord zlib_compress trs st ->
  pack_task_id_bytes tid = Ret kb ->
  pack_texts zlib_compress kb code st d = Ret st' ->
  pack_ord zlib_compress (trs ++ tag tid code d) st'.
Proof.
  revert st trs. induction d as [| [l text] r IH]; intros st trs Hinv Hk H.
  - simpl in *. apply Ret_inj in H. subst. rewrite app_nil_r. exact Hinv.
  - cbn [pack_texts] in H. apply bind_ret_inv in H.
    destruct H as (st1 & H1 & H).
    pose proof (pack_text_ord _ _ _ _ _ _ _ _ Hinv Hk H1) as Hinv1.
    specialize (IH _ _ Hinv1 Hk H).
    unfold tag in *. cbn [List.map fst snd]. rewrite <- app_assoc in IH.
    exact IH.
Qed.

Lemma pack_task_ord (t : TaskData) (st st' : PackState)
    (trs : list (str * str * Z * str)) :
  pack_ord zlib_compress trs st ->
  pack_task zlib_compress st t = Ret st' ->
  pack_ord zlib_compress (trs ++ packed_of_task t) st'.
Proof.
  intros Hinv H. unfold pack_task in H.
  apply bind_ret_inv in H. destruct H as (kb & Hk & H).
  apply bind_ret_inv in H. destruct H as (st1 & H1 & H2).
  unfold packed_of_task. rewrite app_assoc.
  assert (Hinv1 : pack_ord zlib_compress
            (trs ++ (if truthy_str (original_text t)
                        && truthy_dict (original_translations t)
                     then tag (task_id t) 0 (items (original_translations t))
                     else [])) st1).
  { destruct (truthy_str (original_text t)
              && truthy_dict (original_translations t)).
    - exact (pack_texts_ord _ _ _ _ _ _ _ Hinv Hk H1).
    - apply Ret_inj in H1. subst. rewrite app_nil_r. exact Hinv. }
  destruct (truthy_str (stt_text t) && truthy_dict (stt_translations t)).
  - exact (pack_texts_ord _ _ _ _ _ _ _ Hinv1 Hk H2).
  - apply Ret_inj in H2. subst. rewrite app_nil_r. exact Hinv1.
Qed.

Lemma pack_tasks_ord (tasks_data : list TaskData) (st st' : PackState)
    (trs : list (str * str * Z * str)) :
  pack_ord zlib_compress trs st ->
  pack_tasks zlib_compress st tasks_data = Ret st' ->
  pack_ord zlib_compress (trs ++ packed_triples tasks_data) st'.
Proof.
  revert st trs. induction tasks_data as [| t r IH]; intros st trs Hinv H.
  - simpl in *. apply Ret_inj in H. subst. rewrite app_nil_r. exact Hinv.
  - cbn [pack_tasks] in H. apply bind_ret_inv in H.
    destruct H as (st1 & H1 & H).
    pose proof (pack_task_ord _ _ _ _ Hinv H1) as Hinv1.
    specialize (IH _ _ Hinv1 H).
    unfold packed_triples in *. cbn [flat_map]. rewrite <- app_assoc in IH.
    exact IH.
Qed.

End OrderLoop.

(** ** The two scans, on what the loops wrote *)

Section Lookup.

Variable md5 : bytes -> bytes.
Variable zlib_compress : bytes -> bytes.
Variable zlib_decompress : bytes -> outcome bytes.

Hypothesis zlib_roundtrip :
  forall b, zlib_decompress (zlib_compress b) = Ret b.

Lemma first_some_lang_none (d : list (str * list TextInfo))
    (langs : list str) (off lio n h : Z) :
  chunks_ok md5 d langs off ->
  (forall k, In k langs -> hash_val md5 k <> h) ->
  first_some (language_item lio n h) (lang_chunks md5 d langs off) = None.
Proof.
  revert off. induction langs as [| k r IH]; intros off Hok Hne;
    [reflexivity |].
  destruct Hok as (_ & Rh & Ro & Rc & _ & Hok).
  cbn [lang_chunks first_some].
  rewrite language_item_chunk by assumption.
  destruct (Z.eqb_spec (hash_val md5 k) h) as [E | _].
  - exfalso. apply (Hne k); [left; reflexivity | exact E].
  - apply IH; [exact Hok |]. intros k' Hk'. apply Hne. right. exact Hk'.
Qed.

Lemma first_some_text_find (blob pre td : bytes) (tdo : Z) (key : bytes)
    (code : Z) (texts : list TextInfo) (trs : list (str * str * Z * str)) :
  blob = pre ++ td -> tdo = len pre ->
  (forall e, In e texts -> pack_text_info e = Ret (item_val e)) ->
  Forall2 (entry_of zlib_compress td) texts trs ->
  first_some (text_item zlib_decompress blob tdo key code)
    (List.map item_val texts)
  = option_map (fun tr => Ret (tr_text tr))
      (find (fun tr => key_is key tr && (tr_code tr =? code)) trs).
Proof.
  intros Hb Ht Hall HF. induction HF as [| e tr es trs' [Hc Hh] _ IH].
  - reflexivity.
  - cbn [List.map first_some find].
    rewrite (text_item_entry zlib_compress zlib_decompress zlib_roundtrip
               blob pre td tdo key code e (tr_task tr) (tr_text tr) Hb Ht
               (Hall e (or_introl eq_refl)) Hh).
    assert (Hk : key_is key tr = bytes_eqb (ti_task_id_bytes e) key).
    { unfold key_is. destruct Hh as (tb & Hk & _). rewrite Hk. reflexivity. }
    rewrite Hk, Hc.
    destruct (bytes_eqb (ti_task_id_bytes e) key && (tr_code tr =? code)).
    + reflexivity.
    + apply IH. intros e' He'. apply Hall. right. exact He'.
Qed.

End Lookup.

Lemma lookup_packed_none (upper : str -> str)
    (trs : list (str * str * Z * str)) (lang tid st : str) :
  (forall tr, In tr trs -> tr_lang tr <> lang) ->
  lookup_packed upper trs lang tid st = None.
Proof.
  intros H. unfold lookup_packed.
  destruct (query_task_id_bytes tid) as [key |]; [| reflexivity].
  destruct (source_type_code upper st) as [code |]; [| reflexivity].
  rewrite find_none; [reflexivity |].
  intros tr Htr. unfold matches.
  destruct (str_eqb (tr_lang tr) lang) eqn:E; [| reflexivity].
  apply str_eqb_eq in E. exfalso. exact (H tr Htr E).
Qed.

Lemma str_in_dec (x : str) (l : list str) : {In x l} + {~ In x l}.
Proof. apply in_dec. apply list_eq_dec. apply Z.eq_dec. Qed.

Lemma pack_no_language (md5 : bytes -> bytes) (zlib_compress : bytes -> bytes)
    (set_iter : list str -> list str) (tasks_data : list TaskData)
    (blob : bytes) :
  pack_multiple_translations md5 zlib_compress set_iter tasks_data = Ret blob ->
  collect_languages tasks_data = [] ->
  blob = empty_blob /\ packed_triples tasks_data = [].
Proof.
  intros Hpack EL. split.
  - unfold pack_multiple_translations, pack_regions in Hpack.
    rewrite EL in Hpack. apply Ret_inj in Hpack. symmetry. exact Hpack.
  - destruct (packed_triples tasks_data) as [| [[[l t] c] x] r] eqn:E;
      [reflexivity |].
    exfalso.
    assert (Hin : In l (collect_languages tasks_data)).
    { apply (proj2 (collect_languages_spec tasks_data)). exists t, c, x.
      apply packed_in_input. rewrite E. left. reflexivity. }
    rewrite EL in Hin. destruct Hin.
Qed.

Section Query.

Variable md5 : bytes -> bytes.
Variable zlib_compress : bytes -> bytes.
Variable zlib_decompress : bytes -> outcome bytes.
Variable upper : str -> str.
Variable set_iter : list str -> list str.

Hypothesis zlib_roundtrip :
  forall b, zlib_decompress (zlib_compress b) = Ret b.

Lemma query_empty_blob (lang tid st : str) :
  query_text md5 zlib_decompress upper empty_blob lang tid st = Ret None.
Proof.
  unfold query_text, query_text_body.
  change (len empty_blob <? HEADER_SIZE) with false. cbv iota.
  change (header_lang_count empty_blob) with 0.
  destruct (deterministic_hash md5 lang) as [h | e]; reflexivity.
Qed.

(** What a query returns on a packed blob, when every collected language
    has a packed text and no other collected language has the hash of the
    queried one. *)
Lemma query_lookup (tasks_data : list TaskData) (blob : bytes)
    (lang tid st : str) :
  pack_multiple_translations md5 zlib_compress set_iter tasks_data = Ret blob ->
  (forall l, In l (collect_languages tasks_data) ->
     exists t c x, In (l, t, c, x) (packed_triples tasks_data)) ->
  (forall l, In l (collect_languages tasks_data) ->
     deterministic_hash md5 l = deterministic_hash md5 lang -> l = lang) ->
  query_text md5 zlib_decompress upper blob lang tid st
  = Ret (lookup_packed upper (packed_triples tasks_data) lang tid st).
Proof.
  intros Hpack Hcover Hinj.
  destruct (collect_languages tasks_data) as [| l0 ls] eqn:EL.
  { destruct (pack_no_language _ _ _ _ _ Hpack EL) as [-> ->].
    rewrite query_empty_blob. unfold lookup_packed.
    destruct (query_task_id_bytes tid); [| reflexivity].
    destruct (source_type_code upper st); reflexivity. }
  rewrite <- EL in *.
  destruct (pack_unfold md5 zlib_compress set_iter tasks_data blob Hpack)
    as (lt & ps & lid & tix & h & _ & Hst & Hix & Hh & Hblob).
  { rewrite EL. discriminate. }
  pose proof (pack_tasks_inv zlib_compress tasks_data _ ps []
                (pack_inv_init zlib_compress) Hst) as Inv.
  pose proof (pack_tasks_ord zlib_compress tasks_data _ ps []
                (pack_ord_init zlib_compress) Hst) as Ord.
  cbn [app] in Inv, Ord.
  destruct (RoundTrip.keys_are_languages zlib_compress tasks_data ps Inv Hcover)
    as [Hkeys Hcount].
  destruct Inv as [_ _ Icomp Ikeys _].
  destruct Ord as [_ Oent _].
  set (d := lang_data ps) in *.
  set (ks := sorted (List.map fst d)) in *.
  set (td := concat (text_data_parts ps)) in *.
  apply build_index_spec in Hix. destruct Hix as (Hok & Hlid & Htix).
  cbn [app] in Hlid, Htix.
  apply pack_IIII_inv in Hh. destruct Hh as (Hh & _ & Rn & Rlio & Rtdo).
  (* the lengths of the regions *)
  assert (Llid : len lid = len (collect_languages tasks_data) * 12).
  { rewrite Hlid, (len_concat_uniform 12), <- Hcount.
    - unfold len. rewrite lang_chunks_length. reflexivity.
    - intros x Hx. apply (lang_chunks_len md5 d ks 0 x Hx). }
  (* the header *)
  destruct (header_fields version (len (collect_languages tasks_data))
              (HEADER_SIZE + len lt)
              (HEADER_SIZE + len lt + len lid + len tix)
              (lt ++ lid ++ tix ++ td) Rn Rlio Rtdo)
    as (Hlen & Hcnt & Hlio & Htdo).
  rewrite <- Hh, <- Hblob in Hlen, Hcnt, Hlio, Htdo.
  assert (Lh : len h = HEADER_SIZE).
  { rewrite Hh, !len_app, !len_le_bytes. reflexivity. }
  destruct (str_in_dec lang ks) as [Hks | Hnks].
  - (* the language has entries *)
    destruct (chunks_ok_in md5 d ks 0 lang Hok Hks) as [Hhash Hitems].
    destruct (text_index_split md5 d lang ks 0 Hok Hks)
      as (tpre & tpost & Hsplit & Hoff).
    assert (Hfl : find_language blob (header_lang_count blob)
                    (header_lang_index_offset blob) (hash_val md5 lang)
                  = Some (len (h ++ lt ++ lid ++ tpre),
                          len (lang_data_get d lang))).
    { rewrite Hcnt, Hlio.
      replace (HEADER_SIZE + len lt) with (len (h ++ lt))
        by (rewrite len_app, Lh; reflexivity).
      rewrite (find_language_chunks blob (h ++ lt) (tix ++ td)
                 (lang_chunks md5 d ks 0)).
      - rewrite (first_some_lang md5 d lang ks 0 _ _ Hok Hks).
        + f_equal. f_equal. rewrite !len_app, Llid, <- Hoff. lia.
        + intros k Hk Ek.
          apply Hinj; [apply Hkeys, Hk |].
          destruct (chunks_ok_in md5 d ks 0 k Hok Hk) as [Hhk _].
          rewrite Hhk, Hhash, Ek. reflexivity.
      - rewrite Hblob, Hlid, <- !app_assoc. reflexivity.
      - intros x Hx. apply (lang_chunks_len md5 d ks 0 x Hx).
      - rewrite <- Hcount. unfold len. rewrite lang_chunks_length.
        reflexivity. }
    unfold query_text, query_text_body, lookup_packed.
    destruct (Z.ltb_spec (len blob) HEADER_SIZE) as [K | _]; [lia |].
    rewrite Hhash. cbn [bind]. rewrite Hfl.
    destruct (query_task_id_bytes tid) as [key | e]; [| reflexivity].
    cbn [bind].
    destruct (source_type_code upper st) as [code |]; [| reflexivity].
    rewrite (find_text_chunks zlib_decompress blob (h ++ lt ++ lid ++ tpre)
               (tpost ++ td) (text_chunks d lang)).
    + unfold text_chunks.
      rewrite (first_some_text_find zlib_compress zlib_decompress
                 zlib_roundtrip blob (h ++ lt ++ lid ++ tix) td _ key code
                 (lang_data_get d lang)
                 (filter (fun tr => str_eqb (tr_lang tr) lang)
                    (packed_triples tasks_data))).
      * unfold matches.
        rewrite (find_filter (fun tr => str_eqb (tr_lang tr) lang)
                   (fun tr => key_is key tr && (tr_code tr =? code))).
        destruct (find _ _) as [tr |]; reflexivity.
      * rewrite Hblob, <- !app_assoc. reflexivity.
      * rewrite Htdo, !len_app, Lh. lia.
      * exact Hitems.
      * apply Oent.
    + rewrite Hblob, Htix, Hsplit, <- !app_assoc. reflexivity.
    + intros x Hx. apply (text_chunks_len d lang x Hitems Hx).
    + unfold text_chunks, len. rewrite length_map. reflexivity.
  - (* the language has none *)
    rewrite lookup_packed_none.
    + unfold query_text, query_text_body.
      destruct (Z.ltb_spec (len blob) HEADER_SIZE) as [K | _]; [lia |].
      destruct (deterministic_hash md5 lang) as [hv | e] eqn:Hhv;
        [| reflexivity].
      cbn [bind]. rewrite Hcnt, Hlio.
      replace (HEADER_SIZE + len lt) with (len (h ++ lt))
        by (rewrite len_app, Lh; reflexivity).
      rewrite (find_language_chunks blob (h ++ lt) (tix ++ td)
                 (lang_chunks md5 d ks 0)).
      * rewrite (first_some_lang_none md5 d ks 0 _ _ hv Hok); [reflexivity |].
        intros k Hk Ek.
        destruct (chunks_ok_in md5 d ks 0 k Hok Hk) as [Hhk _].
        apply Hnks. rewrite <- (Hinj k); [exact Hk | apply Hkeys, Hk |].
        congruence.
      * rewrite Hblob, Hlid, <- !app_assoc. reflexivity.
      * intros x Hx. apply (lang_chunks_len md5 d ks 0 x Hx).
      * rewrite <- Hcount. unfold len. rewrite lang_chunks_length.
        reflexivity.
    + intros [[[l t] c] x] Hin E. unfold tr_lang in E. cbn [fst] in E.
      subst l. apply Hnks.
      destruct (Icomp _ _ _ _ Hin) as (e & He & _).
      apply (Permutation_in _ (Permutation_sym (sorted_permutation _))).
      apply Ikeys. intros K. fold d in He. rewrite K in He. destruct He.
Qed.

End Query.

End PackedFormatFacts.
Module QueryFacts.
Import TextPacker PyFacts LayoutFacts PackedFormat PackedFormatFacts.

Section Semantics.

Variable md5 : bytes -> bytes.
Variable zlib_compress : bytes -> bytes.
Variable zlib_decompress : bytes -> outcome bytes.
Variable upper : str -> str.
Variable set_iter : list str -> list str.

Hypothesis zlib_roundtrip :
  forall b, zlib_decompress (zlib_compress b) = Ret b.

(** X1: on a packed blob, a query returns the text of the first packed
    translation, in packing order, that has the queried language, the
    eight-byte key of the queried task id and the queried source type, and
    [None] when there is none; the source type is read through
    [str.upper]. (Every collected language has a packed text, and no other
    collected language has the hash of the queried one.) *)
Theorem query_returns_first_match (tasks_data : list TaskData) (blob : bytes)
    (lang tid st : str) (key : bytes) (code : Z) :
  pack_multiple_translations md5 zlib_compress set_iter tasks_data = Ret blob ->
  (forall l, In l (collect_languages tasks_data) ->
     exists t c x, In (l, t, c, x) (packed_triples tasks_data)) ->
  (forall l, In l (collect_languages tasks_data) ->
     deterministic_hash md5 l = deterministic_hash md5 lang -> l = lang) ->
  query_task_id_bytes tid = Ret key ->
  source_type_code upper st = Some code ->
  query_text md5 zlib_decompress upper blob lang tid st
  = Ret (option_map tr_text
           (find (matches lang key code) (packed_triples tasks_data))).
Proof.
  intros Hpack Hcover Hinj Hkey Hcode.
  rewrite (query_lookup md5 zlib_compress zlib_decompress upper set_iter
             zlib_roundtrip tasks_data blob lang tid st Hpack Hcover Hinj).
  unfold lookup_packed. rewrite Hkey, Hcode. reflexivity.
Qed.

(** X2: a query finds nothing it was not given: when no packed translation
    of the queried language and source type has the eight-byte key of the
    queried task id (so, for a language or a task that is not in the input),
    the result is [None]. *)
Theorem query_absent_returns_None (tasks_data : list TaskData) (blob : bytes)
    (lang tid st : str) (code : Z) :
  pack_multiple_translations md5 zlib_compress set_iter tasks_data = Ret blob ->
  (forall l, In l (collect_languages tasks_data) ->
     exists t c x, In (l, t, c, x) (packed_triples tasks_data)) ->
  (forall l, In l (collect_languages tasks_data) ->
     deterministic_hash md5 l = deterministic_hash md5 lang -> l = lang) ->
  source_type_code upper st = Some code ->
  (forall t x, In (lang, t, code, x) (packed_triples tasks_data) ->
     pack_task_id_bytes t <> query_task_id_bytes tid) ->
  query_text md5 zlib_decompress upper blob lang tid st = Ret None.
Proof.
  intros Hpack Hcover Hinj Hcode Habs.
  rewrite (query_lookup md5 zlib_compress zlib_decompress upper set_iter
             zlib_roundtrip tasks_data blob lang tid st Hpack Hcover Hinj).
  unfold lookup_packed. rewrite Hcode.
  destruct (query_task_id_bytes tid) as [key | e] eqn:Hkey; [| reflexivity].
  rewrite find_none; [reflexivity |].
  intros [[[l t] c] x] Hin. unfold matches, key_is, tr_lang, tr_task, tr_code.
  cbn [fst snd].
  destruct (str_eqb l lang) eqn:El; [| reflexivity].
  destruct (Z.eqb_spec c code) as [Ec | _]; [| apply andb_false_r].
  apply str_eqb_eq in El. subst l c.
  destruct (pack_task_id_bytes t) as [k |] eqn:Hk; [| reflexivity].
  destruct (bytes_eqb k key) eqn:Ek; [| reflexivity].
  apply bytes_eqb_eq in Ek. subst k. exfalso.
  apply (Habs t x Hin). rewrite Hk. reflexivity.
Qed.


End Semantics.

Lemma query_returns_first_match_witness :
  exists blob,
    sample_pack [Examples.task_0001_a; Examples.task_0001_b] = Ret blob
    /\ sample_query blob (lit "en") (lit "task-0001-b") (lit "text")
       = Ret (Some (lit "first")).
Proof.
  destruct (sample_pack [Examples.task_0001_a; Examples.task_0001_b])
    as [blob | e] eqn:E; [| vm_compute in E; discriminate E].
  exists blob. split; [reflexivity |].
  unfold sample_query.
  rewrite (query_returns_first_match sample_md5 sample_compress
             sample_decompress sample_upper sample_iter
             Examples.sample_zlib_roundtrip
             [Examples.task_0001_a; Examples.task_0001_b] blob (lit "en")
             (lit "task-0001-b") (lit "text")
             [x74; x61; x73; x6b; x2d; x30; x30; x30] 0 E).
  - vm_compute. reflexivity.
  - apply Examples.all_covered_sound. vm_compute. reflexivity.
  - apply Examples.hash_clash_sound. vm_compute. reflexivity.
  - vm_compute. reflexivity.
  - vm_compute. reflexivity.
Defined.

Lemma query_absent_returns_None_witness :
  exists blob,
    sample_pack [Examples.task_long; Examples.task_T2] = Ret blob
    /\ sample_query blob (lit "de") (lit "T2") (lit "TEXT") = Ret None
    /\ sample_query blob (lit "fr") (lit "T3") (lit "TEXT") = Ret None
    /\ sample_query blob (lit "fr") (lit "T2") (lit "AUDIO") = Ret None.
Proof.
  destruct (sample_pack [Examples.task_long; Examples.task_T2])
    as [blob | e] eqn:E; [| vm_compute in E; discriminate E].
  exists blob. split; [reflexivity |].
  assert (Hc := Examples.all_covered_sound [Examples.task_long; Examples.task_T2]
                  eq_refl).
  repeat split.
  - apply (query_absent_returns_None sample_md5 sample_compress
             sample_decompress sample_upper sample_iter
             Examples.sample_zlib_roundtrip _ blob (lit "de") (lit "T2")
             (lit "TEXT") 0 E Hc).
    + apply Examples.hash_clash_sound. vm_compute. reflexivity.
    + reflexivity.
    + intros t x Hin. vm_compute in Hin. 
      repeat (destruct Hin as [Hin | Hin]; [discriminate Hin |]). destruct Hin.
  - apply (query_absent_returns_None sample_md5 sample_compress
             sample_decompress sample_upper sample_iter
             Examples.sample_zlib_roundtrip _ blob (lit "fr") (lit "T3")
             (lit "TEXT") 0 E Hc).
    + apply Examples.hash_clash_sound. vm_compute. reflexivity.
    + reflexivity.
    + intros t x Hin. vm_compute in Hin.
      repeat (destruct Hin as [Hin | Hin];
              [first [discriminate Hin
                     | inversion Hin; subst; vm_compute; discriminate] |]).
      destruct Hin.
  - apply (query_absent_returns_None sample_md5 sample_compress
             sample_decompress sample_upper sample_iter
             Examples.sample_zlib_roundtrip _ blob (lit "fr") (lit "T2")
             (lit "AUDIO") 1 E Hc).
    + apply Examples.hash_clash_sound. vm_compute. reflexivity.
    + reflexivity.
    + intros t x Hin. vm_compute in Hin.
      repeat (destruct Hin as [Hin | Hin];
              [first [discriminate Hin
                     | inversion Hin; subst; vm_compute; discriminate] |]).
      destruct Hin.
Defined.


End QueryFacts.
Module LayoutExtraFacts.
Import TextPacker PyFacts LayoutFacts PackedFormat PackedFormatFacts.

Lemma list_sum_cons (a : nat) (l : list nat) :
  list_sum (a :: l) = (a + list_sum l)%nat.
Proof. reflexivity. Qed.

Lemma list_sum_filter (ks : list str) (trs : list (str * str * Z * str)) :
  NoDup ks ->
  (forall tr, In tr trs -> In (tr_lang tr) ks) ->
  list_sum (List.map (fun k => length (filter (fun tr => str_eqb (tr_lang tr) k)
                                         trs)) ks)
  = length trs.
Proof.
  intros Hnd. revert trs. induction Hnd as [| k r Hk Hnd IH]; intros trs Hin.
  - destruct trs as [| tr trs]; [reflexivity |].
    destruct (Hin tr (or_introl eq_refl)).
  - cbn [List.map]. rewrite list_sum_cons.
    rewrite <- (filter_length (fun tr => str_eqb (tr_lang tr) k) trs).
    f_equal.
    rewrite <- (IH (filter (fun tr => negb (str_eqb (tr_lang tr) k)) trs)).
    + f_equal. apply map_ext_in. intros k' Hk'. f_equal.
      induction trs as [| tr trs IHt]; [reflexivity |].
      cbn [filter].
      destruct (str_eqb (tr_lang tr) k) eqn:E; cbn [negb filter].
      * rewrite IHt by (intros x Hx; apply Hin; right; exact Hx).
        apply str_eqb_eq in E. rewrite E.
        replace (str_eqb k k') with false; [reflexivity |].
        symmetry. apply str_eqb_neq. intros ->. exact (Hk Hk').
      * rewrite IHt by (intros x Hx; apply Hin; right; exact Hx).
        reflexivity.
    + intros tr Htr. apply filter_In in Htr. destruct Htr as [Htr E].
      cbv beta in E.
      destruct (Hin tr Htr) as [Ek | H]; [| exact H].
      rewrite <- Ek, str_eqb_refl in E. discriminate.
Qed.

Section Layout.

Variable md5 : bytes -> bytes.
Variable zlib_compress : bytes -> bytes.
Variable set_iter : list str -> list str.

Lemma in_languages_of (trs : list (str * str * Z * str)) (l : str) :
  In l (languages_of trs) <-> exists tr, In tr trs /\ tr_lang tr = l.
Proof.
  unfold languages_of. rewrite set_update_in, in_map_iff.
  split.
  - intros [[] | (tr & E & H)]. exists tr. auto.
  - intros (tr & H & E). right. exists tr. auto.
Qed.

Lemma languages_of_nodup (trs : list (str * str * Z * str)) :
  NoDup (languages_of trs).
Proof. apply set_update_nodup. constructor. Qed.

(** The keys of [lang_data] after the loop are the languages of the packed
    translations. *)
Lemma lang_data_keys (trs : list (str * str * Z * str)) (ps : PackState) :
  pack_inv zlib_compress trs ps -> pack_ord zlib_compress trs ps ->
  NoDup (sorted (List.map fst (lang_data ps)))
  /\ (forall l, In l (sorted (List.map fst (lang_data ps)))
                <-> In l (languages_of trs))
  /\ len (sorted (List.map fst (lang_data ps))) = len (languages_of trs).
Proof.
  intros [_ _ _ Ikeys Inodup] [_ Oent _].
  pose proof (sorted_permutation (List.map fst (lang_data ps))) as Hperm.
  assert (Hnd : NoDup (sorted (List.map fst (lang_data ps)))).
  { apply (Permutation_NoDup (Permutation_sym Hperm)), Inodup. }
  assert (Hiff : forall l, In l (sorted (List.map fst (lang_data ps)))
                           <-> In l (languages_of trs)).
  { intros l. rewrite in_languages_of. split.
    - intros H. apply (Permutation_in _ Hperm) in H. apply Ikeys in H.
      pose proof (Oent l) as HF.
      destruct (filter (fun tr => str_eqb (tr_lang tr) l) trs) as [| tr r] eqn:E.
      + inversion HF as [E1 |]. congruence.
      + exists tr.
        assert (Hin : In tr (filter (fun tr => str_eqb (tr_lang tr) l) trs))
          by (rewrite E; left; reflexivity).
        apply filter_In in Hin. destruct Hin as [Hin El].
        apply str_eqb_eq in El. auto.
    - intros (tr & Hin & El).
      apply (Permutation_in _ (Permutation_sym Hperm)). apply Ikeys.
      intros K. pose proof (Forall2_length (Oent l)) as HL. rewrite K in HL.
      assert (Hf : In tr (filter (fun tr => str_eqb (tr_lang tr) l) trs)).
      { apply filter_In. split; [exact Hin |]. apply str_eqb_eq, El. }
      destruct (filter (fun tr => str_eqb (tr_lang tr) l) trs);
        [destruct Hf | discriminate HL]. }
  split; [exact Hnd |]. split; [exact Hiff |].
  unfold len. f_equal. apply Permutation_length.
  apply NoDup_Permutation; [exact Hnd | apply languages_of_nodup | exact Hiff].
Qed.

(** The sizes of the two indexes and the content of the text data, after
    the loops. *)
Lemma index_lengths (tasks_data : list TaskData) (ps : PackState)
    (lid tix : bytes) :
  pack_tasks zlib_compress (mkState [] [] 0) tasks_data = Ret ps ->
  build_index md5 (sorted (List.map fst (lang_data ps))) (lang_data ps)
    [] [] 0 = Ret (lid, tix) ->
  len lid = 12 * len (languages_of (packed_triples tasks_data))
  /\ len tix = TEXT_INDEX_ITEM_SIZE * len (packed_triples tasks_data)
  /\ text_data_parts ps
     = compressed_texts zlib_compress (packed_triples tasks_data).
Proof.
  intros Hst Hix.
  pose proof (pack_tasks_inv zlib_compress tasks_data _ ps []
                (pack_inv_init zlib_compress) Hst) as Inv.
  pose proof (pack_tasks_ord zlib_compress tasks_data _ ps []
                (pack_ord_init zlib_compress) Hst) as Ord.
  cbn [app] in Inv, Ord.
  destruct (lang_data_keys _ _ Inv Ord) as (Hnd & Hkeys & Hcount).
  destruct Ord as [_ Oent Oparts].
  set (trs := packed_triples tasks_data) in *.
  set (d := lang_data ps) in *.
  set (ks := sorted (List.map fst d)) in *.
  apply build_index_spec in Hix. destruct Hix as (Hok & Hlid & Htix).
  cbn [app] in Hlid, Htix.
  split; [| split; [| exact Oparts]].
  - rewrite Hlid, (len_concat_uniform 12), <- Hcount.
    + unfold len. rewrite lang_chunks_length. lia.
    + intros x Hx. apply (lang_chunks_len md5 d ks 0 x Hx).
  - rewrite Htix, (len_concat_uniform TEXT_INDEX_ITEM_SIZE).
    + unfold len at 1. rewrite length_flat_map.
      rewrite (map_ext_in _ (fun k => length (filter (fun tr => str_eqb (tr_lang tr) k) trs))).
      * rewrite list_sum_filter; [unfold len; lia | exact Hnd |].
        intros tr Htr. apply Hkeys, in_languages_of. exists tr. auto.
      * intros k _. unfold text_chunks. rewrite length_map.
        apply (Forall2_length (Oent k)).
    + intros x Hx. apply in_flat_map in Hx. destruct Hx as (k & Hk & Hx).
      destruct (chunks_ok_in md5 d ks 0 k Hok Hk) as [_ Hitems].
      apply (text_chunks_len d k x Hitems Hx).
Qed.

(** X4: the layout of a packed blob. The header holds the version 4, the
    number of languages of the translation maps, and two offsets; the
    language index (12 bytes for every language that has a packed text) and
    the text index (20 bytes for every packed translation) lie between the
    two offsets; the text data, from the second offset to the end of the
    blob, is the concatenation of the compressed texts in packing order. *)
Theorem packed_blob_layout (tasks_data : list TaskData) (blob : bytes) :
  pack_multiple_translations md5 zlib_compress set_iter tasks_data = Ret blob ->
  unpack_uint blob 0 4 = version
  /\ header_lang_count blob = len (collect_languages tasks_data)
  /\ HEADER_SIZE <= header_lang_index_offset blob
  /\ header_text_data_offset blob
     = header_lang_index_offset blob
       + 12 * len (languages_of (packed_triples tasks_data))
       + TEXT_INDEX_ITEM_SIZE * len (packed_triples tasks_data)
  /\ len blob
     = header_text_data_offset blob
       + len (concat (compressed_texts zlib_compress
                        (packed_triples tasks_data)))
  /\ slice blob (header_text_data_offset blob) (len blob)
     = concat (compressed_texts zlib_compress (packed_triples tasks_data)).
Proof.
  intros Hpack.
  destruct (collect_languages tasks_data) as [| l0 ls] eqn:EL.
  { destruct (pack_no_language _ _ _ _ _ Hpack EL) as [-> ->].
    repeat split; try reflexivity. }
  rewrite <- EL in *.
  destruct (pack_unfold md5 zlib_compress set_iter tasks_data blob Hpack)
    as (lt & ps & lid & tix & h & _ & Hst & Hix & Hh & Hblob).
  { rewrite EL. discriminate. }
  destruct (index_lengths tasks_data ps lid tix Hst Hix)
    as (Llid & Ltix & Oparts).
  set (trs := packed_triples tasks_data) in *.
  apply pack_IIII_inv in Hh. destruct Hh as (Hh & Rv & Rn & Rlio & Rtdo).
  destruct (header_fields version (len (collect_languages tasks_data))
              (HEADER_SIZE + len lt)
              (HEADER_SIZE + len lt + len lid + len tix)
              (lt ++ lid ++ tix ++ concat (text_data_parts ps)) Rn Rlio Rtdo)
    as (Hlen & Hcnt & Hlio & Htdo).
  rewrite <- Hh, <- Hblob in Hlen, Hcnt, Hlio, Htdo.
  assert (Lh : len h = HEADER_SIZE).
  { rewrite Hh, !len_app, !len_le_bytes. reflexivity. }
  assert (Lblob : len blob
                  = HEADER_SIZE + len lt + len lid + len tix
                    + len (concat (text_data_parts ps))).
  { rewrite Hblob, !len_app, Lh. lia. }
  rewrite Hcnt, Hlio, Htdo, <- Oparts.
  split.
  { apply (unpack_field blob [] (le_bytes 4 (len (collect_languages tasks_data))
                                 ++ le_bytes 4 (HEADER_SIZE + len lt)
                                 ++ le_bytes 4 (HEADER_SIZE + len lt + len lid
                                                + len tix)
                                 ++ lt ++ lid ++ tix
                                 ++ concat (text_data_parts ps)) 4 version);
      [ rewrite Hblob, Hh, <- !app_assoc; reflexivity
      | reflexivity | reflexivity | exact Rv ]. }
  split; [reflexivity |].
  split; [pose proof (len_nonneg lt); lia |].
  split; [lia |].
  split; [lia |].
  apply (slice_in blob (h ++ lt ++ lid ++ tix) (concat (text_data_parts ps)) []).
  - rewrite Hblob, app_nil_r, <- !app_assoc. reflexivity.
  - rewrite !len_app, Lh. lia.
  - lia.
Qed.

End Layout.

Lemma packed_blob_layout_witness :
  exists blob,
    sample_pack [Examples.task_long; Examples.task_T2] = Ret blob
    /\ header_lang_count blob = 3
    /\ header_text_data_offset blob
       = header_lang_index_offset blob + 12 * 3 + 20 * 5
    /\ len blob = header_text_data_offset blob + 41.
Proof.
  destruct (sample_pack [Examples.task_long; Examples.task_T2])
    as [blob | e] eqn:E; [| vm_compute in E; discriminate E].
  exists blob. split; [reflexivity |].
  destruct (packed_blob_layout sample_md5 sample_compress sample_iter
              [Examples.task_long; Examples.task_T2] blob E)
    as (_ & Hc & _ & Ht & Hl & _).
  split; [exact Hc |]. split; [exact Ht | exact Hl].
Defined.

End LayoutExtraFacts.
Module PackTotalFacts.
Import TextPacker PyFacts LayoutFacts PackedFormat PackedFormatFacts.
Import LayoutExtraFacts.

(** ** Encoding *)

Lemma utf8_encode_char_scalar (c : Z) :
  is_scalar c = true -> exists b, utf8_encode_char c = Ret b.
Proof.
  unfold is_scalar, utf8_encode_char. intros H.
  apply andb_true_iff in H. destruct H as [H Hs].
  apply andb_true_iff in H. destruct H as [H0 H1].
  apply Z.leb_le in H0. apply Z.ltb_lt in H1. apply negb_true_iff in Hs.
  destruct (Z.ltb_spec c 0); [lia |].
  destruct (c <? 128); [eexists; reflexivity |].
  destruct (c <? 2048); [eexists; reflexivity |].
  destruct (c <? 65536); [rewrite Hs; eexists; reflexivity |].
  destruct (Z.ltb_spec c 1114112); [eexists; reflexivity | lia].
Qed.

Lemma utf8_encode_encodable (s : str) :
  encodable s = true -> utf8_encode s = Ret (enc_val s).
Proof.
  intros H.
  assert (K : exists b, utf8_encode s = Ret b).
  { induction s as [| c r IH]; [exists []; reflexivity |].
    cbn [encodable forallb] in H. apply andb_true_iff in H.
    destruct H as [Hc Hr].
    destruct (utf8_encode_char_scalar c Hc) as (bc & Ec).
    destruct (IH Hr) as (br & Er).
    exists (bc ++ br). cbn [utf8_encode]. rewrite Ec, Er. reflexivity. }
  destruct K as (b & E). rewrite (enc_val_eq _ _ E). exact E.
Qed.

Lemma le_value_bound (b : bytes) : 0 <= le_value b < 256 ^ len b.
Proof.
  induction b as [| x r IH].
  - simpl. lia.
  - cbn [le_value]. rewrite len_cons.
    rewrite Z.pow_add_r by (try lia; apply len_nonneg).
    pose proof (byte_val_range x). change (256 ^ 1) with 256. nia.
Qed.

Lemma deterministic_hash_range (md5 : bytes -> bytes) (text : str) (h : Z) :
  deterministic_hash md5 text = Ret h -> 0 <= h < 256 ^ 4.
Proof.
  unfold deterministic_hash. intros H.
  apply bind_ret_inv in H. destruct H as (b & _ & H). apply Ret_inj in H.
  subst h. unfold be_value.
  pose proof (le_value_bound (rev (firstn 4 (md5 b)))) as [H0 H1].
  split; [exact H0 |].
  eapply Z.lt_le_trans; [exact H1 |].
  apply Z.pow_le_mono_r; [lia |].
  unfold len. rewrite length_rev, length_firstn. lia.
Qed.

(** ** The language table *)

Lemma build_lang_table_spec (langs : list str) (acc lt : bytes) :
  build_lang_table langs acc = Ret lt ->
  lt = acc ++ concat (List.map lang_entry langs).
Proof.
  revert acc. induction langs as [| l r IH]; intros acc H.
  - simpl in H. apply Ret_inj in H. subst. simpl. rewrite app_nil_r.
    reflexivity.
  - cbn [build_lang_table] in H.
    apply bind_ret_inv in H. destruct H as (lb & Hlb & H).
    apply bind_ret_inv in H. destruct H as (n & Hn & H).
    apply IH in H. apply pack_uint_inv in Hn. destruct Hn as [-> _].
    rewrite H. cbn [List.map concat]. unfold lang_entry.
    rewrite (enc_val_eq _ _ Hlb), <- !app_assoc. reflexivity.
Qed.

Lemma build_lang_table_ok (langs : list str) (acc : bytes) :
  (forall l, In l langs -> encodable l = true /\ len (enc_val l) < 65536) ->
  build_lang_table langs acc
  = Ret (acc ++ concat (List.map lang_entry langs)).
Proof.
  revert acc. induction langs as [| l r IH]; intros acc H.
  - simpl. rewrite app_nil_r. reflexivity.
  - destruct (H l (or_introl eq_refl)) as [He Hl].
    cbn [build_lang_table]. rewrite (utf8_encode_encodable l He). cbn [bind].
    rewrite pack_uint_ok
      by (split; [apply len_nonneg | change (256 ^ Z.of_nat 2) with 65536; exact Hl]).
    cbn [bind]. rewrite IH by (intros l' Hl'; apply H; right; exact Hl').
    cbn [List.map concat]. unfold lang_entry at 2.
    rewrite <- !app_assoc. reflexivity.
Qed.

Lemma lang_entry_len (l : str) :
  len (enc_val l) <= 6 -> len (lang_entry l) = 8.
Proof.
  intros H. unfold lang_entry, ljust. rewrite !len_app, len_le_bytes.
  unfold len in *. rewrite repeat_length. lia.
Qed.

Lemma lang_entry_len_ge (l : str) : 8 <= len (lang_entry l).
Proof.
  unfold lang_entry, ljust. rewrite !len_app, len_le_bytes.
  unfold len. rewrite repeat_length. lia.
Qed.

Section Table.

Variable md5 : bytes -> bytes.
Variable zlib_compress : bytes -> bytes.
Variable set_iter : list str -> list str.

Hypothesis set_iter_perm : forall l, Permutation (set_iter l) l.

(** X5: the language table stands between the header and the language
    index and holds one entry per language of the translation maps, in the
    order of [sorted]: the length of the encoded code on two bytes, then
    the code padded with NUL to six bytes. When no code is longer than six
    bytes the entries have eight bytes each, so the language index starts at
    16 + 8 * langCount. *)
Theorem language_table_layout (tasks_data : list TaskData) (blob : bytes) :
  pack_multiple_translations md5 zlib_compress set_iter tasks_data = Ret blob ->
  slice blob HEADER_SIZE (header_lang_index_offset blob)
  = concat (List.map lang_entry (sorted (collect_languages tasks_data)))
  /\ ((forall l, In l (collect_languages tasks_data) ->
         len (enc_val l) <= 6) ->
      header_lang_index_offset blob
      = HEADER_SIZE + 8 * header_lang_count blob).
Proof.
  intros Hpack.
  destruct (collect_languages tasks_data) as [| l0 ls] eqn:EL.
  { destruct (pack_no_language _ _ _ _ _ Hpack EL) as [-> _].
    split; [reflexivity | intros _; reflexivity]. }
  rewrite <- EL in *.
  destruct (pack_unfold md5 zlib_compress set_iter tasks_data blob Hpack)
    as (lt & ps & lid & tix & h & Hlt & _ & _ & Hh & Hblob).
  { rewrite EL. discriminate. }
  apply build_lang_table_spec in Hlt. cbn [app] in Hlt.
  rewrite (sorted_perm _ _ (set_iter_perm (collect_languages tasks_data)))
    in Hlt.
  apply pack_IIII_inv in Hh. destruct Hh as (Hh & _ & Rn & Rlio & Rtdo).
  destruct (header_fields version (len (collect_languages tasks_data))
              (HEADER_SIZE + len lt)
              (HEADER_SIZE + len lt + len lid + len tix)
              (lt ++ lid ++ tix ++ concat (text_data_parts ps)) Rn Rlio Rtdo)
    as (_ & Hcnt & Hlio & _).
  rewrite <- Hh, <- Hblob in Hcnt, Hlio.
  assert (Lh : len h = HEADER_SIZE).
  { rewrite Hh, !len_app, !len_le_bytes. reflexivity. }
  rewrite Hlio, Hcnt. split.
  - rewrite <- Hlt.
    apply (slice_in blob h lt (lid ++ tix ++ concat (text_data_parts ps)));
      [exact Hblob | symmetry; exact Lh | reflexivity].
  - intros Hshort. f_equal.
    rewrite Hlt, (len_concat_uniform 8).
    + unfold len. rewrite length_map.
      rewrite (Permutation_length (sorted_permutation _)). lia.
    + intros x Hx. apply in_map_iff in Hx. destruct Hx as (l & <- & Hl).
      apply lang_entry_len, Hshort.
      apply (Permutation_in _ (sorted_permutation _) Hl).
Qed.

End Table.

Lemma language_table_layout_witness :
  exists blob,
    sample_pack [Examples.task_long; Examples.task_T2] = Ret blob
    /\ slice blob 16 (header_lang_index_offset blob)
       = [x02; x00; x65; x6e; x00; x00; x00; x00;
          x02; x00; x66; x72; x00; x00; x00; x00;
          x05; x00; x7a; x68; x2d; x63; x6e; x00]
    /\ header_lang_index_offset blob = 16 + 8 * header_lang_count blob.
Proof.
  destruct (sample_pack [Examples.task_long; Examples.task_T2])
    as [blob | e] eqn:E; [| vm_compute in E; discriminate E].
  exists blob. split; [reflexivity |].
  destruct (language_table_layout sample_md5 sample_compress sample_iter
              (fun l => Permutation_sym (Permutation_rev l))
              [Examples.task_long; Examples.task_T2] blob E) as [Ht Ho].
  split; [exact Ht |].
  apply Ho. intros l Hl. vm_compute in Hl.
  repeat (destruct Hl as [<- | Hl]; [vm_compute; discriminate |]).
  destruct Hl.
Defined.

(** ** When packing returns *)

Lemma Forall2_in_l {A B : Type} (R : A -> B -> Prop) (l : list A)
    (l' : list B) (a : A) :
  Forall2 R l l' -> In a l -> exists b, In b l' /\ R a b.
Proof.
  induction 1 as [| x y r r' Hxy _ IH]; intros Hin; [destruct Hin |].
  destruct Hin as [<- | Hin].
  - exists y. split; [left; reflexivity | exact Hxy].
  - destruct (IH Hin) as (b & Hb & Hr). exists b. split; [right |]; assumption.
Qed.

Lemma pack_text_index_ok (texts : list TextInfo) (tid : bytes) (off : Z) :
  (forall e, In e texts ->
     0 <= ti_offset e < 256 ^ 4 /\ 0 <= ti_length e < 256 ^ 4
     /\ 0 <= ti_source_type e < 256 ^ 2) ->
  exists tid',
    pack_text_index texts tid off
    = Ret (tid', off + TEXT_INDEX_ITEM_SIZE * len texts).
Proof.
  revert tid off. induction texts as [| e r IH]; intros tid off H.
  - exists tid. simpl. f_equal. f_equal. unfold len. simpl. lia.
  - destruct (H e (or_introl eq_refl)) as (Ho & Hl & Hs).
    cbn [pack_text_index]. unfold pack_text_info.
    rewrite !pack_uint_ok by (assumption || (change (Z.of_nat 2) with 2; lia)).
    cbn [bind].
    destruct (IH (tid ++ ljust 8 (firstn 8 (ti_task_id_bytes e))
                    ++ le_bytes 4 (ti_offset e) ++ le_bytes 4 (ti_length e)
                    ++ le_bytes 2 (ti_source_type e) ++ le_bytes 2 0)
                (off + TEXT_INDEX_ITEM_SIZE)) as (tid' & E).
    { intros e' He'. apply H. right. exact He'. }
    exists tid'. rewrite E. f_equal. f_equal. rewrite len_cons. lia.
Qed.

Lemma lang_table_len_ge (langs : list str) :
  8 * len langs <= len (concat (List.map lang_entry langs)).
Proof.
  induction langs as [| l r IH]; [unfold len; simpl; lia |].
  cbn [List.map concat]. rewrite len_app, len_cons.
  pose proof (lang_entry_len_ge l). lia.
Qed.

Section Total.

Variable md5 : bytes -> bytes.
Variable zlib_compress : bytes -> bytes.
Variable set_iter : list str -> list str.

Hypothesis set_iter_perm : forall l, Permutation (set_iter l) l.

Lemma pack_texts_ok (kb : bytes) (code : Z) (st : PackState) (d : dict) :
  (forall it, In it d -> encodable (snd it) = true) ->
  exists st', pack_texts zlib_compress kb code st d = Ret st'.
Proof.
  revert st. induction d as [| [l text] r IH]; intros st H.
  - exists st. reflexivity.
  - cbn [pack_texts]. unfold pack_text.
    rewrite (utf8_encode_encodable text (H (l, text) (or_introl eq_refl))).
    cbn [bind]. apply IH. intros it Hit. apply H. right. exact Hit.
Qed.

Lemma tag_texts (tid : str) (c : Z) (d : dict) (it : str * str) :
  In it d -> In (fst it, tid, c, snd it) (tag tid c d).
Proof.
  intros H. unfold tag. apply in_map_iff. exists it. auto.
Qed.

Lemma pack_task_ok (st : PackState) (t : TaskData) :
  encodable (task_id t) = true ->
  (forall tr, In tr (packed_of_task t) -> encodable (tr_text tr) = true) ->
  exists st', pack_task zlib_compress st t = Ret st'.
Proof.
  intros Hid Htx. unfold pack_task, pack_task_id_bytes.
  rewrite (utf8_encode_encodable _ Hid). cbn [bind].
  unfold packed_of_task in Htx.
  destruct (truthy_str (original_text t)
            && truthy_dict (original_translations t)).
  - destruct (pack_texts_ok (ljust 8 (firstn 8 (enc_val (task_id t)))) 0 st
                (items (original_translations t))) as (st1 & E1).
    { intros it Hit.
      apply (Htx (fst it, task_id t, 0, snd it)).
      apply in_or_app. left. apply tag_texts, Hit. }
    rewrite E1. cbn [bind].
    destruct (truthy_str (stt_text t) && truthy_dict (stt_translations t)).
    + apply pack_texts_ok. intros it Hit.
      apply (Htx (fst it, task_id t, 1, snd it)).
      apply in_or_app. right. apply tag_texts, Hit.
    + exists st1. reflexivity.
  - cbn [bind].
    destruct (truthy_str (stt_text t) && truthy_dict (stt_translations t)).
    + apply pack_texts_ok. intros it Hit.
      apply (Htx (fst it, task_id t, 1, snd it)).
      apply in_or_app. right. apply tag_texts, Hit.
    + exists st. reflexivity.
Qed.

Lemma pack_tasks_ok (st : PackState) (tasks_data : list TaskData) :
  (forall t, In t tasks_data -> encodable (task_id t) = true) ->
  (forall tr, In tr (packed_triples tasks_data) ->
     encodable (tr_text tr) = true) ->
  exists st', pack_tasks zlib_compress st tasks_data = Ret st'.
Proof.
  revert st. induction tasks_data as [| t r IH]; intros st Hid Htx.
  - exists st. reflexivity.
  - cbn [pack_tasks].
    destruct (pack_task_ok st t (Hid t (or_introl eq_refl))) as (st1 & E1).
    { intros tr Htr. apply Htx. unfold packed_triples. cbn [flat_map].
      apply in_or_app. left. exact Htr. }
    rewrite E1. cbn [bind]. apply IH.
    + intros t' Ht'. apply Hid. right. exact Ht'.
    + intros tr Htr. apply Htx. unfold packed_triples. cbn [flat_map].
      apply in_or_app. right. exact Htr.
Qed.

Lemma build_index_ok (langs : list str) (d : list (str * list TextInfo))
    (lid tid : bytes) (off : Z) :
  (forall k, In k langs -> encodable k = true) ->
  (forall k e, In k langs -> In e (lang_data_get d k) ->
     0 <= ti_offset e < 256 ^ 4 /\ 0 <= ti_length e < 256 ^ 4
     /\ 0 <= ti_source_type e < 256 ^ 2) ->
  0 <= off ->
  off + TEXT_INDEX_ITEM_SIZE * len (flat_map (lang_data_get d) langs)
    < 256 ^ 4 ->
  exists p, build_index md5 langs d lid tid off = Ret p.
Proof.
  revert lid tid off. induction langs as [| k r IH];
    intros lid tid off Henc Hrange Hoff Hsize.
  - eexists. reflexivity.
  - cbn [flat_map] in Hsize. rewrite len_app in Hsize.
    pose proof (len_nonneg (lang_data_get d k)) as Hk0.
    pose proof (len_nonneg (flat_map (lang_data_get d) r)) as Hr0.
    unfold TEXT_INDEX_ITEM_SIZE in *.
    cbn [build_index].
    destruct (deterministic_hash md5 k) as [h | e] eqn:Eh.
    2:{ unfold deterministic_hash in Eh.
        rewrite (utf8_encode_encodable k (Henc k (or_introl eq_refl))) in Eh.
        discriminate Eh. }
    cbn [bind]. pose proof (deterministic_hash_range md5 k h Eh) as Rh.
    unfold pack_III.
    rewrite !pack_uint_ok by (change (Z.of_nat 4) with 4; lia).
    cbn [bind].
    destruct (pack_text_index_ok (lang_data_get d k) tid off) as (tid' & E).
    { intros e He. apply (Hrange k e); [left; reflexivity | exact He]. }
    rewrite E. cbn [bind fst snd]. apply IH.
    + intros k' Hk'. apply Henc. right. exact Hk'.
    + intros k' e Hk' He. apply (Hrange k' e); [right |]; assumption.
    + unfold TEXT_INDEX_ITEM_SIZE. lia.
    + unfold TEXT_INDEX_ITEM_SIZE. lia.
Qed.

(** X6: packing returns a blob, of the size that the layout gives, as soon
    as every task id, every language code and every packed text is made of
    Unicode scalar values, no encoded language code has 65536 bytes or more,
    and that size is below 2^32; no exception leaves
    [pack_multiple_translations] then. *)
Theorem pack_succeeds (tasks_data : list TaskData) :
  (forall t, In t tasks_data -> encodable (task_id t) = true) ->
  (forall l, In l (collect_languages tasks_data) ->
     encodable l = true /\ len (enc_val l) < 65536) ->
  (forall tr, In tr (packed_triples tasks_data) ->
     encodable (tr_text tr) = true) ->
  blob_size zlib_compress tasks_data < 2 ^ 32 ->
  exists blob,
    pack_multiple_translations md5 zlib_compress set_iter tasks_data = Ret blob
    /\ len blob = blob_size zlib_compress tasks_data.
Proof.
  intros Hid Hlang Htx Hsize.
  destruct (collect_languages tasks_data) as [| l0 ls] eqn:EL.
  { exists empty_blob. split.
    - unfold pack_multiple_translations, pack_regions. rewrite EL.
      reflexivity.
    - assert (Hp : packed_triples tasks_data = []).
      { destruct (packed_triples tasks_data) as [| [[[l t] c] x] r] eqn:E;
          [reflexivity |]. exfalso.
        assert (Hin : In l (collect_languages tasks_data)).
        { apply (proj2 (collect_languages_spec tasks_data)). exists t, c, x.
          apply packed_in_input. rewrite E. left. reflexivity. }
        rewrite EL in Hin. destruct Hin. }
      unfold blob_size. rewrite EL, Hp. reflexivity. }
  rewrite <- EL in *.
  set (trs := packed_triples tasks_data) in *.
  set (langs := sorted (collect_languages tasks_data)) in *.
  assert (Hsorted : sorted (set_iter (collect_languages tasks_data)) = langs).
  { apply sorted_perm, set_iter_perm. }
  assert (Hinl : forall l, In l langs -> In l (collect_languages tasks_data)).
  { intros l Hl. apply (Permutation_in _ (sorted_permutation _) Hl). }
  (* the language table *)
  assert (Hlt : build_lang_table langs []
                = Ret (concat (List.map lang_entry langs))).
  { apply (build_lang_table_ok langs []). intros l Hl. apply Hlang, Hinl, Hl. }
  set (lt := concat (List.map lang_entry langs)) in *.
  (* the loop over the tasks *)
  destruct (pack_tasks_ok (mkState [] [] 0) tasks_data Hid Htx) as (ps & Hst).
  pose proof (pack_tasks_inv zlib_compress tasks_data _ ps []
                (pack_inv_init zlib_compress) Hst) as Inv.
  pose proof (pack_tasks_ord zlib_compress tasks_data _ ps []
                (pack_ord_init zlib_compress) Hst) as Ord.
  cbn [app] in Inv, Ord. fold trs in Inv, Ord.
  destruct (lang_data_keys zlib_compress _ _ Inv Ord) as (Hnd & Hkeys & Hcount).
  pose proof (ord_entries _ _ _ Ord) as Oent.
  pose proof (ord_parts _ _ _ Ord) as Oparts.
  set (d := lang_data ps) in *.
  set (ks := sorted (List.map fst d)) in *.
  unfold blob_size in Hsize. fold trs langs lt in Hsize.
  pose proof (len_nonneg lt) as Hlt0.
  pose proof (len_nonneg (languages_of trs)) as Hlo0.
  pose proof (len_nonneg trs) as Htr0.
  pose proof (len_nonneg (concat (compressed_texts zlib_compress trs))) as Htd0.
  unfold HEADER_SIZE, TEXT_INDEX_ITEM_SIZE in Hsize.
  change (2 ^ 32) with (256 ^ 4) in Hsize.
  (* the two indexes *)
  assert (Hflat : len (flat_map (lang_data_get d) ks) = len trs).
  { unfold len. f_equal. rewrite length_flat_map.
    rewrite (map_ext_in _ (fun k => length (filter (fun tr => str_eqb (tr_lang tr) k) trs))).
    - apply list_sum_filter; [exact Hnd |].
      intros tr Htr. apply Hkeys, in_languages_of. exists tr. auto.
    - intros k _. apply (Forall2_length (Oent k)). }
  destruct (build_index_ok ks d [] [] 0) as ([lid tix] & Hix).
  { intros k Hk. apply Hkeys, in_languages_of in Hk.
    destruct Hk as ([[[l t] c] x] & Hin & <-).
    apply Hlang. apply (proj2 (collect_languages_spec tasks_data)).
    exists t, c, x. apply packed_in_input, Hin. }
  { intros k e Hk He.
    destruct (Forall2_in_l _ _ _ e (Oent k) He)
      as ([[[l t] c] x] & Hin & Hc & (tb & _ & _ & Hl & Ho & Hfit & _)).
    apply filter_In in Hin. destruct Hin as [Hin _].
    unfold tr_code in Hc. cbn [fst snd] in Hc.
    pose proof (packed_code _ _ _ _ _ Hin) as Hc01.
    pose proof (len_nonneg (zlib_compress tb)) as Hz0.
    rewrite Oparts in Hfit.
    change (256 ^ 2) with 65536. lia. }
  { lia. }
  { rewrite Hflat. unfold TEXT_INDEX_ITEM_SIZE. lia. }
  destruct (index_lengths md5 zlib_compress tasks_data ps lid tix Hst Hix)
    as (Llid & Ltix & _).
  fold trs in Llid, Ltix. unfold TEXT_INDEX_ITEM_SIZE in Ltix.
  (* the header *)
  assert (Hcnt : 8 * len (collect_languages tasks_data) <= len lt).
  { replace (len (collect_languages tasks_data)) with (len langs).
    - apply lang_table_len_ge.
    - unfold len. f_equal. apply Permutation_length, sorted_permutation. }
  pose proof (len_nonneg (collect_languages tasks_data)) as Hc0.
  exists ((le_bytes 4 version
           ++ le_bytes 4 (len (collect_languages tasks_data))
           ++ le_bytes 4 (HEADER_SIZE + len lt)
           ++ le_bytes 4 (HEADER_SIZE + len lt + len lid + len tix))
          ++ lt ++ lid ++ tix ++ concat (text_data_parts ps)).
  split.
  - unfold pack_multiple_translations, pack_regions.
    rewrite EL. cbv iota. rewrite <- EL.
    rewrite Hsorted, Hlt. cbn [bind]. rewrite Hst. cbn [bind].
    fold d ks. rewrite Hix. cbn [bind fst snd].
    unfold pack_IIII.
    rewrite !pack_uint_ok
      by (change (Z.of_nat 4) with 4; unfold version, HEADER_SIZE; lia).
    cbn [bind try_except]. unfold assemble.
    cbn [header lang_table lang_index_data text_index_data text_data].
    reflexivity.
  - rewrite !len_app, !len_le_bytes, Llid, Ltix, Oparts.
    unfold blob_size. fold trs langs lt.
    unfold HEADER_SIZE, TEXT_INDEX_ITEM_SIZE. lia.
Qed.

End Total.

Lemma pack_succeeds_witness :
  exists blob,
    sample_pack [Examples.task_long; Examples.task_T2] = Ret blob
    /\ len blob = 217.
Proof.
  destruct (pack_succeeds sample_md5 sample_compress sample_iter
              (fun l => Permutation_sym (Permutation_rev l))
              [Examples.task_long; Examples.task_T2])
    as (blob & Hb & Hl).
  - intros t [<- | [<- | []]]; reflexivity.
  - intros l Hl. vm_compute in Hl.
    repeat (destruct Hl as [<- | Hl]; [split; reflexivity |]).
    destruct Hl.
  - intros tr Htr. vm_compute in Htr.
    repeat (destruct Htr as [<- | Htr]; [reflexivity |]).
    destruct Htr.
  - vm_compute. reflexivity.
  - exists blob. split; [exact Hb | exact Hl].
Defined.

End PackTotalFacts.

(* ================================================================== *)
(** * Properties of the other statements on the task table *)
(* ================================================================== *)

Module DatabaseOpsFacts.
Import DatabaseService DatabaseOps PyFacts.

Lemma TaskStatus_of_value (s : TaskStatus) :
  TaskStatus_of (TaskStatus_value s) = Ret s.
Proof. destruct s; reflexivity. Qed.

Lemma TaskStatus_value_of (x : str) (s : TaskStatus) :
  TaskStatus_of x = Ret s -> TaskStatus_value s = x.
Proof.
  unfold TaskStatus_of.
  repeat match goal with
    | |- context [str_eqb x ?l] =>
        let E := fresh "E" in
        destruct (str_eqb x l) eqn:E;
        [ apply str_eqb_eq in E; intros H; apply Ret_inj in H; subst;
          reflexivity |]
    end.
  discriminate.
Qed.

(** An UPDATE is a map over the table. *)
Lemma update_where_map (table : list TranslationTask) (task_id : str)
    (set : TranslationTask -> TranslationTask) :
  fst (update_where table task_id set)
  = List.map (fun row => if str_eqb (id row) task_id then set row else row)
      table
  /\ (0 <? snd (update_where table task_id set))
     = existsb (fun row => str_eqb (id row) task_id) table
  /\ 0 <= snd (update_where table task_id set).
Proof.
  induction table as [| row r IH]; simpl.
  - repeat split. lia.
  - destruct IH as (IH1 & IH2 & IH3).
    destruct (update_where r task_id set) as [r' n]. simpl in *.
    destruct (str_eqb (id row) task_id); simpl.
    + rewrite IH1. repeat split; lia.
    + rewrite IH1. repeat split; assumption.
Qed.

Lemma map_unknown (table : list TranslationTask) (task_id : str)
    (set : TranslationTask -> TranslationTask) :
  existsb (fun row => str_eqb (id row) task_id) table = false ->
  List.map (fun row => if str_eqb (id row) task_id then set row else row) table
  = table.
Proof.
  induction table as [| row r IH]; simpl; [reflexivity |].
  intros H. apply orb_false_iff in H. destruct H as [H1 H2].
  rewrite H1, (IH H2). reflexivity.
Qed.

Lemma update_task_assigned_node_eq (table : list TranslationTask) (now : Z)
    (task_id node_id : str) :
  update_task_assigned_node table now task_id node_id
  = Ret (List.map (fun row => if str_eqb (id row) task_id
                              then assigned_values node_id now row else row)
           table,
         existsb (fun row => str_eqb (id row) task_id) table).
Proof.
  unfold update_task_assigned_node.
  destruct (update_where_map table task_id (assigned_values node_id now))
    as (H1 & H2 & _).
  destruct (update_where table task_id (assigned_values node_id now))
    as [t' n].
  cbn [fst snd] in *. rewrite H1, H2. reflexivity.
Qed.

Lemma increment_retry_count_eq (table : list TranslationTask) (now : Z)
    (task_id : str) :
  increment_retry_count table now task_id
  = Ret (List.map (fun row => if str_eqb (id row) task_id
                              then retry_values now row else row) table,
         existsb (fun row => str_eqb (id row) task_id) table).
Proof.
  unfold increment_retry_count.
  destruct (update_where_map table task_id (retry_values now))
    as (H1 & H2 & _).
  destruct (update_where table task_id (retry_values now)) as [t' n].
  cbn [fst snd] in *. rewrite H1, H2. reflexivity.
Qed.

Lemma update_task_status_eq (table : list TranslationTask) (now : Z)
    (task_id status : str) (st : TaskStatus) (rp em : option str)
    (acc : option Q) (tt : option str) :
  TaskStatus_of status = Ret st ->
  DatabaseService.update_task_status table now task_id status rp em acc tt
  = Ret (List.map
           (fun row => if str_eqb (id row) task_id
                       then written_row row st now rp em acc tt else row)
           table,
         existsb (fun row => str_eqb (id row) task_id) table).
Proof.
  intros Hst. unfold DatabaseService.update_task_status. rewrite Hst.
  destruct (DatabaseFacts.execute_update_map table task_id st now rp em acc tt)
    as (H1 & _ & H3).
  unfold bind, try_except.
  destruct (execute_update table task_id
              (update_data st now rp em acc tt)) as [t' n].
  cbn [fst snd] in H1, H3. rewrite H1, H3. reflexivity.
Qed.

(** X7: an update for a task id that no row has changes nothing and
    returns [False]: [update_task_status] (with a status of the
    enumeration), [update_task_assigned_node] and [increment_retry_count]
    leave the table as it was; no row is created. *)
Theorem update_of_unknown_task (table : list TranslationTask) (now : Z)
    (task_id status node_id : str) (st : TaskStatus) (rp em : option str)
    (acc : option Q) (tt : option str) :
  (forall row, In row table -> id row <> task_id) ->
  TaskStatus_of status = Ret st ->
  DatabaseService.update_task_status table now task_id status rp em acc tt
  = Ret (table, false)
  /\ update_task_assigned_node table now task_id node_id = Ret (table, false)
  /\ increment_retry_count table now task_id = Ret (table, false)
  /\ get_task_details table task_id = None.
Proof.
  intros Hun Hst.
  assert (Hex : existsb (fun row => str_eqb (id row) task_id) table = false).
  { destruct (existsb _ table) eqn:E; [| reflexivity].
    apply existsb_exists in E. destruct E as (row & Hin & E).
    apply str_eqb_eq in E. exfalso. exact (Hun row Hin E). }
  rewrite (update_task_status_eq _ _ _ _ st _ _ _ _ Hst),
    update_task_assigned_node_eq, increment_retry_count_eq, Hex,
    !map_unknown by exact Hex.
  repeat split.
  unfold get_task_details, select_where.
  replace (filter (fun row => str_eqb (id row) task_id) table) with
    (@nil TranslationTask); [reflexivity |].
  symmetry. clear - Hex. induction table as [| row r IH]; [reflexivity |].
  simpl in *. apply orb_false_iff in Hex. destruct Hex as [H1 H2].
  rewrite H1. apply IH, H2.
Qed.

Lemma update_of_unknown_task_witness :
  update_task_assigned_node
    [DatabaseFacts.sample_row (lit "T1"); DatabaseFacts.sample_row (lit "T2")]
    7 (lit "T3") (lit "whisper-node-1")
  = Ret ([DatabaseFacts.sample_row (lit "T1");
          DatabaseFacts.sample_row (lit "T2")], false).
Proof.
  refine (proj1 (proj2 (update_of_unknown_task
    [DatabaseFacts.sample_row (lit "T1"); DatabaseFacts.sample_row (lit "T2")]
    7 (lit "T3") (lit "FAILED") (lit "whisper-node-1") FAILED None None None
    None _ eq_refl))).
  intros row [<- | [<- | []]]; vm_compute; discriminate.
Defined.

(** The rows selected for an id, after an UPDATE that keeps ids. *)
Lemma select_where_map (table : list TranslationTask) (task_id tid : str)
    (set : TranslationTask -> TranslationTask) :
  (forall row, id (set row) = id row) ->
  select_where
    (List.map (fun row => if str_eqb (id row) task_id then set row else row)
       table) tid
  = List.map (fun row => if str_eqb (id row) task_id then set row else row)
      (select_where table tid).
Proof.
  intros Hid. unfold select_where.
  induction table as [| row r IH]; [reflexivity |].
  cbn [List.map filter].
  replace (id (if str_eqb (id row) task_id then set row else row))
    with (id row) by (destruct (str_eqb (id row) task_id); [rewrite Hid |]; reflexivity).
  destruct (str_eqb (id row) tid); cbn [List.map]; rewrite IH; reflexivity.
Qed.

Lemma select_where_id (table : list TranslationTask) (tid : str)
    (row : TranslationTask) :
  In row (select_where table tid) -> id row = tid.
Proof.
  unfold select_where. intros H. apply filter_In in H.
  apply str_eqb_eq, H.
Qed.

Lemma get_task_details_inv (table : list TranslationTask) (tid : str)
    (d : TaskDetails) :
  get_task_details table tid = Some d ->
  exists task, select_where table tid = [task] /\ d = details task
               /\ id task = tid.
Proof.
  unfold get_task_details. intros H.
  destruct (select_where table tid) as [| task [| t2 r]] eqn:E;
    try discriminate.
  simpl in H. inversion H. exists task. repeat split.
  apply (select_where_id table tid). rewrite E. left. reflexivity.
Qed.

Lemma details_of_update (table : list TranslationTask) (task_id tid : str)
    (set : TranslationTask -> TranslationTask) :
  (forall row, id (set row) = id row) ->
  get_task_details
    (List.map (fun row => if str_eqb (id row) task_id then set row else row)
       table) tid
  = if str_eqb tid task_id
    then match scalar_one_or_none (select_where table tid) with
         | OneRow task => Some (details (set task))
         | _ => None
         end
    else get_task_details table tid.
Proof.
  intros Hid. unfold get_task_details. rewrite (select_where_map _ _ _ _ Hid).
  destruct (str_eqb tid task_id) eqn:E.
  - apply str_eqb_eq in E. subst tid.
    destruct (select_where table task_id) as [| task [| t2 r]] eqn:Es;
      try reflexivity.
    cbn [List.map scalar_one_or_none].
    rewrite (proj2 (str_eqb_eq (id task) task_id)); [reflexivity |].
    apply (select_where_id table task_id). rewrite Es. left. reflexivity.
  - assert (K : List.map (fun row => if str_eqb (id row) task_id
                                     then set row else row)
                  (select_where table tid) = select_where table tid).
    { assert (Hall : forall row, In row (select_where table tid) ->
                       str_eqb (id row) task_id = false).
      { intros row Hr. apply select_where_id in Hr. rewrite Hr. exact E. }
      induction (select_where table tid) as [| row r IH]; [reflexivity |].
      cbn [List.map]. rewrite (Hall row (or_introl eq_refl)), IH;
        [reflexivity |].
      intros row' Hr'. apply Hall. right. exact Hr'. }
    rewrite K. reflexivity.
Qed.

(** X8: what was written can be read back. When [get_task_details] finds
    the task (exactly one row has the id), then after [update_task_status]
    it returns the same dictionary with [status] (the string that was
    passed), [updated_at] and [text_content] replaced, [result_file_path]
    and [error_message] replaced when given and not empty, and the call
    returned [True]; the details of every other task id are as before. *)
Theorem details_after_update_task_status (table : list TranslationTask)
    (now : Z) (task_id status : str) (st : TaskStatus) (rp em : option str)
    (acc : option Q) (tt : option str) (d : TaskDetails) :
  TaskStatus_of status = Ret st ->
  get_task_details table task_id = Some d ->
  exists table',
    DatabaseService.update_task_status table now task_id status rp em acc tt
    = Ret (table', true)
    /\ get_task_details table' task_id
       = Some (details_after_status d status now rp em tt)
    /\ forall tid, tid <> task_id ->
         get_task_details table' tid = get_task_details table tid.
Proof.
  intros Hst Hd.
  destruct (get_task_details_inv _ _ _ Hd) as (task & Hsel & -> & Hid).
  assert (Hex : existsb (fun row => str_eqb (id row) task_id) table = true).
  { apply existsb_exists. exists task. split.
    - assert (Hin : In task (select_where table task_id))
        by (rewrite Hsel; left; reflexivity).
      apply filter_In in Hin. apply Hin.
    - apply str_eqb_eq, Hid. }
  eexists. rewrite (update_task_status_eq _ _ _ _ st _ _ _ _ Hst), Hex.
  split; [reflexivity |]. split.
  - rewrite details_of_update by reflexivity.
    rewrite str_eqb_refl, Hsel. cbn [scalar_one_or_none]. f_equal.
    unfold details, written_row, details_after_status. cbn.
    rewrite (TaskStatus_value_of _ _ Hst). reflexivity.
  - intros tid Hne. rewrite details_of_update by reflexivity.
    apply str_eqb_neq in Hne. rewrite Hne. reflexivity.
Qed.

Lemma details_after_update_task_status_witness :
  exists table',
    DatabaseService.update_task_status
      [DatabaseFacts.sample_row (lit "T1"); DatabaseFacts.sample_row (lit "T2")]
      7 (lit "T1") (lit "COMPLETED") (Some (lit "/tmp/translation_results/T1.bin"))
      None (Some (1 # 1)) (Some (lit "Hello world")) = Ret (table', true)
    /\ get_task_details table' (lit "T1")
       = Some (mkDetails (lit "T1") (lit "COMPLETED") None
                 (Some (lit "Hello world")) (lit "en") (lit "ja") None 0 7
                 (Some (lit "/tmp/translation_results/T1.bin")) None 0).
Proof.
  destruct (details_after_update_task_status
              [DatabaseFacts.sample_row (lit "T1");
               DatabaseFacts.sample_row (lit "T2")]
              7 (lit "T1") (lit "COMPLETED") COMPLETED
              (Some (lit "/tmp/translation_results/T1.bin")) None
              (Some (1 # 1)) (Some (lit "Hello world"))
              (details (DatabaseFacts.sample_row (lit "T1")))
              eq_refl eq_refl) as (table' & H1 & H2 & _).
  exists table'. split; [exact H1 | exact H2].
Defined.

(** X9: assigning a node and counting a retry touch one task and two
    columns each. When [get_task_details] finds the task, then after
    [update_task_assigned_node] it returns the same dictionary with
    [assigned_node_id] and [updated_at] replaced, after
    [increment_retry_count] the same dictionary with [retry_count] one
    higher and [updated_at] replaced; both calls return [True], and the
    details of every other task id are as before. *)
Theorem details_after_assign_and_retry (table : list TranslationTask)
    (now : Z) (task_id node_id : str) (d : TaskDetails) :
  get_task_details table task_id = Some d ->
  (exists table',
     update_task_assigned_node table now task_id node_id = Ret (table', true)
     /\ get_task_details table' task_id
        = Some (details_after_assign d node_id now)
     /\ forall tid, tid <> task_id ->
          get_task_details table' tid = get_task_details table tid)
  /\ (exists table',
        increment_retry_count table now task_id = Ret (table', true)
        /\ get_task_details table' task_id = Some (details_after_retry d now)
        /\ forall tid, tid <> task_id ->
             get_task_details table' tid = get_task_details table tid).
Proof.
  intros Hd.
  destruct (get_task_details_inv _ _ _ Hd) as (task & Hsel & -> & Hid).
  assert (Hex : existsb (fun row => str_eqb (id row) task_id) table = true).
  { apply existsb_exists. exists task. split.
    - assert (Hin : In task (select_where table task_id))
        by (rewrite Hsel; left; reflexivity).
      apply filter_In in Hin. apply Hin.
    - apply str_eqb_eq, Hid. }
  split.
  - eexists. rewrite update_task_assigned_node_eq, Hex.
    split; [reflexivity |]. split.
    + rewrite details_of_update by reflexivity.
      rewrite str_eqb_refl, Hsel. reflexivity.
    + intros tid Hne. rewrite details_of_update by reflexivity.
      apply str_eqb_neq in Hne. rewrite Hne. reflexivity.
  - eexists. rewrite increment_retry_count_eq, Hex.
    split; [reflexivity |]. split.
    + rewrite details_of_update by reflexivity.
      rewrite str_eqb_refl, Hsel. reflexivity.
    + intros tid Hne. rewrite details_of_update by reflexivity.
      apply str_eqb_neq in Hne. rewrite Hne. reflexivity.
Qed.

Lemma details_after_assign_and_retry_witness :
  exists table',
    increment_retry_count
      [DatabaseFacts.sample_row (lit "T1"); DatabaseFacts.sample_row (lit "T2")]
      9 (lit "T2") = Ret (table', true)
    /\ get_task_details table' (lit "T2")
       = Some (mkDetails (lit "T2") (lit "PENDING") None
                 (Some (lit "Hello world")) (lit "en") (lit "ja") None 0 9
                 None None 1).
Proof.
  destruct (proj2 (details_after_assign_and_retry
              [DatabaseFacts.sample_row (lit "T1");
               DatabaseFacts.sample_row (lit "T2")]
              9 (lit "T2") (lit "whisper-node-1")
              (details (DatabaseFacts.sample_row (lit "T2"))) eq_refl))
    as (table' & H1 & H2 & _).
  exists table'. split; [exact H1 | exact H2].
Defined.

End DatabaseOpsFacts.

(* ================================================================== *)
(** * Properties of the tasks on a node *)
(* ================================================================== *)

Module NodeTasksFacts.
Import NodeTasks PyFacts.
Import DatabaseOpsFacts.

Lemma same_settings_refl (n : Node) : same_settings n n.
Proof. repeat split. Qed.

Lemma same_settings_count (n : Node) (c : Z) : same_settings n (with_count n c).
Proof. repeat split. Qed.

Lemma assign_task_to_node_eq (w : World) (now : Z) (task_id : str) :
  assign_task_to_node w now task_id
  = (mkWorld (if known (table w) task_id
              then with_count (node w) (active_task_count (node w) + 1)
              else node w)
       (List.map (fun row => if str_eqb (DatabaseService.id row) task_id
                             then DatabaseOps.assigned_values (NODE_ID (node w))
                                    now row
                             else row) (table w))
       (task_queue w),
     known (table w) task_id).
Proof.
  unfold assign_task_to_node. rewrite update_task_assigned_node_eq.
  reflexivity.
Qed.

Lemma known_map (tbl : list DatabaseService.TranslationTask)
    (task_id tid : str)
    (set : DatabaseService.TranslationTask -> DatabaseService.TranslationTask) :
  (forall row, DatabaseService.id (set row) = DatabaseService.id row) ->
  known (List.map (fun row => if str_eqb (DatabaseService.id row) task_id
                              then set row else row) tbl) tid
  = known tbl tid.
Proof.
  intros Hid. unfold known. induction tbl as [| row r IH]; [reflexivity |].
  cbn [List.map existsb]. rewrite IH. f_equal.
  destruct (str_eqb (DatabaseService.id row) task_id); [rewrite Hid |];
    reflexivity.
Qed.

Lemma node_update_task_status_eq (w : World) (now : Z) (task_id status : str)
    (st : DatabaseService.TaskStatus) (rp em : option str) (acc : option Q)
    (tt : option str) :
  DatabaseService.TaskStatus_of status = Ret st ->
  update_task_status w now task_id status rp em acc tt
  = Ret (mkWorld
           (if known (table w) task_id
               && str_in status [lit "COMPLETED"; lit "FAILED"; lit "CANCELLED"]
               && (0 <? active_task_count (node w))
            then with_count (node w) (active_task_count (node w) - 1)
            else node w)
           (List.map
              (fun row => if str_eqb (DatabaseService.id row) task_id
                          then DatabaseService.written_row row st now rp em acc
                                 tt
                          else row) (table w))
           (task_queue w)).
Proof.
  intros Hst. unfold update_task_status.
  rewrite (update_task_status_eq _ _ _ _ st _ _ _ _ Hst). cbn [bind].
  fold (known (table w) task_id).
  destruct (known (table w) task_id); cbn [andb]; [| reflexivity].
  destruct (str_in status _); cbn [andb]; [| reflexivity].
  destruct (0 <? active_task_count (node w)); reflexivity.
Qed.

Lemma node_update_task_status_raise (w : World) (now : Z)
    (task_id status : str) (rp em : option str) (acc : option Q)
    (tt : option str) (e : exn) :
  DatabaseService.TaskStatus_of status = Raise e ->
  update_task_status w now task_id status rp em acc tt = Raise e.
Proof.
  intros Hst. unfold update_task_status, DatabaseService.update_task_status.
  rewrite Hst. reflexivity.
Qed.

Lemma TaskStatus_of_raises (status : str) (e : exn) :
  DatabaseService.TaskStatus_of status = Raise e -> e = ValueError.
Proof.
  unfold DatabaseService.TaskStatus_of.
  repeat match goal with
    | |- context [if ?b then _ else _] => destruct b; [discriminate |]
    end.
  intros H. inversion H. reflexivity.
Qed.

Section Tasks.

Variable Task : Type.
Variable json_loads : str -> outcome Task.
Variable taskId : Task -> option str.

(** X10: [get_task] hands out a task only within the capacity of the
    node. A node that is shutting down or offline, or that already runs
    [MAX_CONCURRENT_TASKS] tasks, gets [None] and nothing is touched: the
    queue keeps its elements. A task is returned only when the node accepts
    tasks and runs fewer than the maximum; it is the element taken at the
    right end of the queue, its ['taskId'] is not empty and names a row of
    the table, and the counter of running tasks goes up by exactly one. In
    every other case the counter stays as it was. *)
Theorem get_task_respects_capacity (w : World) (now : Z) :
  ((accepting (node w) = false
    \/ MAX_CONCURRENT_TASKS (node w) <= active_task_count (node w)) ->
   get_task Task json_loads taskId w now = (w, None))
  /\ (forall w' task,
        get_task Task json_loads taskId w now = (w', Some task) ->
        accepting (node w) = true
        /\ active_task_count (node w) < MAX_CONCURRENT_TASKS (node w)
        /\ active_task_count (node w') = active_task_count (node w) + 1
        /\ same_settings (node w) (node w')
        /\ exists task_json task_id,
             task_queue w = task_json :: task_queue w'
             /\ json_loads task_json = Ret task
             /\ taskId task = Some task_id
             /\ task_id <> []
             /\ known (table w) task_id = true)
  /\ (forall w',
        get_task Task json_loads taskId w now = (w', None) ->
        node w' = node w).
Proof.
  unfold get_task, accepting.
  destruct (str_in (status (node w)) [lit "SHUTTING_DOWN"; lit "OFFLINE"])
    eqn:Es.
  { split; [reflexivity |]. split; [discriminate |].
    intros w' H. inversion H. reflexivity. }
  destruct (Z.leb_spec (MAX_CONCURRENT_TASKS (node w))
              (active_task_count (node w))) as [Hfull | Hroom].
  { split; [reflexivity |]. split; [discriminate |].
    intros w' H. inversion H. reflexivity. }
  split; [intros [K | K]; [discriminate K | lia] |].
  destruct (task_queue w) as [| task_json q] eqn:Eq; cbn [brpop].
  { split; [discriminate |]. intros w' H. inversion H. reflexivity. }
  destruct (json_loads task_json) as [task |] eqn:Ej.
  2:{ split; [discriminate |]. intros w' H. inversion H. reflexivity. }
  destruct (taskId task) as [[| c s] |] eqn:Et.
  1,3: split; [discriminate |]; intros w' H; inversion H; reflexivity.
  rewrite assign_task_to_node_eq. cbn [node table task_queue].
  destruct (known (table w) (c :: s)) eqn:Ek.
  - split.
    + intros w' task' H. inversion H. subst. cbn [node task_queue].
      split; [reflexivity |]. split; [exact Hroom |].
      split; [reflexivity |]. split; [apply same_settings_count |].
      exists task_json, (c :: s).
      repeat split; try assumption. discriminate.
    + discriminate.
  - split; [discriminate |]. intros w' H. inversion H. reflexivity.
Qed.

(** X12: the counter of running tasks stays within its bounds: if
    [0 <= active_task_count <= MAX_CONCURRENT_TASKS] holds before a call of
    [get_task], of [update_task_status] or of [handle_task_cancellation],
    it holds after it. *)
Theorem active_task_count_in_bounds (w : World) (now : Z) :
  count_in_bounds w ->
  count_in_bounds (fst (get_task Task json_loads taskId w now))
  /\ (forall task_id status rp em acc tt w',
        update_task_status w now task_id status rp em acc tt = Ret w' ->
        count_in_bounds w')
  /\ (forall task_id,
        count_in_bounds (handle_task_cancellation w now task_id)).
Proof.
  intros Hb. unfold count_in_bounds in *.
  assert (Hupd : forall w0 task_id status rp em acc tt w',
            0 <= active_task_count (node w0) <= MAX_CONCURRENT_TASKS (node w0) ->
            update_task_status w0 now task_id status rp em acc tt = Ret w' ->
            0 <= active_task_count (node w') <= MAX_CONCURRENT_TASKS (node w')).
  { intros w0 task_id status rp em acc tt w' Hb0 H.
    destruct (DatabaseService.TaskStatus_of status) as [st | e] eqn:Hst.
    - rewrite (node_update_task_status_eq _ _ _ _ st _ _ _ _ Hst) in H.
      apply Ret_inj in H. subst w'. cbn [node].
      destruct (known (table w0) task_id && str_in status _
                && (0 <? active_task_count (node w0))) eqn:E;
        [| exact Hb0].
      apply andb_true_iff in E. destruct E as [_ E]. apply Z.ltb_lt in E.
      cbn. lia.
    - rewrite (node_update_task_status_raise _ _ _ _ _ _ _ _ e Hst) in H.
      discriminate H. }
  split; [| split].
  - unfold get_task.
    destruct (str_in (status (node w)) [lit "SHUTTING_DOWN"; lit "OFFLINE"]);
      [exact Hb |].
    destruct (Z.leb_spec (MAX_CONCURRENT_TASKS (node w))
                (active_task_count (node w))) as [Hfull | Hroom]; [exact Hb |].
    destruct (task_queue w) as [| task_json q]; cbn [brpop]; [exact Hb |].
    destruct (json_loads task_json) as [task |]; [| exact Hb].
    destruct (taskId task) as [[| c s] |]; try exact Hb.
    rewrite assign_task_to_node_eq. cbn [node table task_queue].
    destruct (known (table w) (c :: s)); cbn; [lia | exact Hb].
  - intros task_id status rp em acc tt w' H. exact (Hupd w _ _ _ _ _ _ _ Hb H).
  - intros task_id. unfold handle_task_cancellation.
    destruct (update_task_status _ now task_id (lit "CANCELLED") None None
                None None) as [w2 | e] eqn:E.
    + eapply Hupd; [| exact E]. exact Hb.
    + exact Hb.
Qed.

Lemma in_map_update (tbl : list DatabaseService.TranslationTask)
    (task_id : str)
    (set : DatabaseService.TranslationTask -> DatabaseService.TranslationTask)
    (row : DatabaseService.TranslationTask) :
  (forall r, DatabaseService.id (set r) = DatabaseService.id r) ->
  In row (List.map (fun r => if str_eqb (DatabaseService.id r) task_id
                             then set r else r) tbl) ->
  DatabaseService.id row = task_id ->
  exists r, In r tbl /\ row = set r.
Proof.
  intros Hid Hin E. apply in_map_iff in Hin. destruct Hin as (r & Hr & Hin).
  exists r. split; [exact Hin |].
  destruct (str_eqb (DatabaseService.id r) task_id) eqn:Er; [congruence |].
  subst row. apply str_eqb_neq in Er. contradiction.
Qed.

(** X13: a task that was handed out and then reaches a final status
    frees its slot. After [get_task] has returned a task, the call
    [update_task_status(task_id, status)] with "COMPLETED", "FAILED" or
    "CANCELLED" returns, the counter of running tasks is back at the value
    it had before [get_task], and the row of the task holds the final
    status, the id of this node and the time of the last update. *)
Theorem finished_task_frees_its_slot (w w1 : World) (now now' : Z)
    (task : Task) (final_status : str) (st : DatabaseService.TaskStatus)
    (rp em : option str) (acc : option Q) (tt : option str) :
  0 <= active_task_count (node w) ->
  get_task Task json_loads taskId w now = (w1, Some task) ->
  str_in final_status [lit "COMPLETED"; lit "FAILED"; lit "CANCELLED"] = true ->
  DatabaseService.TaskStatus_of final_status = Ret st ->
  exists task_id w2,
    taskId task = Some task_id
    /\ update_task_status w1 now' task_id final_status rp em acc tt = Ret w2
    /\ active_task_count (node w2) = active_task_count (node w)
    /\ known (table w2) task_id = true
    /\ forall row, In row (table w2) -> DatabaseService.id row = task_id ->
         DatabaseService.status row = st
         /\ DatabaseService.assigned_node_id row = Some (NODE_ID (node w))
         /\ DatabaseService.updated_at row = now'.
Proof.
  intros Hpos Hget Hfinal Hst. unfold get_task in Hget.
  destruct (str_in (status (node w)) [lit "SHUTTING_DOWN"; lit "OFFLINE"]);
    [discriminate |].
  destruct (MAX_CONCURRENT_TASKS (node w) <=? active_task_count (node w));
    [discriminate |].
  destruct (task_queue w) as [| task_json q]; cbn [brpop] in Hget;
    [discriminate |].
  destruct (json_loads task_json) as [task0 |]; [| discriminate].
  destruct (taskId task0) as [[| c s] |] eqn:Et; try discriminate.
  rewrite assign_task_to_node_eq in Hget. cbn [node table task_queue] in Hget.
  destruct (known (table w) (c :: s)) eqn:Ek; [| discriminate].
  inversion Hget. subst w1 task0. clear Hget.
  exists (c :: s). eexists.
  rewrite (node_update_task_status_eq _ _ _ _ st _ _ _ _ Hst).
  cbn [node table task_queue].
  rewrite known_map by reflexivity. rewrite Ek, Hfinal.
  replace (0 <? active_task_count
                  (with_count (node w) (active_task_count (node w) + 1)))
    with true by (symmetry; apply Z.ltb_lt; cbn; lia).
  cbn [andb].
  split; [exact Et |]. split; [reflexivity |]. cbn [node table].
  split; [cbn; lia |].
  split; [rewrite !known_map by reflexivity; exact Ek |].
  intros row Hin Hid.
  destruct (in_map_update _ (c :: s)
              (fun r => DatabaseService.written_row r st now' rp em acc tt)
              row (fun r => eq_refl) Hin Hid)
    as (r1 & Hin1 & ->).
  cbn [DatabaseService.written_row DatabaseService.id] in Hid.
  destruct (in_map_update _ (c :: s)
              (DatabaseOps.assigned_values (NODE_ID (node w)) now)
              r1 (fun r => eq_refl) Hin1 Hid)
    as (r0 & _ & ->).
  repeat split.
Qed.

End Tasks.

(** X11: what [update_task_status] does to the counter of running tasks.
    With a status of the enumeration the call returns; the counter goes
    down by one exactly when a row has the task id, the status is
    "COMPLETED", "FAILED" or "CANCELLED", and the counter is positive; in
    every other case (status "PENDING" or "PROCESSING", unknown task id,
    counter at zero) it stays. With any other status the call raises
    [ValueError]. *)
Theorem update_task_status_counter (w : World) (now : Z)
    (task_id status : str) (rp em : option str) (acc : option Q)
    (tt : option str) :
  match update_task_status w now task_id status rp em acc tt with
  | Ret w' =>
      active_task_count (node w')
      = (if known (table w) task_id
            && str_in status [lit "COMPLETED"; lit "FAILED"; lit "CANCELLED"]
            && (0 <? active_task_count (node w))
         then active_task_count (node w) - 1
         else active_task_count (node w))
      /\ same_settings (node w) (node w')
      /\ task_queue w' = task_queue w
      /\ exists st, DatabaseService.TaskStatus_of status = Ret st
  | Raise e =>
      e = ValueError
      /\ DatabaseService.TaskStatus_of status = Raise ValueError
  end.
Proof.
  destruct (DatabaseService.TaskStatus_of status) as [st | e] eqn:Hst.
  - rewrite (node_update_task_status_eq _ _ _ _ st _ _ _ _ Hst).
    cbn [node task_queue].
    destruct (known (table w) task_id && str_in status _
              && (0 <? active_task_count (node w))).
    + repeat split. exists st. reflexivity.
    + repeat split. exists st. reflexivity.
  - rewrite (node_update_task_status_raise _ _ _ _ _ _ _ _ e Hst).
    pose proof (TaskStatus_of_raises _ _ Hst) as ->. split; reflexivity.
Qed.

(** X14: a cancellation request marks the task and sets its rows to
    CANCELLED. After [handle_task_cancellation] the task id is in
    [cancelled_tasks], which lost no element; every row with the id has
    status CANCELLED (and, as with every status update, its [accuracy] and
    [text_content] are reset); the counter of running tasks went down by
    one if a row has the id and the counter was positive; no exception
    leaves the method. *)
Theorem cancellation_marks_task (w : World) (now : Z) (task_id : str) :
  In task_id (cancelled_tasks (node (handle_task_cancellation w now task_id)))
  /\ (forall t, In t (cancelled_tasks (node w)) ->
        In t (cancelled_tasks
                (node (handle_task_cancellation w now task_id))))
  /\ table (handle_task_cancellation w now task_id)
     = List.map
         (fun row => if str_eqb (DatabaseService.id row) task_id
                     then DatabaseService.written_row row
                            DatabaseService.CANCELLED now None None None None
                     else row) (table w)
  /\ active_task_count (node (handle_task_cancellation w now task_id))
     = (if known (table w) task_id && (0 <? active_task_count (node w))
        then active_task_count (node w) - 1
        else active_task_count (node w))
  /\ task_queue (handle_task_cancellation w now task_id) = task_queue w.
Proof.
  unfold handle_task_cancellation.
  rewrite (node_update_task_status_eq _ now task_id (lit "CANCELLED")
             DatabaseService.CANCELLED None None None None eq_refl).
  cbn [node table task_queue].
  change (str_in (lit "CANCELLED")
            [lit "COMPLETED"; lit "FAILED"; lit "CANCELLED"]) with true.
  rewrite andb_true_r.
  assert (Hin : In task_id (set_add (cancelled_tasks (node w)) task_id)).
  { apply LayoutFacts.set_add_in. right. reflexivity. }
  assert (Hkeep : forall t, In t (cancelled_tasks (node w)) ->
                    In t (set_add (cancelled_tasks (node w)) task_id)).
  { intros t Ht. apply LayoutFacts.set_add_in. left. exact Ht. }
  destruct (known (table w) task_id
            && (0 <? active_task_count
                       (with_cancelled (node w)
                          (set_add (cancelled_tasks (node w)) task_id))))
    eqn:E; cbn in E; rewrite E; repeat split; assumption.
Qed.

Lemma active_task_count_in_bounds_witness :
  count_in_bounds sample_world
  /\ count_in_bounds
       (fst (get_task str sample_loads sample_taskId sample_world 5))
  /\ active_task_count
       (node (fst (get_task str sample_loads sample_taskId sample_world 5)))
     = 2.
Proof.
  assert (Hb : count_in_bounds sample_world) by (unfold count_in_bounds; cbn; lia).
  split; [exact Hb |]. split.
  - exact (proj1 (active_task_count_in_bounds str sample_loads sample_taskId
                    sample_world 5 Hb)).
  - reflexivity.
Defined.

Lemma finished_task_frees_its_slot_witness :
  exists w1 w2,
    get_task str sample_loads sample_taskId sample_world 5
    = (w1, Some (lit "T1"))
    /\ update_task_status w1 8 (lit "T1") (lit "COMPLETED")
         (Some (lit "/tmp/translation_results/T1.bin")) None None None
       = Ret w2
    /\ active_task_count (node w2) = 1.
Proof.
  destruct (get_task str sample_loads sample_taskId sample_world 5)
    as [w1 r] eqn:E.
  assert (Hr : r = Some (lit "T1")).
  { pose proof E as E0. vm_compute in E0. inversion E0. reflexivity. }
  subst r.
  destruct (finished_task_frees_its_slot str sample_loads sample_taskId
              sample_world w1 5 8 (lit "T1") (lit "COMPLETED")
              DatabaseService.COMPLETED
              (Some (lit "/tmp/translation_results/T1.bin")) None None None)
    as (task_id & w2 & Ht & Hu & Hc & _).
  - cbn. lia.
  - exact E.
  - reflexivity.
  - reflexivity.
  - exists w1, w2. split; [reflexivity |].
    inversion Ht. subst task_id. split; [exact Hu | exact Hc].
Defined.

End NodeTasksFacts.

(* ================================================================== *)
(** * Properties of the translation service *)
(* ================================================================== *)

Module TranslationTextFacts.
Import TranslationService TranslationText PyFacts.

(** ** The provider chain without an OpenAI key *)



(** ** Dictionaries of strings *)

Lemma sdict_get_set (d : list (str * str)) (k v k' : str) :
  sdict_get (sdict_set d k v) k'
  = if str_eqb k' k then Some v else sdict_get d k'.
Proof.
  induction d as [| [k0 v0] r IH]; simpl.
  - destruct (str_eqb k' k); reflexivity.
  - destruct (str_eqb k k0) eqn:E; simpl.
    + apply str_eqb_eq in E. subst k0.
      destruct (str_eqb k' k); reflexivity.
    + rewrite IH. destruct (str_eqb k' k0) eqn:E0; [| reflexivity].
      apply str_eqb_eq in E0. subst k0.
      destruct (str_eqb k' k) eqn:E1; [| reflexivity].
      apply str_eqb_eq in E1. subst k'. rewrite str_eqb_refl in E.
      discriminate.
Qed.

Lemma sdict_keys_set (d : list (str * str)) (k v x : str) :
  In x (List.map fst (sdict_set d k v)) <-> x = k \/ In x (List.map fst d).
Proof.
  induction d as [| [k0 v0] r IH]; simpl.
  - intuition congruence.
  - destruct (str_eqb k k0) eqn:E; simpl.
    + apply str_eqb_eq in E. subst k0. intuition congruence.
    + rewrite IH. tauto.
Qed.

Lemma sdict_nodup_set (d : list (str * str)) (k v : str) :
  NoDup (List.map fst d) -> NoDup (List.map fst (sdict_set d k v)).
Proof.
  induction d as [| [k0 v0] r IH]; simpl; intros H.
  - repeat constructor. intros [].
  - inversion H as [| ? ? Hn Hr]; subst.
    destruct (str_eqb k k0) eqn:E; simpl.
    + constructor; assumption.
    + constructor; [| apply IH, Hr].
      rewrite sdict_keys_set. intros [-> | K]; [| contradiction].
      rewrite str_eqb_refl in E. discriminate.
Qed.

Section Translate.

Variable cfg : Config.
Variable sv : Services.
Variable str_of_exn : exn -> str.

(** The loop over the results of coroutines that were not cancelled. *)
Lemma collect_results_entries (text src : str) (tasks : list str)
    (acc : list (str * str)) :
  exists d,
    collect_results str_of_exn
      (List.map (fun t => (t, _translate_single_with_cancellation cfg sv text
                                src t None None)) tasks) acc = Some d
    /\ (forall k, sdict_get d k
                  = if existsb (str_eqb k) tasks
                    then Some (target_entry cfg sv str_of_exn text src k)
                    else sdict_get acc k)
    /\ (forall k, In k (List.map fst d)
                  <-> In k tasks \/ In k (List.map fst acc))
    /\ (NoDup (List.map fst acc) -> NoDup (List.map fst d)).
Proof.
  revert acc. induction tasks as [| t r IH]; intros acc.
  - exists acc. simpl. repeat split; tauto.
  - cbn [List.map collect_results].
    unfold _translate_single_with_cancellation at 1. cbn [is_cancelled].
    set (v := target_entry cfg sv str_of_exn text src t).
    destruct (IH (sdict_set acc t v)) as (d & Hd & Hget & Hkeys & Hnd).
    exists d. split; [| split; [| split]].
    + rewrite <- Hd. unfold v, target_entry.
      destruct (_translate_single cfg sv text src t); reflexivity.
    + intros k. rewrite Hget, sdict_get_set. cbn [existsb].
      destruct (existsb (str_eqb k) r) eqn:Er.
      * rewrite orb_true_r. reflexivity.
      * rewrite orb_false_r. destruct (str_eqb k t) eqn:Et; [| reflexivity].
        apply str_eqb_eq in Et. subst k. reflexivity.
    + intros k. rewrite Hkeys, sdict_keys_set. simpl. intuition congruence.
    + intros H. apply Hnd, sdict_nodup_set, H.
Qed.

Lemma existsb_filter_ne (k src : str) (targets : list str) :
  existsb (str_eqb k)
    (filter (fun t => negb (str_eqb t src)) targets)
  = existsb (str_eqb k) targets && negb (str_eqb k src).
Proof.
  induction targets as [| t r IH]; [reflexivity |].
  cbn [filter existsb].
  destruct (str_eqb t src) eqn:Et; cbn [negb existsb]; rewrite IH.
  - destruct (str_eqb k t) eqn:Ek; cbn [orb]; [| reflexivity].
    apply str_eqb_eq in Ek. subst k. rewrite Et. cbn [negb].
    rewrite !andb_false_r. reflexivity.
  - destruct (str_eqb k t) eqn:Ek; cbn [orb andb]; [| reflexivity].
    apply str_eqb_eq in Ek. subst k. rewrite Et. reflexivity.
Qed.

(** What [translate_text] returns when the task is not cancelled. *)
Lemma translate_text_entries (text src : str) (targets : list str) :
  exists d,
    translate_text cfg sv str_of_exn text src targets None None
    = Translations d
    /\ sdict_get d src = Some text
    /\ (forall t, In t targets -> t <> src ->
          sdict_get d t = Some (target_entry cfg sv str_of_exn text src t))
    /\ (forall k, In k (List.map fst d) <-> k = src \/ In k targets)
    /\ NoDup (List.map fst d).
Proof.
  unfold translate_text. cbn [is_cancelled].
  destruct (collect_results_entries text src
              (filter (fun t => negb (str_eqb t src)) targets) [])
    as (d & Hd & Hget & Hkeys & Hnd).
  cbv zeta. rewrite Hd.
  exists (sdict_set d src text). split; [reflexivity |].
  split; [rewrite sdict_get_set, str_eqb_refl; reflexivity |].
  split; [| split].
  - intros t Ht Hne. rewrite sdict_get_set.
    apply str_eqb_neq in Hne. rewrite Hne.
    rewrite Hget, existsb_filter_ne, Hne. cbn [negb].
    rewrite andb_true_r.
    rewrite (proj2 (LayoutFacts.existsb_str_eqb t targets) Ht). reflexivity.
  - intros k. rewrite sdict_keys_set, Hkeys. simpl.
    rewrite filter_In. split.
    + intros [-> | [[H _] | []]]; auto.
    + intros [-> | H]; [auto |].
      destruct (str_eqb k src) eqn:E.
      * apply str_eqb_eq in E. auto.
      * right. left. split; [exact H | reflexivity].
  - apply sdict_nodup_set, Hnd. constructor.
Qed.

(** X16: the dictionary of [translate_text]. A task that is marked as
    cancelled makes the call raise [asyncio.CancelledError]. Otherwise the
    call returns a dictionary whose keys are the source language and the
    target languages, each once; the source language holds the text
    itself, also when it is among the targets; every other target holds
    the result of [_translate_single], or "[Translation Error: ...]" with
    the message of the exception when that call raised: one failing target
    does not fail the call. *)
Theorem translate_text_result (text src : str) (targets : list str)
    (task_id : option str) (cancelled_tasks_set : option (list str)) :
  (is_cancelled cancelled_tasks_set task_id = true ->
   translate_text cfg sv str_of_exn text src targets task_id
     cancelled_tasks_set = CancelledError)
  /\ (is_cancelled cancelled_tasks_set task_id = false ->
      exists d,
        translate_text cfg sv str_of_exn text src targets task_id
          cancelled_tasks_set = Translations d
        /\ sdict_get d src = Some text
        /\ (forall t, In t targets -> t <> src ->
              sdict_get d t
              = Some (match _translate_single cfg sv text src t with
                      | Ret s => s
                      | Raise e =>
                          lit "[Translation Error: " ++ str_of_exn e ++ lit "]"
                      end))
        /\ (forall k, In k (List.map fst d) <-> k = src \/ In k targets)
        /\ NoDup (List.map fst d)).
Proof.
  split.
  - intros Hc. unfold translate_text. rewrite Hc. reflexivity.
  - intros Hc.
    destruct (translate_text_entries text src targets)
      as (d & Hd & H1 & H2 & H3 & H4).
    exists d. split; [| repeat split; try assumption; apply H3].
    rewrite <- Hd. unfold translate_text, _translate_single_with_cancellation.
    rewrite Hc. cbn [is_cancelled]. reflexivity.
Qed.

End Translate.

(** X17: with no provider key and a public endpoint that fails, every
    target language of [translate_text] gets the literal of
    [_translate_with_dict],
    "[todo use another translator][Translated from {src} to {tgt}]: {text}",
    and the source language gets the text. *)
Theorem translate_text_fallback (cfg : Config) (sv : Services)
    (str_of_exn : exn -> str) (text src : str) (targets : list str) :
  truthy (TRANSLATION_API_KEY cfg) = false ->
  configured (GOOGLE_TRANSLATE_API_KEY cfg) = false ->
  configured (DEEPL_API_KEY cfg) = false ->
  (forall t, In t targets ->
     exists e, libre_request sv text (_convert_to_libre_code src)
                 (_convert_to_libre_code t) = Raise e) ->
  exists d,
    translate_text cfg sv str_of_exn text src targets None None
    = Translations d
    /\ sdict_get d src = Some text
    /\ forall t, In t targets -> t <> src ->
         sdict_get d t
         = Some (lit "[todo use another translator][Translated from " ++ src
                 ++ lit " to " ++ t ++ lit "]: " ++ text).
Proof.
  intros Hk Hg Hd Hl.
  destruct (translate_text_entries cfg sv str_of_exn text src targets)
    as (d & Ed & H1 & H2 & _).
  exists d. split; [exact Ed |]. split; [exact H1 |].
  intros t Ht Hne. rewrite (H2 t Ht Hne). f_equal.
  unfold target_entry, _translate_single. rewrite Hk, Hg, Hd.
  destruct (Hl t Ht) as (e & He).
  rewrite (TranslationFacts.translate_with_libre_failure _ _ _ _ _ He).
  reflexivity.
Qed.

Lemma translate_text_fallback_witness :
  exists d,
    translate_text TranslationFacts.no_keys TranslationFacts.all_down
      (fun _ => lit "error") (lit "Hi") (lit "en")
      [lit "ja"; lit "en"; lit "fr"] None None
    = Translations d
    /\ sdict_get d (lit "en") = Some (lit "Hi")
    /\ forall t, In t [lit "ja"; lit "en"; lit "fr"] -> t <> lit "en" ->
         sdict_get d t
         = Some (lit "[todo use another translator][Translated from "
                 ++ lit "en" ++ lit " to " ++ t ++ lit "]: " ++ lit "Hi").
Proof.
  apply translate_text_fallback; try reflexivity.
  intros t _. exists HTTPError. reflexivity.
Defined.

End TranslationTextFacts.

(* ================================================================== *)
(** * Properties of the language detection and of the code tables *)
(* ================================================================== *)

Module DetectFacts.
Import TranslationService TranslationText PyFacts.

Lemma char_in_In (chars : list Z) (c : Z) :
  char_in chars c = true <-> In c chars.
Proof.
  unfold char_in. rewrite existsb_exists. split.
  - intros (x & Hx & E). apply Z.eqb_eq in E. subst. exact Hx.
  - intros H. exists c. split; [exact H | apply Z.eqb_refl].
Qed.

Lemma forallb_chars (p : Z -> bool) (chars : list Z) (c : Z) :
  forallb p chars = true -> char_in chars c = true -> p c = true.
Proof.
  intros H Hc. apply char_in_In in Hc.
  exact (proj1 (forallb_forall p chars) H c Hc).
Qed.

Lemma count_chars_cons (chars : list Z) (c : Z) (text : str) :
  count_chars chars (c :: text)
  = (if char_in chars c then 1 else 0) + count_chars chars text.
Proof.
  unfold count_chars. cbn [filter].
  destruct (char_in chars c); [rewrite len_cons |]; lia.
Qed.

Lemma count_chars_nonneg (chars : list Z) (text : str) :
  0 <= count_chars chars text.
Proof. apply len_nonneg. Qed.

(** A character of one set is in the other set or is one of the ten that
    tell the scripts apart. *)
Lemma marker_cases (c : Z) :
  (if char_in simplified_chars c then 1 else 0)
  - (if char_in traditional_chars c then 1 else 0)
  = (if char_in simplified_only c then 1 else 0)
    - (if char_in traditional_only c then 1 else 0).
Proof.
  pose proof (forallb_chars
                (fun x => char_in traditional_chars x || char_in simplified_only x)
                simplified_chars c eq_refl) as F1.
  pose proof (forallb_chars
                (fun x => char_in simplified_chars x || char_in traditional_only x)
                traditional_chars c eq_refl) as F2.
  pose proof (forallb_chars
                (fun x => char_in simplified_chars x
                          && negb (char_in traditional_chars x)
                          && negb (char_in traditional_only x))
                simplified_only c eq_refl) as F3.
  pose proof (forallb_chars
                (fun x => char_in traditional_chars x
                          && negb (char_in simplified_chars x)
                          && negb (char_in simplified_only x))
                traditional_only c eq_refl) as F4.
  cbv beta in F1, F2, F3, F4.
  destruct (char_in simplified_chars c); destruct (char_in traditional_chars c);
    destruct (char_in simplified_only c); destruct (char_in traditional_only c);
    cbn [orb andb negb] in *;
    try reflexivity;
    try (specialize (F1 eq_refl); discriminate F1);
    try (specialize (F2 eq_refl); discriminate F2);
    try (specialize (F3 eq_refl); discriminate F3);
    try (specialize (F4 eq_refl); discriminate F4).
Qed.

Lemma count_difference (text : str) :
  count_chars simplified_chars text - count_chars traditional_chars text
  = count_chars simplified_only text - count_chars traditional_only text.
Proof.
  induction text as [| c r IH]; [reflexivity |].
  rewrite !count_chars_cons. pose proof (marker_cases c). lia.
Qed.

Lemma count_positive (chars : list Z) (text : str) :
  0 < count_chars chars text -> exists c, In c text /\ char_in chars c = true.
Proof.
  induction text as [| c r IH];
    [intros H; vm_compute in H; discriminate H |].
  rewrite count_chars_cons.
  destruct (char_in chars c) eqn:E.
  - intros _. exists c. split; [left; reflexivity | exact E].
  - intros H. destruct IH as (x & Hx & Ex); [lia |].
    exists x. split; [right |]; assumption.
Qed.

Lemma search_range_true (lo hi : Z) (text : str) (c : Z) :
  In c text -> in_range lo hi c = true -> search_range lo hi text = true.
Proof.
  intros Hin Hc. unfold search_range. apply existsb_exists. exists c. auto.
Qed.

Lemma search_range_false (lo hi : Z) (text : str) :
  (forall c, In c text -> c < lo \/ hi < c) ->
  search_range lo hi text = false.
Proof.
  intros H. unfold search_range.
  destruct (existsb (in_range lo hi) text) eqn:E; [| reflexivity].
  apply existsb_exists in E. destruct E as (c & Hc & E).
  unfold in_range in E. apply andb_true_iff in E. destruct E as [E1 E2].
  apply Z.leb_le in E1. apply Z.leb_le in E2.
  destruct (H c Hc); lia.
Qed.

(** X18: [detect_language] decides by script, in a fixed order of
    priority. It returns one of the seven codes zh-cn, zh-tw, ja, ko, ar,
    ru, en, each of them a key of [language_mapping] and of the table of
    the public endpoint; a text with a CJK unified ideograph
    (U+4E00..U+9FFF) is taken for Chinese whatever else it holds (kana,
    hangul, ...); a text whose characters all lie below U+0400 (ASCII,
    Latin, the empty text) is taken for English. *)
Theorem detect_language_by_script (text : str) :
  In (detect_language text)
    [lit "zh-cn"; lit "zh-tw"; lit "ja"; lit "ko"; lit "ar"; lit "ru";
     lit "en"]
  /\ has_key language_mapping (detect_language text) = true
  /\ has_key libre_codes (detect_language text) = true
  /\ ((exists c, In c text /\ 19968 <= c <= 40959) ->
      detect_language text = lit "zh-cn" \/ detect_language text = lit "zh-tw")
  /\ ((forall c, In c text -> c < 1024) -> detect_language text = lit "en").
Proof.
  assert (Hdom : In (detect_language text)
                   [lit "zh-cn"; lit "zh-tw"; lit "ja"; lit "ko"; lit "ar";
                    lit "ru"; lit "en"]).
  { unfold detect_language.
    repeat match goal with
      | |- context [if ?b then _ else _] => destruct b
      end; simpl; tauto. }
  split; [exact Hdom |].
  split; [| split; [| split]].
  - simpl in Hdom.
    repeat (destruct Hdom as [<- | Hdom]; [reflexivity |]). destruct Hdom.
  - simpl in Hdom.
    repeat (destruct Hdom as [<- | Hdom]; [reflexivity |]). destruct Hdom.
  - intros (c & Hc & Hr). unfold detect_language.
    rewrite (search_range_true 19968 40959 text c Hc).
    + cbv zeta. destruct (_ <=? _); [left | right]; reflexivity.
    + unfold in_range. apply andb_true_iff.
      split; apply Z.leb_le; lia.
  - intros Hlow. unfold detect_language.
    rewrite !search_range_false
      by (intros c Hc; specialize (Hlow c Hc); lia).
    reflexivity.
Qed.

(** X19: when [detect_language] says Traditional Chinese. The result is
    "zh-tw" exactly when the text holds more of the ten characters that
    only the traditional set has than of the ten that only the simplified
    set has; a Chinese text with as many of both, or with none of them, is
    reported as "zh-cn". *)
Theorem detect_language_traditional (text : str) :
  detect_language text = lit "zh-tw"
  <-> count_chars simplified_only text < count_chars traditional_only text.
Proof.
  pose proof (count_difference text) as Hd.
  unfold detect_language. split.
  - destruct (search_range 19968 40959 text).
    + cbv zeta.
      destruct (Z.leb_spec (count_chars traditional_chars text)
                  (count_chars simplified_chars text)) as [Hle | Hlt].
      * intros H. vm_compute in H. discriminate H.
      * intros _. lia.
    + repeat match goal with
        | |- context [if ?b then _ else _] => destruct b
        end; intros H; vm_compute in H; discriminate H.
  - intros Hlt.
    destruct (count_positive traditional_only text) as (c & Hc & Ec).
    { pose proof (count_chars_nonneg simplified_only text). lia. }
    rewrite (search_range_true 19968 40959 text c Hc).
    + cbv zeta.
      destruct (Z.leb_spec (count_chars traditional_chars text)
                  (count_chars simplified_chars text)) as [Hle | _];
        [lia | reflexivity].
    + exact (forallb_chars (in_range 19968 40959) traditional_only c eq_refl Ec).
Qed.

(** ** The code tables *)

Lemma mapping_get_cases (m : list (str * str)) (k default : str) :
  (has_key m k = false -> mapping_get m k default = default)
  /\ In (mapping_get m k default) (default :: List.map snd m).
Proof.
  induction m as [| [k' v] r IH]; simpl.
  - split; [reflexivity | left; reflexivity].
  - destruct (str_eqb k k') eqn:E; simpl.
    + split; [discriminate | right; left; reflexivity].
    + destruct IH as [IH1 IH2]. split; [exact IH1 |].
      destruct IH2 as [H | H]; [left; exact H | right; right; exact H].
Qed.

(** X20: the four conversions of language codes never give a code that
    is not in their table: the result is a value of the table or the
    default, and a code that is no key of the table (unknown language,
    other spelling) silently becomes English: "en" for Google, Bing and the
    public endpoint, "EN" for DeepL. *)
Theorem converted_codes (lang_code : str) :
  In (_convert_to_google_code lang_code)
    (lit "en" :: List.map snd google_codes)
  /\ In (_convert_to_bing_code lang_code) (lit "en" :: List.map snd bing_codes)
  /\ In (_convert_to_libre_code lang_code)
       (lit "en" :: List.map snd libre_codes)
  /\ In (_convert_to_deepl_code lang_code)
       (lit "EN" :: List.map snd deepl_codes)
  /\ (has_key google_codes lang_code = false ->
      _convert_to_google_code lang_code = lit "en")
  /\ (has_key bing_codes lang_code = false ->
      _convert_to_bing_code lang_code = lit "en")
  /\ (has_key libre_codes lang_code = false ->
      _convert_to_libre_code lang_code = lit "en")
  /\ (has_key deepl_codes lang_code = false ->
      _convert_to_deepl_code lang_code = lit "EN").
Proof.
  unfold _convert_to_google_code, _convert_to_bing_code,
    _convert_to_deepl_code.
  change (_convert_to_libre_code lang_code)
    with (mapping_get libre_codes lang_code (lit "en")).
  repeat split;
    try apply (proj2 (mapping_get_cases _ lang_code _));
    apply (proj1 (mapping_get_cases _ lang_code _)).
Qed.

End DetectFacts.

(* ================================================================== *)
(** * The task term of the node score *)
(* ================================================================== *)

Module NodeScoreFacts.
Import NodeManager.

Section Saturation.

Variable F : Type.
Variable fle : F -> F -> Prop.
Variable fltb : F -> F -> bool.
Variables fadd fmul fdiv : F -> F -> F.
Variable of_int : Z -> F.
Variables f0 f0_4 f0_3 f100 f10 f1 : F.

Hypothesis fle_refl : forall a, fle a a.
Hypothesis fle_trans : forall a b c, fle a b -> fle b c -> fle a c.
Hypothesis fltb_false : forall a b, fltb a b = false -> fle b a.
Hypothesis fadd_mono :
  forall a b c d, fle a b -> fle c d -> fle (fadd a c) (fadd b d).
Hypothesis fmul_mono :
  forall w a b, fle f0 w -> fle a b -> fle (fmul w a) (fmul w b).
Hypothesis fdiv_mono :
  forall a b d, fle f0 d -> ~ fle d f0 -> fle a b -> fle (fdiv a d) (fdiv b d).
Hypothesis of_int_mono :
  forall a b, a <= b -> fle (of_int a) (of_int b).
Hypothesis f0_3_pos : fle f0 f0_3.
Hypothesis f10_pos : fle f0 f10 /\ ~ fle f10 f0.

(** [10 / 10.0] is not below [1.0]. *)
Hypothesis ten_tenths : fle f1 (fdiv (of_int 10) f10).

(** Above the cap the smaller argument of [min] is [1.0], up to the
    order. *)
Lemma fmin_capped (x : F) :
  fle f1 x -> fle (fmin F fltb x f1) f1 /\ fle f1 (fmin F fltb x f1).
Proof.
  intros Hx. unfold fmin. destruct (fltb f1 x) eqn:E.
  - split; apply fle_refl.
  - split; [exact (fltb_false _ _ E) | exact Hx].
Qed.

Lemma task_score_capped (a : Z) :
  10 <= a ->
  fle (fmin F fltb (fdiv (of_int a) f10) f1) f1
  /\ fle f1 (fmin F fltb (fdiv (of_int a) f10) f1).
Proof.
  intros Ha. apply fmin_capped.
  destruct f10_pos as [Hp Hn].
  apply (fle_trans _ _ _ ten_tenths).
  apply fdiv_mono; [exact Hp | exact Hn | apply of_int_mono; exact Ha].
Qed.


End Saturation.


End NodeScoreFacts.
